(** * Verification of the chat agent's server and client helpers

    A shallow embedding of the TypeScript sources of the repository and the
    properties its specification states about them:

    - upload validation ([validateFile], [isValidTextContent]) and the
      upload endpoint ([POST], [uploadFile], [uploadLargeFile]);
    - the client store over [localStorage] ([getThreads], [getMessages]);
    - the tool registry loader ([getMCPServerConfigs], [createMCPClient],
      [getMCPTools]);
    - the memory hydrator ([messageResponseToBaseMessage],
      [hydrateMemoryFromHistory], [getHistory]);
    - the streaming service (the [inputs] of [streamResponse],
      [processAIMessage]).

    Conventions of the model.  JavaScript values that the code inspects at
    run time are values of [Js.Value]; values the code only passes along
    keep the type their TypeScript declaration gives them.  A computation
    that may throw returns a [Result], and [try]/[catch] is written out.
    A string is held as the code units of its UTF-8 encoding: trimming
    knows every white-space character, and lower-casing changes the ASCII
    letters, as the host's does on a string of ASCII characters.  Numbers
    are integers, printed as the host prints the safe integers.  What lies
    outside the repository is a parameter: the host's [JSON.parse], the
    object store, the tool-server SDK, the clock; the checkpoint saver is a
    class, with LangGraph's in-memory saver as an instance. *)

From Stdlib Require Import ZArith NArith String Ascii List Bool Lia DecimalString.
From stdpp Require Import base option list gmap strings fin_maps.

Local Open Scope string_scope.
Local Open Scope list_scope.

(** ** Results of computations that may throw *)

Inductive JsError : Type :=
| TypeError (what : string)
| SyntaxError (what : string)
| HostError (what : string).

Inductive Result (A : Type) : Type :=
| Ok (a : A)
| Throw (e : JsError).

Arguments Ok {A} a.
Arguments Throw {A} e.

#[global] Instance result_ret : MRet Result := fun A a => Ok a.

#[global] Instance result_bind : MBind Result := fun A B k r =>
  match r with
  | Ok a => k a
  | Throw e => Throw e
  end.

(** [xs.map(f)] for an [f] that may throw: the first exception aborts the map. *)
Fixpoint result_map {A B} (f : A -> Result B) (xs : list A) : Result (list B) :=
  match xs with
  | [] => Ok []
  | x :: rest =>
      y ← f x;
      ys ← result_map f rest;
      Ok (y :: ys)
  end.

(** [try { return body } catch (error) { return fallback }] *)
Definition try_return {A} (body : Result A) (fallback : A) : A :=
  match body with
  | Ok a => a
  | Throw _ => fallback
  end.

(** ** JavaScript values *)

Module Js.

(** Numbers are restricted to integers; a string is the sequence of the code
    units of its UTF-8 encoding. *)
#[warnings="-register-all"] Inductive Value : Type :=
| VUndefined
| VNull
| VBool (b : bool)
| VNum (n : Z)
| VStr (s : string)
| VArr (items : list Value)
| VObj (fields : list (string * Value)).

(** [Record<string, unknown>] *)
Definition Dict : Type := list (string * Value).

(** ToBoolean *)
Definition truthy (v : Value) : bool :=
  match v with
  | VUndefined | VNull => false
  | VBool b => b
  | VNum n => negb (n =? 0)%Z
  | VStr s => negb (s =? "")
  | VArr _ | VObj _ => true
  end.

(** [typeof v === "object"] *)
Definition typeof_object (v : Value) : bool :=
  match v with
  | VNull | VArr _ | VObj _ => true
  | _ => false
  end.

Fixpoint lookup_field (k : string) (fs : list (string * Value)) : option Value :=
  match fs with
  | [] => None
  | (k', v) :: rest => if k' =? k then Some v else lookup_field k rest
  end.

(** [v.k]: reading a property of [null] or [undefined] throws; of the names
    read in this development none is defined on a primitive or an array. *)
Definition get (v : Value) (k : string) : Result Value :=
  match v with
  | VUndefined => Throw (TypeError ("Cannot read properties of undefined (reading '" +:+ k +:+ "')"))
  | VNull => Throw (TypeError ("Cannot read properties of null (reading '" +:+ k +:+ "')"))
  | VObj fs => Ok (default VUndefined (lookup_field k fs))
  | _ => Ok VUndefined
  end.

(** [v?.k] *)
Definition get_opt (v : Value) (k : string) : Value :=
  match v with
  | VObj fs => default VUndefined (lookup_field k fs)
  | _ => VUndefined
  end.

(** [k in v] for an object [v] and a name that [Object.prototype] lacks *)
Definition has_key (k : string) (v : Value) : bool :=
  match v with
  | VObj fs => bool_decide (is_Some (lookup_field k fs))
  | _ => false
  end.

(** [n.toString()] for a safe integer [n] *)
Definition dec (n : Z) : string := NilZero.string_of_int (Z.to_int n).

(** [xs.join(sep)] on strings *)
Definition join (sep : string) (xs : list string) : string := String.concat sep xs.

(** ToString, as [String(v)] and [Array.prototype.join] apply it *)
Fixpoint toStr (v : Value) : string :=
  match v with
  | VUndefined => "undefined"
  | VNull => "null"
  | VBool true => "true"
  | VBool false => "false"
  | VNum n => dec n
  | VStr s => s
  | VArr items =>
      join "," (List.map (fun x => match x with
                                   | VUndefined | VNull => ""
                                   | _ => toStr x
                                   end) items)
  | VObj _ => "[object Object]"
  end.

(** The element conversion of [Array.prototype.join] *)
Definition join_elem (v : Value) : string :=
  match v with
  | VUndefined | VNull => ""
  | _ => toStr v
  end.

Definition join_values (sep : string) (items : list Value) : string :=
  join sep (List.map join_elem items).

(** *** String helpers *)

Fixpoint chars (s : string) : list ascii :=
  match s with
  | EmptyString => []
  | String c rest => c :: chars rest
  end.

Fixpoint of_chars (cs : list ascii) : string :=
  match cs with
  | [] => EmptyString
  | c :: rest => String c (of_chars rest)
  end.

(** [s.split(sep)] for a one-character separator: never empty *)
Fixpoint split (sep : ascii) (s : string) : list string :=
  match s with
  | EmptyString => [EmptyString]
  | String c rest =>
      if Ascii.eqb c sep then EmptyString :: split sep rest
      else match split sep rest with
           | seg :: segs => String c seg :: segs
           | [] => [String c EmptyString]
           end
  end.

(** [xs.pop()]: the last element, [undefined] on an empty array *)
Definition pop (xs : list string) : option string := List.last (List.map Some xs) None.

Definition lower_char (c : ascii) : ascii :=
  let n := nat_of_ascii c in
  if (65 <=? n)%nat && (n <=? 90)%nat then ascii_of_nat (n + 32) else c.

(** [s.toLowerCase()] for a string of ASCII characters.  The host also folds
    letters outside the ASCII range, which this function leaves as they are. *)
Definition toLowerCase (s : string) : string := of_chars (List.map lower_char (chars s)).

(** Every character of the string is an ASCII character. *)
Definition is_ascii (s : string) : bool :=
  forallb (fun c => (nat_of_ascii c <? 128)%nat) (chars s).

(** The UTF-8 encoding of a code point of the basic plane *)
Definition utf8 (code_point : N) : list ascii :=
  if (code_point <? 128)%N then [ascii_of_N code_point]
  else if (code_point <? 2048)%N then
    [ascii_of_N (192 + code_point / 64); ascii_of_N (128 + code_point mod 64)]
  else
    [ascii_of_N (224 + code_point / 4096);
     ascii_of_N (128 + (code_point / 64) mod 64);
     ascii_of_N (128 + code_point mod 64)].

(** The code points that [String.prototype.trim] strips, the white space and
    the line terminators of the language: TAB, LF, VT, FF, CR, SPACE,
    U+00A0, U+1680, U+2000 to U+200A, U+2028, U+2029, U+202F, U+205F, U+3000
    and U+FEFF *)
Definition WHITE_SPACE : list N :=
  [9; 10; 11; 12; 13; 32; 160; 5760;
   8192; 8193; 8194; 8195; 8196; 8197; 8198; 8199; 8200; 8201; 8202;
   8232; 8233; 8239; 8287; 12288; 65279]%N.

(** The rest of [cs] after [prefix], when [cs] starts with it *)
Fixpoint starts_with (prefix cs : list ascii) : option (list ascii) :=
  match prefix, cs with
  | [], _ => Some cs
  | p :: prefix', c :: cs' => if Ascii.eqb p c then starts_with prefix' cs' else None
  | _ :: _, [] => None
  end.

(** [cs] without the one of the [encodings] it starts with, if any *)
Fixpoint strip (encodings : list (list ascii)) (cs : list ascii) : option (list ascii) :=
  match encodings with
  | [] => None
  | w :: others =>
      match starts_with w cs with
      | Some rest => Some rest
      | None => strip others cs
      end
  end.

(** Stripping for as long as [cs] starts with one of the [encodings] *)
Fixpoint strip_all (encodings : list (list ascii)) (fuel : nat) (cs : list ascii)
    : list ascii :=
  match fuel with
  | O => cs
  | S fuel' =>
      match strip encodings cs with
      | Some rest => strip_all encodings fuel' rest
      | None => cs
      end
  end.

Definition trimStart (s : string) : string :=
  of_chars (strip_all (List.map utf8 WHITE_SPACE) (length (chars s)) (chars s)).

(** From the end, the encodings are met back to front. *)
Definition trimEnd (s : string) : string :=
  of_chars (rev (strip_all (List.map (fun c => rev (utf8 c)) WHITE_SPACE)
                   (length (chars s)) (rev (chars s)))).

Definition trim (s : string) : string := trimEnd (trimStart s).

(** *** Numbers *)

(** The integers that a number holds exactly and that print digit by digit:
    those up to [Number.MAX_SAFE_INTEGER] in absolute value *)
Definition safe_integer (n : Z) : bool := (Z.abs n <=? 9007199254740991)%Z.

(** The values that [toStr] prints as the host does: every number in the
    value is a safe integer, and no object in it has a field [toString] or
    [valueOf] of its own. *)
Fixpoint safe (v : Value) : bool :=
  match v with
  | VNum n => safe_integer n
  | VArr items => forallb safe items
  | VObj fields =>
      forallb (fun '(k, x) => negb ((k =? "toString") || (k =? "valueOf")) && safe x) fields
  | _ => true
  end.

(** *** JSON.stringify *)

Definition hex_digit (n : nat) : ascii :=
  match n with
  | 0 => "0" | 1 => "1" | 2 => "2" | 3 => "3" | 4 => "4" | 5 => "5" | 6 => "6"
  | 7 => "7" | 8 => "8" | 9 => "9" | 10 => "a" | 11 => "b" | 12 => "c"
  | 13 => "d" | 14 => "e" | _ => "f"
  end%char.

Definition escape_char (c : ascii) : string :=
  let n := nat_of_ascii c in
  if (n =? 34)%nat then "\" +:+ String c EmptyString
  else if (n =? 92)%nat then "\\"
  else if (n =? 8)%nat then "\b"
  else if (n =? 9)%nat then "\t"
  else if (n =? 10)%nat then "\n"
  else if (n =? 12)%nat then "\f"
  else if (n =? 13)%nat then "\r"
  else if (n <? 32)%nat then
    "\u00" +:+ String (hex_digit (n / 16)) (String (hex_digit (n mod 16)) EmptyString)
  else String c EmptyString.

Definition dquote : string := String (ascii_of_nat 34) EmptyString.

Definition quote (s : string) : string :=
  dquote +:+ String.concat "" (List.map escape_char (chars s)) +:+ dquote.

(** Serialisation of a value in element position: [undefined] prints as
    [null] inside an array, and a field holding [undefined] is left out.
    Numbers print as [dec] prints them. *)
Fixpoint serialize (v : Value) : string :=
  match v with
  | VUndefined | VNull => "null"
  | VBool true => "true"
  | VBool false => "false"
  | VNum n => dec n
  | VStr s => quote s
  | VArr items => "[" +:+ join "," (List.map serialize items) +:+ "]"
  | VObj fields =>
      "{" +:+ join ","
        (List.flat_map (fun '(k, x) => match x with
                                       | VUndefined => []
                                       | _ => [quote k +:+ ":" +:+ serialize x]
                                       end) fields) +:+ "}"
  end.

(** [JSON.stringify(v)]: [undefined] at the top has no serialisation *)
Definition stringify (v : Value) : option string :=
  match v with
  | VUndefined => None
  | _ => Some (serialize v)
  end.

End Js.

(** ** Upload validation: [src/lib/storage/validation.ts] *)

Module Validation.

(** The fields of a browser [File] that the validation reads *)
Record File : Type := {
  file_name : string;
  file_type : string;
  file_size : N
}.

Definition OCTET_STREAM_ALLOWED_EXTENSIONS : list string := ["md"; "markdown"; "txt"].
Definition MAX_OCTET_STREAM_SIZE : N := 2 * 1024 * 1024.

Definition MAX_ATTACHMENTS : N := 3.

Record MimeEntry : Type := { ext : string; maxSize : N }.

Definition ALLOWED_MIME_TYPES : list (string * MimeEntry) :=
  [ ("image/png", {| ext := "png"; maxSize := 5 * 1024 * 1024 |});
    ("image/jpeg", {| ext := "jpg"; maxSize := 5 * 1024 * 1024 |});
    ("image/jpg", {| ext := "jpg"; maxSize := 5 * 1024 * 1024 |});
    ("application/pdf", {| ext := "pdf"; maxSize := 10 * 1024 * 1024 |});
    ("text/markdown", {| ext := "md"; maxSize := 2 * 1024 * 1024 |});
    ("text/plain", {| ext := "txt"; maxSize := 2 * 1024 * 1024 |}) ].

(** [ALLOWED_MIME_TYPES] is an object literal, so the [in] operator also
    answers true for the names it inherits from [Object.prototype]. *)
Definition OBJECT_PROTOTYPE_KEYS : list string :=
  [ "constructor"; "hasOwnProperty"; "isPrototypeOf"; "propertyIsEnumerable";
    "toLocaleString"; "toString"; "valueOf"; "__proto__";
    "__defineGetter__"; "__defineSetter__"; "__lookupGetter__"; "__lookupSetter__" ].

Record ValidationError : Type := { field : string; message : string }.

(** [xs.includes(x)] *)
Definition includes (x : string) (xs : list string) : bool :=
  existsb (String.eqb x) xs.

Fixpoint own_entry (t : string) (table : list (string * MimeEntry)) : option MimeEntry :=
  match table with
  | [] => None
  | (k, e) :: rest => if k =? t then Some e else own_entry t rest
  end.

(** [t in ALLOWED_MIME_TYPES] *)
Definition in_ALLOWED_MIME_TYPES (t : string) : bool :=
  bool_decide (is_Some (own_entry t ALLOWED_MIME_TYPES)) || includes t OBJECT_PROTOTYPE_KEYS.

(** [ALLOWED_MIME_TYPES[t].maxSize]: [undefined] on an inherited name *)
Definition maxSize_of (t : string) : option N :=
  maxSize <$> own_entry t ALLOWED_MIME_TYPES.

(** [name.split(".").pop()?.toLowerCase() || ""] *)
Definition lower_extension (name : string) : string :=
  default "" (Js.toLowerCase <$> Js.pop (Js.split "." name)).

Definition MB : N := 1024 * 1024.

Definition validateFile (file : File) : option ValidationError :=
  if file_type file =? "application/octet-stream" then
    let extension := lower_extension (file_name file) in
    if negb (includes extension OCTET_STREAM_ALLOWED_EXTENSIONS) then
      Some {| field := "type";
              message := "Files with type application/octet-stream must have extension: "
                         +:+ Js.join ", " OCTET_STREAM_ALLOWED_EXTENSIONS
                         +:+ ". Got: ." +:+ extension |}
    else if (MAX_OCTET_STREAM_SIZE <? file_size file)%N then
      Some {| field := "size";
              message := "File size exceeds maximum allowed size of "
                         +:+ Js.dec (Z.of_N (MAX_OCTET_STREAM_SIZE / MB))
                         +:+ "MB for text files" |}
    else None
  else if negb (in_ALLOWED_MIME_TYPES (file_type file)) then
    Some {| field := "type";
            message := "File type " +:+ file_type file
                       +:+ " is not allowed. Allowed types: "
                       +:+ Js.join ", " (List.map fst ALLOWED_MIME_TYPES) |}
  else
    match maxSize_of (file_type file) with
    | Some maxSize =>
        if (maxSize <? file_size file)%N then
          (* every table entry is a whole number of megabytes, so
             [toFixed(0)] prints the quotient *)
          Some {| field := "size";
                  message := "File size exceeds maximum allowed size of "
                             +:+ Js.dec (Z.of_N (maxSize / MB)) +:+ "MB" |}
        else None
    | None => None   (* [file.size > undefined] is false *)
    end.

(** "Currently a placeholder that returns true" *)
Definition isValidTextContent (buffer : list Byte.byte) : bool := true.

End Validation.

(** ** The upload endpoint: [src/app/api/upload/route.ts] with
       [src/lib/storage/upload.ts] *)

Module Upload.
Import Validation.

Record PutObject : Type := {
  Bucket : string;
  Key : string;
  Body : list Byte.byte;
  ContentType : string;
  ContentDisposition : option string
}.

(** The object store and the process environment of one request *)
Record Env : Type := {
  S3_ENDPOINT : option string;
  BUCKET_NAME : string;
  randomUUID : string;
  s3_send : PutObject -> Result unit;        (* [s3Client.send(command)] *)
  upload_done : PutObject -> Result unit     (* [new Upload(..).done()] *)
}.

Definition unreserved (c : ascii) : bool :=
  let n := nat_of_ascii c in
  ((65 <=? n)%nat && (n <=? 90)%nat) || ((97 <=? n)%nat && (n <=? 122)%nat)
  || ((48 <=? n)%nat && (n <=? 57)%nat)
  || existsb (Nat.eqb n) [45; 95; 46; 33; 126; 42; 39; 40; 41]%nat.

Definition upper_hex_digit (n : nat) : ascii :=
  match n with
  | 10 => "A" | 11 => "B" | 12 => "C" | 13 => "D" | 14 => "E" | 15 => "F"
  | _ => Js.hex_digit n
  end%char.

(** [encodeURIComponent] on a string of UTF-8 code units *)
Definition encodeURIComponent (s : string) : string :=
  String.concat ""
    (List.map (fun c =>
                 if unreserved c then String c EmptyString
                 else let n := nat_of_ascii c in
                      String "%" (String (upper_hex_digit (n / 16))
                                    (String (upper_hex_digit (n mod 16)) EmptyString)))
       (Js.chars s)).

Definition put_params (env : Env) (buffer : list Byte.byte) (key contentType : string)
    (originalFilename : string) : PutObject :=
  {| Bucket := BUCKET_NAME env;
     Key := key;
     Body := buffer;
     ContentType := contentType;
     ContentDisposition :=
       if originalFilename =? "" then None
       else Some ("attachment; filename=" +:+ Js.dquote
                  +:+ encodeURIComponent originalFilename +:+ Js.dquote) |}.

Definition public_url (env : Env) (key : string) : string :=
  default "" (S3_ENDPOINT env) +:+ "/" +:+ BUCKET_NAME env +:+ "/" +:+ key.

Definition uploadFile (env : Env) (buffer : list Byte.byte) (key contentType : string)
    (originalFilename : string) : Result string :=
  _ ← s3_send env (put_params env buffer key contentType originalFilename);
  Ok (public_url env key).

Definition uploadLargeFile (env : Env) (buffer : list Byte.byte) (key contentType : string)
    (originalFilename : string) : Result string :=
  _ ← upload_done env (put_params env buffer key contentType originalFilename);
  Ok (public_url env key).

(** The request as the handler sees it: [request.formData()] may throw, the
    [file] field may be missing, and reading the file's bytes may throw. *)
Record FormFile : Type := {
  meta : File;
  arrayBuffer : Result (list Byte.byte)
}.

Definition NextRequest : Type := Result (option FormFile).

Inductive Json : Type :=
| ErrorJson (error field : string)
| SuccessJson (url key name type : string) (size : N).

Record NextResponse : Type := { status : nat; json : Json }.

Definition error_message (e : JsError) : string :=
  match e with
  | TypeError m | SyntaxError m | HostError m => m
  end.

(** The body of the handler's [try] block *)
Definition POST_try (env : Env) (request : NextRequest) : Result NextResponse :=
  formData ← request;
  match formData with
  | None => Ok {| status := 400; json := ErrorJson "No file provided" "file" |}
  | Some upload =>
      let file := meta upload in
      match validateFile file with
      | Some validationError =>
          Ok {| status := 400;
                json := ErrorJson (message validationError) (field validationError) |}
      | None =>
          buffer ← arrayBuffer upload;
          if (file_type file =? "application/octet-stream")
             && includes (lower_extension (file_name file)) ["md"; "markdown"; "txt"]
             && negb (isValidTextContent buffer)
          then Ok {| status := 400;
                     json := ErrorJson "File appears to be binary, not text" "content" |}
          else
            let extension :=
              match Js.pop (Js.split "." (file_name file)) with
              | Some e => if e =? "" then "bin" else e
              | None => "bin"
              end in
            let key := randomUUID env +:+ "." +:+ extension in
            url ← (if (5 * 1024 * 1024 <? file_size file)%N
                   then uploadLargeFile env buffer key (file_type file) (file_name file)
                   else uploadFile env buffer key (file_type file) (file_name file));
            Ok {| status := 200;
                  json := SuccessJson url key (file_name file) (file_type file)
                            (file_size file) |}
      end
  end.

Definition POST (env : Env) (request : NextRequest) : NextResponse :=
  match POST_try env request with
  | Ok response => response
  | Throw error => {| status := 500; json := ErrorJson (error_message error) "server" |}
  end.

End Upload.

(** ** The client store: [src/lib/storage/localStorage.ts] *)

Module LocalStorage.

Definition THREADS_KEY : string := "stackpath_threads".
Definition MESSAGES_KEY_PREFIX : string := "stackpath_messages_".
Definition ACTIVE_THREAD_KEY : string := "stackpath_active_thread".

(** Where the code runs: on the server there is no [window]; in the browser
    [localStorage] maps keys to strings. *)
Inductive Host : Type :=
| NoWindow
| Window (localStorage : gmap string string).

Section Reads.
(** [JSON.parse]: the host's parser, which throws on text that is not JSON *)
Variable JSON_parse : string -> Result Js.Value.

(** [data ? JSON.parse(data) : []] for the [string | null] that [getItem]
    returns: the empty string is falsy. *)
Definition parse_or_empty (data : option string) : Result Js.Value :=
  match data with
  | Some text => if text =? "" then Ok (Js.VArr []) else JSON_parse text
  | None => Ok (Js.VArr [])
  end.

Definition getThreads (host : Host) : Js.Value :=
  match host with
  | NoWindow => Js.VArr []
  | Window localStorage =>
      try_return
        (let data := localStorage !! THREADS_KEY in
         parse_or_empty data)
        (Js.VArr [])
  end.

Definition getMessages (host : Host) (threadId : string) : Js.Value :=
  match host with
  | NoWindow => Js.VArr []
  | Window localStorage =>
      try_return
        (let data := localStorage !! (MESSAGES_KEY_PREFIX +:+ threadId) in
         parse_or_empty data)
        (Js.VArr [])
  end.
End Reads.

Definition getActiveThreadId (host : Host) : option string :=
  match host with
  | NoWindow => None
  | Window localStorage => localStorage !! ACTIVE_THREAD_KEY
  end.

End LocalStorage.

(** ** The tool registry loader: [src/lib/agent/mcp.ts] *)

Module Mcp.

Record StdioMCPServerConfig : Type := {
  command : Js.Value;
  args : option (list string);
  env : option Js.Value
}.

Record HttpMCPServerConfig : Type := {
  url : Js.Value;
  headers : option Js.Value
}.

(** The [transport] tag is the constructor. *)
Inductive MCPServerConfig : Type :=
| stdio (config : StdioMCPServerConfig)
| http (config : HttpMCPServerConfig).

(** [mcp-config.json] as the process finds it *)
Record ConfigFile : Type := {
  existsSync : bool;
  readFileSync : Result string
}.

Definition is_string (v : Js.Value) (s : string) : bool :=
  match v with Js.VStr x => x =? s | _ => false end.

Definition string_items (v : Js.Value) : option (list string) :=
  match v with
  | Js.VArr items =>
      Some (List.flat_map (fun arg => match arg with Js.VStr s => [s] | _ => [] end) items)
  | _ => None
  end.

(** [v && typeof v === "object" && v !== null] *)
Definition object_value (v : Js.Value) : option Js.Value :=
  if Js.truthy v && Js.typeof_object v then Some v else None.

(** [configs[name] = config]: the name is converted to a property key;
    assigning to [__proto__] of an object literal adds no key. *)
Definition assign (name : Js.Value) (config : MCPServerConfig)
    (configs : gmap string MCPServerConfig) : gmap string MCPServerConfig :=
  let key := Js.toStr name in
  if key =? "__proto__" then configs else <[key := config]> configs.

(** One iteration of [for (const server of config.servers)] *)
Definition load_server (configs : gmap string MCPServerConfig) (server : Js.Value)
    : Result (gmap string MCPServerConfig) :=
  enabled ← Js.get server "enabled";
  if negb (Js.truthy enabled) then Ok configs
  else
    type ← Js.get server "type";
    command ← Js.get server "command";
    if is_string type "stdio" && Js.truthy command then
      args ← Js.get server "args";
      env ← Js.get server "env";
      name ← Js.get server "name";
      Ok (assign name
            (stdio {| command := command;
                      args := string_items args;
                      env := object_value env |}) configs)
    else
      url ← Js.get server "url";
      if is_string type "http" && Js.truthy url then
        headers ← Js.get server "headers";
        name ← Js.get server "name";
        Ok (assign name (http {| url := url; headers := object_value headers |}) configs)
      else Ok configs.

Fixpoint load_servers (configs : gmap string MCPServerConfig) (servers : list Js.Value)
    : Result (gmap string MCPServerConfig) :=
  match servers with
  | [] => Ok configs
  | server :: rest =>
      configs' ← load_server configs server;
      load_servers configs' rest
  end.

Section Loader.
Variable JSON_parse : string -> Result Js.Value.

(** The body of the [try] block of [getMCPServerConfigs] *)
Definition getMCPServerConfigs_try (file : ConfigFile)
    : Result (gmap string MCPServerConfig) :=
  if negb (existsSync file) then Ok ∅
  else
    fileContent ← readFileSync file;
    config ← JSON_parse fileContent;
    servers ← Js.get config "servers";
    match servers with
    | Js.VArr items => load_servers ∅ items
    | _ => Ok ∅
    end.

Definition getMCPServerConfigs (file : ConfigFile) : gmap string MCPServerConfig :=
  try_return (getMCPServerConfigs_try file) ∅.

(** The MCP SDK: building a client validates the configuration and may
    throw; asking it for its tools may throw as well. *)
Context {Client Tool : Type}.
Variable MultiServerMCPClient : gmap string MCPServerConfig -> Result Client.
Variable getTools : Client -> Result (list Tool).

Definition createMCPClient (file : ConfigFile) : option Client :=
  let mcpServers := getMCPServerConfigs file in
  if (size mcpServers =? 0)%nat then None
  else match MultiServerMCPClient mcpServers with
       | Ok client => Some client
       | Throw _ => None
       end.

Definition getMCPTools (file : ConfigFile) : list Tool :=
  match createMCPClient file with
  | None => []
  | Some client =>
      match getTools client with
      | Ok tools => tools
      | Throw _ => []
      end
  end.
End Loader.

End Mcp.

(** ** Messages: [@/types/message] and the LangChain message classes *)

Module Message.

Record ToolCall : Type := {
  call_id : option string;
  call_name : string;
  call_args : Js.Dict
}.

Inductive MessageType : Type := human | ai | tool | error.

(** "content may be a plain string or a structured list of content items" *)
Inductive MessageContent : Type :=
| Text (s : string)
| Items (items : list Js.Value).

Record MessageData : Type := {
  id : string;
  content : MessageContent;
  tool_calls : option (list ToolCall);
  additional_kwargs : option Js.Dict;
  response_metadata : option Js.Dict
}.

(** A history item as it arrives from the client.  The declared type gives
    every item a [data] payload; an item decoded from the request may lack
    it, and reading [msg.data.content] then throws. *)
Record MessageResponse : Type := {
  type : MessageType;
  data : option MessageData
}.

(** The fields handed to the constructors of LangChain's message classes *)
Inductive BaseMessage : Type :=
| HumanMessage (content : string) (id : option string)
| AIMessage (content : string) (id : option string)
    (tool_calls : option (list ToolCall))
    (additional_kwargs response_metadata : option Js.Dict)
| ToolMessage (content : string) (tool_call_id : string).

Inductive Role : Type := HumanRole | AIRole | ToolRole.

Definition role (m : BaseMessage) : Role :=
  match m with
  | HumanMessage _ _ => HumanRole
  | AIMessage _ _ _ _ _ => AIRole
  | ToolMessage _ _ => ToolRole
  end.

Definition text (m : BaseMessage) : string :=
  match m with
  | HumanMessage c _ | AIMessage c _ _ _ _ | ToolMessage c _ => c
  end.

Definition message_tool_calls (m : BaseMessage) : option (list ToolCall) :=
  match m with
  | AIMessage _ _ calls _ _ => calls
  | _ => None
  end.

End Message.

(** ** The memory hydrator: [src/lib/agent/memory.ts] *)

Module Memory.
Import Message.

Record Checkpoint : Type := {
  v : Z;
  checkpoint_id : string;
  ts : string;
  channel_values_messages : option (list BaseMessage);   (* [None]: not an array *)
  channel_versions_messages : nat;
  versions_seen : Js.Dict
}.

Record CheckpointMetadata : Type := {
  source : string;
  step : Z;
  parents : Js.Dict
}.

(** What the function does to the world around it, in order *)
Inductive Event : Type :=
| SaverPut (thread_id : string) (checkpoint : Checkpoint) (metadata : CheckpointMetadata)
| SaverGet (thread_id : string)
| ConsoleLog (line : string)
| ConsoleError (line : string) (error : JsError).

(** A checkpoint store: [put] and [get] act on the store's state and may
    throw. *)
Class CheckpointSaver (St : Type) : Type := {
  saver_put : St -> string -> Checkpoint -> CheckpointMetadata -> Result unit * St;
  saver_get : St -> string -> Result (option Checkpoint)
}.

(** LangGraph's in-memory saver, seen through [put] and [get] with a thread
    id only.  The saver keeps every checkpoint it is given, by thread and by
    checkpoint id: [put] stores the checkpoint under its id, in the place of
    an earlier one of the same id, and [get] returns the checkpoint of the
    thread whose id sorts last.  The saver sorts ids with [localeCompare];
    [later] compares code units, the same order on ids that differ in
    decimal digits only.  The thread ids are those the saver accepts. *)
Definition MemorySaver : Type := gmap string (gmap string Checkpoint).

(** [a] sorts after [b]. *)
Definition later (a b : string) : bool :=
  match String.compare a b with
  | Gt => true
  | _ => false
  end.

(** The checkpoint whose id sorts last *)
Definition latest (checkpoints : gmap string Checkpoint) : option Checkpoint :=
  snd <$> foldr (fun entry best =>
                   match best with
                   | Some found => if later entry.1 found.1 then Some entry else Some found
                   | None => Some entry
                   end) None (map_to_list checkpoints).

#[global] Instance MemorySaver_saver : CheckpointSaver MemorySaver := {
  saver_put saver thread_id checkpoint _ :=
    (Ok (), <[thread_id := <[checkpoint_id checkpoint := checkpoint]>
                             (default ∅ (saver !! thread_id))]> saver);
  saver_get saver thread_id := Ok (saver !! thread_id ≫= latest)
}.

Definition createMemorySaver : MemorySaver := ∅.

(** *** Computations over a saver that log and may throw *)

Definition Eff (St A : Type) : Type := St -> list Event -> Result A * St * list Event.

#[global] Instance eff_ret {St} : MRet (Eff St) := fun A a saver events =>
  (Ok a, saver, events).

#[global] Instance eff_bind {St} : MBind (Eff St) := fun A B k m saver events =>
  match m saver events with
  | (Ok a, saver', events') => k a saver' events'
  | (Throw e, saver', events') => (Throw e, saver', events')
  end.

Definition lift {St A} (r : Result A) : Eff St A := fun saver events => (r, saver, events).

Definition emit {St} (event : Event) : Eff St unit := fun saver events =>
  (Ok (), saver, events ++ [event]).

(** [try { body } catch (error) { handler }] *)
Definition try_catch {St A} (body : Eff St A) (handler : JsError -> Eff St A) : Eff St A :=
  fun saver events =>
    match body saver events with
    | (Ok a, saver', events') => (Ok a, saver', events')
    | (Throw e, saver', events') => handler e saver' events'
    end.

(** [await saver.put({ configurable: { thread_id } }, checkpoint, metadata)] *)
Definition put {St : Type} `{CheckpointSaver St} (thread_id : string) (checkpoint : Checkpoint)
    (metadata : CheckpointMetadata) : Eff St unit :=
  fun saver events =>
    let '(r, saver') := saver_put saver thread_id checkpoint metadata in
    (r, saver', events ++ [SaverPut thread_id checkpoint metadata]).

(** [await saver.get({ configurable: { thread_id } })] *)
Definition get {St : Type} `{CheckpointSaver St} (thread_id : string) : Eff St (option Checkpoint) :=
  fun saver events => (saver_get saver thread_id, saver, events ++ [SaverGet thread_id]).

(** *** The conversion *)

Definition normalizeContent (content : MessageContent) : string :=
  match content with
  | Text s => s
  | Items items => Js.serialize (Js.VArr items)
  end.

(** [msg.data]: the payload, or the [TypeError] of reading a property of
    [undefined] *)
Definition payload (msg : MessageResponse) : Result MessageData :=
  match data msg with
  | Some d => Ok d
  | None => Throw (TypeError "Cannot read properties of undefined")
  end.

Definition messageResponseToBaseMessage (msg : MessageResponse) : Result BaseMessage :=
  match type msg with
  | human =>
      d ← payload msg;
      Ok (HumanMessage (normalizeContent (content d)) (Some (id d)))
  | ai =>
      aiData ← payload msg;
      Ok (AIMessage (normalizeContent (content aiData)) (Some (id aiData))
            (tool_calls aiData) (additional_kwargs aiData) (response_metadata aiData))
  | tool =>
      d ← payload msg;
      Ok (ToolMessage (normalizeContent (content d)) (id d))
  | error =>
      d ← payload msg;
      Ok (HumanMessage (normalizeContent (content d)) (Some (id d)))
  end.

(** *** Hydration *)

(** [Date.now()] and [new Date().toISOString()] at the time of the call *)
Record Clock : Type := { now : Z; now_iso : string }.

Section Hydrate.
Context {St : Type} `{CheckpointSaver St}.

(** The body of the [try] block *)
Definition hydrate_try (clock : Clock) (threadId : string)
    (history : list MessageResponse) : Eff St unit :=
  messages ← lift (result_map messageResponseToBaseMessage history);
  let checkpoint :=
    {| v := 1;
       checkpoint_id := "hydrated-" +:+ Js.dec (now clock);
       ts := now_iso clock;
       channel_values_messages := Some messages;
       channel_versions_messages := length messages;
       versions_seen := [] |} in
  _ ← put threadId checkpoint {| source := "update"; step := -1; parents := [] |};
  emit (ConsoleLog ("Hydrated " +:+ Js.dec (Z.of_nat (length messages))
                    +:+ " messages for thread " +:+ threadId)).

(** [history] is [None] when the caller passes none. *)
Definition hydrateMemoryFromHistory (clock : Clock) (threadId : string)
    (history : option (list MessageResponse)) : Eff St unit :=
  match history with
  | None | Some [] => mret ()
  | Some items =>
      try_catch (hydrate_try clock threadId items)
        (fun error => emit (ConsoleError "Failed to hydrate memory:" error))
  end.

Definition getHistory (threadId : string) : Eff St (list BaseMessage) :=
  try_catch
    (checkpoint ← get threadId;
     mret (match checkpoint with
           | Some c => default [] (channel_values_messages c)
           | None => []
           end))
    (fun error =>
       _ ← emit (ConsoleError "Failed to get history:" error);
       mret []).
End Hydrate.

(** The saver calls among the events of a run *)
Definition put_calls (events : list Event) : list Event :=
  List.filter (fun e => match e with SaverPut _ _ _ => true | _ => false end) events.

End Memory.

(** ** The streaming service: [src/services/agentService.ts] *)

Module AgentService.
Import Message.

Inductive AllowTool : Type := allow | deny.

Record MessageOptions : Type := {
  model : option string;
  tools : option (list string);
  allowTool : option AllowTool;
  approveAllTools : option bool
}.

(** The value a resumed turn hands to the interrupted node *)
Record Resume : Type := { action : string; resume_data : Js.Dict }.

Inductive Inputs : Type :=
| Command (resume : Resume)
| Messages (messages : list BaseMessage).

(** [new HumanMessage(userText)] *)
Definition fresh_human (userText : string) : BaseMessage := HumanMessage userText None.

(** The [inputs] of [streamResponse] *)
Definition inputs (userText : string) (opts : option MessageOptions) : Inputs :=
  match opts ≫= allowTool with
  | Some decision =>
      Command {| action := match decision with
                           | allow => "continue"
                           | deny => "update"
                           end;
                 resume_data := [] |}
  | None => Messages [fresh_human userText]
  end.

(** An assistant message of the graph's update stream, a
    [Record<string, unknown>]: [content] is inspected at run time, the other
    fields are cast to the types below. *)
Record GraphMessage : Type := {
  message_id : option string;
  message_content : Js.Value;
  message_calls : option (list ToolCall);
  message_kwargs : option Js.Dict;
  message_metadata : option Js.Dict
}.

(** [item && typeof item === "object" && "functionCall" in item] *)
Definition is_function_call (item : Js.Value) : bool :=
  Js.truthy item && Js.typeof_object item && Js.has_key "functionCall" item.

Definition hasToolCall (message : GraphMessage) : bool :=
  match message_content message with
  | Js.VArr items => existsb is_function_call items
  | _ => false
  end.

(** [(message.id as string) || Date.now().toString()] *)
Definition delta_id (now : Z) (message : GraphMessage) : string :=
  match message_id message with
  | Some i => if negb (i =? "") then i else Js.dec now
  | None => Js.dec now
  end.

(** [typeof c === "string" ? c : c?.text || ""] *)
Definition item_text (c : Js.Value) : Js.Value :=
  match c with
  | Js.VStr s => Js.VStr s
  | _ => let t := Js.get_opt c "text" in
         if Js.truthy t then t else Js.VStr ""
  end.

(** The text of a message that is not a tool call *)
Definition extract_text (content : Js.Value) : string :=
  match content with
  | Js.VStr s => s
  | Js.VArr items => Js.join_values "" (List.map item_text items)
  | Js.VUndefined | Js.VNull => ""          (* [String(content ?? "")] *)
  | other => Js.toStr other
  end.

Definition processAIMessage (now : Z) (message : GraphMessage) : option MessageResponse :=
  if hasToolCall message then
    Some {| type := ai;
            data := Some {| id := delta_id now message;
                            content := Text (match message_content message with
                                             | Js.VStr s => s
                                             | _ => ""
                                             end);
                            tool_calls := message_calls message;
                            additional_kwargs := message_kwargs message;
                            response_metadata := message_metadata message |} |}
  else
    let text := extract_text (message_content message) in
    if negb (Js.trim text =? "") then
      Some {| type := ai;
              data := Some {| id := delta_id now message;
                              content := Text text;
                              tool_calls := None;
                              additional_kwargs := None;
                              response_metadata := None |} |}
    else None.

End AgentService.

(** ** The approval gate of the agent graph *)

Module Builder.
Import Message AgentService.

Inductive Node : Type := agent | tool_approval | tools | END.

(** What a resumed gate adds to the message state *)
Inductive Update : Type :=
| Unmodified
| ModifiedToolCall (call : ToolCall)
| DenialToolResult (tool_call_id : option string).

Record Goto : Type := { goto : Node; update : Update }.

(** Modelled from the spec: [approveToolCall] of [src/lib/agent/builder.ts]
    is not among the sources.  Section 4.2: resumption carries "one of three
    actions - [continue] (proceed to [tools] unmodified), [update] (proceed
    to [tools] with a modified tool-call payload), [feedback] (skip
    execution, return a synthetic tool-result message expressing denial, and
    loop back to [agent])".  The repository's own notes give the same
    [switch (humanReview.action)].  Any other action resumes nothing. *)
Definition approveToolCall (pending : ToolCall) (humanReview : Resume) : option Goto :=
  if action humanReview =? "continue" then
    Some {| goto := tools; update := Unmodified |}
  else if action humanReview =? "update" then
    Some {| goto := tools;
            update := ModifiedToolCall {| call_id := call_id pending;
                                          call_name := call_name pending;
                                          call_args := resume_data humanReview |} |}
  else if action humanReview =? "feedback" then
    Some {| goto := agent; update := DenialToolResult (call_id pending) |}
  else None.

(** The pending tool runs exactly when the gate hands over to [tools]. *)
Definition executes_tool (step : option Goto) : bool :=
  match step with
  | Some {| goto := tools |} => true
  | _ => false
  end.

(** The feedback branch: back to [agent] with a denial tool-result *)
Definition records_denial (step : option Goto) : bool :=
  match step with
  | Some {| goto := agent; update := DenialToolResult _ |} => true
  | _ => false
  end.

(** Resuming an interrupted turn with the inputs [streamResponse] builds *)
Definition resume_turn (pending : ToolCall) (turn : Inputs) : option Goto :=
  match turn with
  | Command resume => approveToolCall pending resume
  | Messages _ => None
  end.

End Builder.

(** ** The specification's side of the statements

    Definitions that follow the words of the specification, to be compared
    with the code, and the sample data of the examples. *)

Module Spec.
Import Validation Message.

(** *** Uploads *)

(** The allow-list of the upload endpoint as the specification gives it:
    "[image/png], [image/jpeg], [image/jpg] <= 5MB; [application/pdf] <= 10MB;
    [text/markdown], [text/plain] <= 2MB; [application/octet-stream] accepted
    only for [.md/.markdown/.txt] extensions <= 2MB". *)
Definition max_size (file : File) : option N :=
  let t := file_type file in
  if (t =? "image/png") || (t =? "image/jpeg") || (t =? "image/jpg") then Some (5 * MB)%N
  else if t =? "application/pdf" then Some (10 * MB)%N
  else if (t =? "text/markdown") || (t =? "text/plain") then Some (2 * MB)%N
  else if (t =? "application/octet-stream")
          && includes (lower_extension (file_name file)) ["md"; "markdown"; "txt"]
       then Some (2 * MB)%N
  else None.

(** "a [.bin] file renamed to [notes.txt] with MIME [application/octet-stream]" *)
Definition notes_txt (size : N) : File :=
  {| file_name := "notes.txt"; file_type := "application/octet-stream"; file_size := size |}.

(** A store that accepts every object *)
Definition accepting_store : Upload.Env :=
  {| Upload.S3_ENDPOINT := Some "http://localhost:9000";
     Upload.BUCKET_NAME := "uploads";
     Upload.randomUUID := "3f2b8c1e-0000-4000-8000-000000000000";
     Upload.s3_send := fun _ => Ok ();
     Upload.upload_done := fun _ => Ok () |}.

(** Bytes that are no text: NUL, 0xFF, 0xFE *)
Definition binary_bytes : list Byte.byte := [Byte.x00; Byte.xff; Byte.xfe].

Definition binary_upload : Upload.NextRequest :=
  Ok (Some {| Upload.meta := notes_txt 3; Upload.arrayBuffer := Ok binary_bytes |}).

(** *** The client store and the tool configuration *)

(** "corrupt or missing records": the key is absent, or the stored text is
    one the host's parser rejects *)
Definition missing_or_corrupt (JSON_parse : string -> Result Js.Value)
    (stored : option string) : Prop :=
  stored = None \/ exists text e, stored = Some text /\ JSON_parse text = Throw e.

(** A tool configuration file with one enabled and one disabled server *)
Definition sample_servers : list Js.Value :=
  [ Js.VObj [ ("name", Js.VStr "context7"); ("enabled", Js.VBool true);
              ("type", Js.VStr "http"); ("url", Js.VStr "https://mcp.context7.ai");
              ("headers", Js.VObj []) ];
    Js.VObj [ ("name", Js.VStr "filesystem"); ("enabled", Js.VBool false);
              ("type", Js.VStr "stdio"); ("command", Js.VStr "npx");
              ("args", Js.VArr [Js.VStr "@modelcontextprotocol/server-filesystem"]) ] ].

Definition sample_config : Js.Value := Js.VObj [("servers", Js.VArr sample_servers)].

(** A parser for the examples: it reads the empty array and the text of
    [sample_config], and rejects everything else. *)
Definition sample_parse (text : string) : Result Js.Value :=
  if text =? "[]" then Ok (Js.VArr [])
  else if text =? Js.serialize sample_config then Ok sample_config
  else Throw (SyntaxError "Unexpected token").

Definition sample_config_file : Mcp.ConfigFile :=
  {| Mcp.existsSync := true; Mcp.readFileSync := Ok (Js.serialize sample_config) |}.

Definition absent_config_file : Mcp.ConfigFile :=
  {| Mcp.existsSync := false;
     Mcp.readFileSync := Throw (HostError "ENOENT: no such file or directory") |}.

(** A tool-server SDK that offers one tool per configured server *)
Definition sample_client (configs : gmap string Mcp.MCPServerConfig) : Result (list string) :=
  Ok (fst <$> map_to_list configs).

Definition sample_tools (client : list string) : Result (list string) := Ok client.

(** The servers the loop does not skip: those whose [enabled] flag is truthy
    (and the entries [null] and [undefined], on which the loop throws) *)
Definition not_disabled (server : Js.Value) : bool :=
  match server with
  | Js.VUndefined | Js.VNull => true
  | _ => Js.truthy (Js.get_opt server "enabled")
  end.

(** "absent, unreadable, or structurally invalid": the file does not exist,
    cannot be read, is not JSON, or has no [servers] array *)
Inductive unusable_config (JSON_parse : string -> Result Js.Value)
    (file : Mcp.ConfigFile) : Prop :=
| config_absent :
    Mcp.existsSync file = false -> unusable_config JSON_parse file
| config_unreadable (e : JsError) :
    Mcp.readFileSync file = Throw e -> unusable_config JSON_parse file
| config_not_json (text : string) (e : JsError) :
    Mcp.readFileSync file = Ok text -> JSON_parse text = Throw e ->
    unusable_config JSON_parse file
| config_without_servers (text : string) (config : Js.Value) :
    Mcp.readFileSync file = Ok text -> JSON_parse text = Ok config ->
    (forall items, Js.get config "servers" <> Ok (Js.VArr items)) ->
    unusable_config JSON_parse file.

(** *** Histories and checkpoints *)

(** "human -> user message, ai -> assistant message, tool -> tool-result
    message" *)
Definition role_of (t : MessageType) : option Role :=
  match t with
  | human => Some HumanRole
  | ai => Some AIRole
  | tool => Some ToolRole
  | error => None
  end.

(** "history of human/ai/tool messages with string content" *)
Definition plain_text_item (item : MessageResponse) : Prop :=
  is_Some (role_of (type item))
  /\ exists d s, data item = Some d /\ content d = Text s.

(** "roles and text content round-trip exactly" *)
Definition round_trips (item : MessageResponse) (message : BaseMessage) : Prop :=
  role_of (type item) = Some (role message)
  /\ exists d, data item = Some d /\ content d = Text (text message).

(** A history item without its [data] payload *)
Definition malformed_item : MessageResponse := {| type := human; data := None |}.

Definition sample_call : ToolCall :=
  {| call_id := Some "call_1"; call_name := "web_fetch";
     call_args := [("url", Js.VStr "https://example.org")] |}.

Definition sample_ai_data : MessageData :=
  {| id := "m2"; content := Text "";
     tool_calls := Some [sample_call];
     additional_kwargs := Some [("finish", Js.VStr "tool_calls")];
     response_metadata := Some [] |}.

Definition sample_ai_item : MessageResponse := {| type := ai; data := Some sample_ai_data |}.

Definition sample_history : list MessageResponse :=
  [ {| type := human;
       data := Some {| id := "m1"; content := Text "fetch the page";
                       tool_calls := None; additional_kwargs := None;
                       response_metadata := None |} |};
    sample_ai_item;
    {| type := tool;
       data := Some {| id := "call_1"; content := Text "<html>";
                       tool_calls := None; additional_kwargs := None;
                       response_metadata := None |} |} ].

Definition sample_clock : Memory.Clock :=
  {| Memory.now := 1793491200000; Memory.now_iso := "2026-11-01T00:00:00.000Z" |}.

(** A clock one millisecond behind [sample_clock] *)
Definition earlier_clock : Memory.Clock :=
  {| Memory.now := 1793491199999; Memory.now_iso := "2026-10-31T23:59:59.999Z" |}.

(** The saver stores a checkpoint of this id for the thread, and returns it
    as the thread's checkpoint on the next read. *)
Definition reads_back {St : Type} `{Memory.CheckpointSaver St} (saver : St)
    (threadId checkpointId : string) : Prop :=
  forall checkpoint metadata,
    Memory.checkpoint_id checkpoint = checkpointId ->
    exists saver',
      Memory.saver_put saver threadId checkpoint metadata = (Ok (), saver')
      /\ Memory.saver_get saver' threadId = Ok (Some checkpoint).

(** A memory saver that holds the checkpoint of a hydration of thread [T1]
    made at [sample_clock] *)
Definition hydrated_saver : Memory.MemorySaver :=
  (Memory.hydrateMemoryFromHistory sample_clock "T1" (Some sample_history)
     Memory.createMemorySaver []).1.2.

(** A history of one message *)
Definition short_history : list MessageResponse :=
  [ {| type := human;
       data := Some {| id := "m9"; content := Text "and now?";
                       tool_calls := None; additional_kwargs := None;
                       response_metadata := None |} |} ].

(** A checkpoint store whose [put] always fails *)
Inductive BrokenSaver : Type := broken.

#[global] Instance BrokenSaver_saver : Memory.CheckpointSaver BrokenSaver := {
  Memory.saver_put saver _ _ _ := (Throw (HostError "store unavailable"), saver);
  Memory.saver_get saver _ := Throw (HostError "store unavailable")
}.

(** *** Streamed messages *)

(** "joining the text fields of a content array": the text field of an
    item is the item itself when that is a string, the [text] of an object
    that has one, as [join] prints it, and nothing for any other item. *)
Definition text_field (c : Js.Value) : string :=
  match c with
  | Js.VStr s => s
  | Js.VObj fields =>
      match Js.lookup_field "text" fields with
      | Some t => if Js.truthy t then Js.toStr t else ""
      | None => ""
      end
  | _ => ""
  end.

Definition joined_text (items : list Js.Value) : string :=
  String.concat "" (List.map text_field items).

(** A reply in blocks: a string, a block without text, [null], and a text
    block *)
Definition reply_in_blocks : Js.Value :=
  Js.VArr [ Js.VStr "Hello";
            Js.VObj [("type", Js.VStr "image_url")];
            Js.VNull;
            Js.VObj [("type", Js.VStr "text"); ("text", Js.VStr ", world")] ].

(** A space, a no-break space (U+00A0) and a line separator (U+2028) *)
Definition white_text : string :=
  " " +:+ Js.of_chars (Js.utf8 160) +:+ Js.of_chars (Js.utf8 8232).

(** [cs] is a sequence of words of [encodings]. *)
Definition sequence_of (encodings : list (list ascii)) (cs : list ascii) : Prop :=
  exists words, Forall (fun w => In w encodings) words /\ cs = List.concat words.

(** Empty, or white space only: the string is a sequence of white-space
    characters. *)
Definition blank (s : string) : Prop :=
  sequence_of (List.map Js.utf8 Js.WHITE_SPACE) (Js.chars s).

(** No word is empty and none starts with another: a sequence of words can
    be read in one way only. *)
Definition unambiguous (encodings : list (list ascii)) : bool :=
  forallb (fun w =>
             match w with
             | [] => false
             | _ => forallb (fun w' => match Js.starts_with w w' with
                                       | Some (_ :: _) => false
                                       | _ => true
                                       end) encodings
             end) encodings.

End Spec.

(** ** More of the validation and of the client store *)

Module FileType.
Import Validation.

(** [xs[1]] of a split *)
Definition second (xs : list string) : option string := List.nth_error xs 1.

(** [getFileExtension]: [undefined] ([None]) when the name is one that
    [ALLOWED_MIME_TYPES] only inherits *)
Definition getFileExtension (mimeType : string) : option string :=
  if in_ALLOWED_MIME_TYPES mimeType then
    ext <$> own_entry mimeType ALLOWED_MIME_TYPES
  else
    Some (match second (Js.split "/" mimeType) with
          | Some segment => if segment =? "" then "bin" else segment
          | None => "bin"
          end).

(** The file with another size *)
Definition resized (file : File) (size : N) : File :=
  {| file_name := file_name file; file_type := file_type file; file_size := size |}.

End FileType.

Module Storage.
Import LocalStorage.

(** [a === b] between values of parsed documents and strings: primitives
    compare by value; two objects or arrays met here never are the same
    reference, every [getThreads] call parsing anew. *)
Definition strict_eq (a b : Js.Value) : bool :=
  match a, b with
  | Js.VUndefined, Js.VUndefined | Js.VNull, Js.VNull => true
  | Js.VBool x, Js.VBool y => Bool.eqb x y
  | Js.VNum x, Js.VNum y => (x =? y)%Z
  | Js.VStr x, Js.VStr y => x =? y
  | _, _ => false
  end.

(** The receiver of [.find], [.findIndex] and [.filter]: on anything but an
    array the call throws. *)
Definition as_array (v : Js.Value) : Result (list Js.Value) :=
  match v with
  | Js.VArr items => Ok items
  | Js.VNull | Js.VUndefined => Throw (TypeError "Cannot read properties of null")
  | _ => Throw (TypeError "is not a function")
  end.

(** [xs.find(p)], [xs.findIndex(p)] and [xs.filter(p)] for a callback that
    may throw *)
Fixpoint find (p : Js.Value -> Result bool) (xs : list Js.Value) : Result (option Js.Value) :=
  match xs with
  | [] => Ok None
  | x :: rest =>
      hit ← p x;
      if (hit : bool) then Ok (Some x) else find p rest
  end.

Fixpoint findIndex (p : Js.Value -> Result bool) (xs : list Js.Value) : Result (option nat) :=
  match xs with
  | [] => Ok None
  | x :: rest =>
      hit ← p x;
      if (hit : bool) then Ok (Some 0%nat)
      else i ← findIndex p rest; Ok (option_map S i)
  end.

Fixpoint filter (p : Js.Value -> Result bool) (xs : list Js.Value) : Result (list Js.Value) :=
  match xs with
  | [] => Ok []
  | x :: rest =>
      keep ← p x;
      kept ← filter p rest;
      Ok (if (keep : bool) then x :: kept else kept)
  end.

(** [{ ...o, k: v }] on the fields of [o]: an existing [k] keeps its place *)
Fixpoint set_field (k : string) (v : Js.Value) (fields : list (string * Js.Value))
    : list (string * Js.Value) :=
  match fields with
  | [] => [(k, v)]
  | (k', v') :: rest =>
      if k' =? k then (k, v) :: rest else (k', v') :: set_field k v rest
  end.

(** The own enumerable properties that [{ ...thread }] copies.  A thread is
    an object; spreading a primitive copies nothing. *)
Definition spread (v : Js.Value) : list (string * Js.Value) :=
  match v with
  | Js.VObj fields => fields
  | Js.VArr items =>
      List.combine (List.map (fun i => Js.dec (Z.of_nat i)) (List.seq 0 (length items))) items
  | _ => []
  end.

Record Thread : Type := {
  thread_id : string;
  title : string;
  createdAt : string;
  updatedAt : string
}.

Definition thread_value (t : Thread) : Js.Value :=
  Js.VObj [ ("id", Js.VStr (thread_id t)); ("title", Js.VStr (title t));
            ("createdAt", Js.VStr (createdAt t)); ("updatedAt", Js.VStr (updatedAt t)) ].

Section Writes.
Variable JSON_parse : string -> Result Js.Value.

(** Whether the browser accepts a write; when it does not,
    [localStorage.setItem] throws [QuotaExceededError]. *)
Variable quota : gmap string string -> string -> string -> bool.

Definition setItem (localStorage : gmap string string) (key value : string)
    : Result (gmap string string) :=
  if quota localStorage key value then Ok (<[key := value]> localStorage)
  else Throw (HostError "QuotaExceededError").

(** [setActiveThreadId]: it has no [try] of its own, so that a refused
    write throws to the caller, the storage being left as it was.
    [removeItem] does not throw. *)
Definition setActiveThreadId (host : Host) (threadId : option string) : Result Host :=
  match host with
  | NoWindow => Ok NoWindow
  | Window localStorage =>
      match threadId with
      | Some t =>
          if negb (t =? "") then
            stored ← setItem localStorage ACTIVE_THREAD_KEY t;
            Ok (Window stored)
          else Ok (Window (delete ACTIVE_THREAD_KEY localStorage))
      | None => Ok (Window (delete ACTIVE_THREAD_KEY localStorage))
      end
  end.

(** [t.id === threadId] *)
Definition has_id (threadId : Js.Value) (t : Js.Value) : Result bool :=
  id ← Js.get t "id";
  Ok (strict_eq id threadId).

(** [getThread]: it has no [try] of its own. *)
Definition getThread (host : Host) (threadId : string) : Result Js.Value :=
  threads ← as_array (getThreads JSON_parse host);
  found ← find (has_id (Js.VStr threadId)) threads;
  Ok (match found with
      | Some t => if Js.truthy t then t else Js.VNull
      | None => Js.VNull
      end).

(** The body of the [try] block of [saveThread]; [nowISO] is
    [new Date().toISOString()]. *)
Definition saveThread_try (nowISO : string) (localStorage : gmap string string)
    (thread : Js.Value) : Result (gmap string string) :=
  threads ← as_array (getThreads JSON_parse (Window localStorage));
  index ← findIndex (fun t => id ← Js.get t "id";
                              mine ← Js.get thread "id";
                              Ok (strict_eq id mine)) threads;
  let updatedThread := Js.VObj (set_field "updatedAt" (Js.VStr nowISO) (spread thread)) in
  let threads' := match index with
                  | Some i => <[i := updatedThread]> threads
                  | None => updatedThread :: threads
                  end in
  setItem localStorage THREADS_KEY (Js.serialize (Js.VArr threads')).

Definition saveThread (nowISO : string) (host : Host) (thread : Js.Value) : Host :=
  match host with
  | NoWindow => NoWindow
  | Window localStorage =>
      Window (try_return (saveThread_try nowISO localStorage thread) localStorage)
  end.

(** The body of the [try] block of [deleteThread] *)
Definition deleteThread_try (localStorage : gmap string string) (threadId : string)
    : Result (gmap string string) :=
  all ← as_array (getThreads JSON_parse (Window localStorage));
  threads ← filter (fun t => same ← has_id (Js.VStr threadId) t; Ok (negb same)) all;
  stored ← setItem localStorage THREADS_KEY (Js.serialize (Js.VArr threads));
  Ok (delete (MESSAGES_KEY_PREFIX +:+ threadId) stored).

Definition deleteThread (host : Host) (threadId : string) : Host :=
  match host with
  | NoWindow => NoWindow
  | Window localStorage =>
      Window (try_return (deleteThread_try localStorage threadId) localStorage)
  end.

(** [saveMessages]: the messages are written first; the thread's timestamp
    is refreshed afterwards, and a failure there leaves the messages stored. *)
Definition saveMessages (nowISO : string) (host : Host) (threadId : string)
    (messages : list Js.Value) : Host :=
  match host with
  | NoWindow => NoWindow
  | Window localStorage =>
      match setItem localStorage (MESSAGES_KEY_PREFIX +:+ threadId)
              (Js.serialize (Js.VArr messages)) with
      | Throw _ => Window localStorage
      | Ok stored =>
          match getThread (Window stored) threadId with
          | Throw _ => Window stored
          | Ok thread =>
              if Js.truthy thread then saveThread nowISO (Window stored) thread
              else Window stored
          end
      end
  end.
End Writes.

(** [clearAllData]: every key that starts with [stackpath_] is removed. *)
Definition clearAllData (host : Host) : Host :=
  match host with
  | NoWindow => NoWindow
  | Window localStorage =>
      Window (base.filter (fun kv : string * string =>
                             String.prefix "stackpath_" kv.1 = false) localStorage)
  end.

End Storage.

(** ** Building the agent: [src/lib/agent/index.ts] *)

Module Agent.
Import Message Memory.

(** [value || fallback] for an optional string: the empty string is falsy. *)
Definition or_default (value : option string) (fallback : string) : string :=
  match value with
  | Some s => if s =? "" then fallback else s
  | None => fallback
  end.

Section Create.
Context {LLM Tool Graph Client : Type}.

(** What the modules missing from the sources provide: the defaults and
    [createChatModel] of [./util], the prompt of [./prompt], and
    [new AgentBuilder(options).build()] of [./builder]. *)
Variable DEFAULT_MODEL_PROVIDER DEFAULT_MODEL_NAME SYSTEM_PROMPT : string.
Variable createChatModel : string -> string -> Z -> Result LLM.
Variable build : LLM -> list Tool -> string -> MemorySaver -> bool -> Result Graph.

(** The tool registry: the configuration file and the tool-server SDK *)
Variable JSON_parse : string -> Result Js.Value.
Variable MultiServerMCPClient : gmap string Mcp.MCPServerConfig -> Result Client.
Variable getTools : Client -> Result (list Tool).

Record AgentConfigOptions : Type := {
  cfg_provider : option string;
  cfg_model : option string;
  cfg_tools : option (list Tool);
  cfg_systemPrompt : option string;
  cfg_approveAllTools : option bool
}.

(** The options handed to [AgentBuilder] *)
Record AgentBuilderOptions : Type := {
  llm : LLM;
  tools : list Tool;
  prompt : string;
  checkpointer : MemorySaver;
  approveAllTools : bool
}.

(** [threadId && history && history.length > 0] *)
Definition shall_hydrate (threadId : option string)
    (history : option (list MessageResponse)) : bool :=
  match threadId, history with
  | Some t, Some (_ :: _) => negb (t =? "")
  | _, _ => false
  end.

(** [createAgent] up to the options it builds the graph from *)
Definition agent_options (clock : Clock) (file : Mcp.ConfigFile)
    (cfg : option AgentConfigOptions) (threadId : option string)
    (history : option (list MessageResponse)) : Result AgentBuilderOptions :=
  let provider := or_default (cfg ≫= cfg_provider) DEFAULT_MODEL_PROVIDER in
  let modelName := or_default (cfg ≫= cfg_model) DEFAULT_MODEL_NAME in
  llm ← createChatModel provider modelName 1;
  let mcpTools := Mcp.getMCPTools JSON_parse MultiServerMCPClient getTools file in
  let configTools := default [] (cfg ≫= cfg_tools) in
  let allTools := configTools ++ mcpTools in
  let memorySaver := createMemorySaver in
  let hydration :=
    if shall_hydrate threadId history
    then hydrateMemoryFromHistory clock (default "" threadId) history memorySaver []
    else (Ok (), memorySaver, []) in
  _ ← hydration.1.1;
  Ok {| llm := llm;
        tools := allTools;
        prompt := or_default (cfg ≫= cfg_systemPrompt) SYSTEM_PROMPT;
        checkpointer := hydration.1.2;
        approveAllTools := default false (cfg ≫= cfg_approveAllTools) |}.

Definition createAgent (clock : Clock) (file : Mcp.ConfigFile)
    (cfg : option AgentConfigOptions) (threadId : option string)
    (history : option (list MessageResponse)) : Result Graph :=
  options ← agent_options clock file cfg threadId history;
  build (llm options) (tools options) (prompt options) (checkpointer options)
    (approveAllTools options).

Definition ensureAgent := createAgent.

Definition getAgent := ensureAgent.
End Create.

End Agent.

(** ** The stream of one turn: [streamResponse] and its generator *)

Module Stream.
Import Message AgentService.

(** A value of the graph's update stream.  Plain data is a [Js.Value]; a
    message is an instance of one of LangChain's classes, known by the name
    of its constructor.  Plain data carries no property [constructor] of its
    own, and a message instance none named [agent] or [messages]. *)
#[warnings="-register-all"] Inductive Dyn : Type :=
| Plain (v : Js.Value)
| Instance (constructor_name : string) (message : GraphMessage)
| Arr (items : list Dyn)
| Obj (fields : list (string * Dyn)).

Definition dyn_truthy (d : Dyn) : bool :=
  match d with
  | Plain v => Js.truthy v
  | _ => true
  end.

(** [Array.isArray(d)], with the elements *)
Definition as_items (d : Dyn) : option (list Dyn) :=
  match d with
  | Arr items => Some items
  | Plain (Js.VArr items) => Some (List.map Plain items)
  | _ => None
  end.

(** [d && typeof d === "object" && !Array.isArray(d)], with the fields *)
Definition as_object (d : Dyn) : option (list (string * Dyn)) :=
  match d with
  | Obj fields => Some fields
  | Plain (Js.VObj fields) => Some (List.map (fun '(k, v) => (k, Plain v)) fields)
  | Instance _ _ => Some []
  | _ => None
  end.

(** [k in o], with [o[k]] *)
Fixpoint field (k : string) (fields : list (string * Dyn)) : option Dyn :=
  match fields with
  | [] => None
  | (k', d) :: rest => if k' =? k then Some d else field k rest
  end.

(** [chunkType === "updates"] *)
Definition is_updates (d : Dyn) : bool :=
  match d with
  | Plain (Js.VStr s) => s =? "updates"
  | _ => false
  end.

(** The messages the generator loops over for one chunk *)
Definition chunk_messages (chunk : Dyn) : list Dyn :=
  if negb (dyn_truthy chunk) then []
  else
    match as_items chunk with
    | Some [chunkType; chunkData] =>
        if is_updates chunkType then
          match as_object chunkData with
          | Some data =>
              match field "agent" data with
              | Some agent =>
                  if dyn_truthy agent then
                    match as_object agent with
                    | Some update =>
                        match field "messages" update with
                        | Some messages =>
                            match as_items messages with
                            | Some items => items
                            | None => [messages]
                            end
                        | None => []
                        end
                    | None => []
                    end
                  else []
              | None => []
              end
          | None => []
          end
        else []
    | _ => []
    end.

(** [message?.constructor?.name === "AIMessageChunk" || ... === "AIMessage"] *)
Definition isAIMessage (message : Dyn) : option GraphMessage :=
  match message with
  | Instance name m =>
      if (name =? "AIMessageChunk") || (name =? "AIMessage") then Some m else None
  | _ => None
  end.

(** The assistant messages that reach [processAIMessage], in order *)
Definition ai_messages (chunks : list Dyn) : list GraphMessage :=
  List.flat_map (fun chunk => omap isAIMessage (chunk_messages chunk)) chunks.

(** What the generator yields: [clock n] is [Date.now()] at the [n]-th call
    of [processAIMessage]. *)
Definition generator (clock : nat -> Z) (chunks : list Dyn) : list MessageResponse :=
  omap (fun delta => delta) (imap (fun n message => processAIMessage (clock n) message) (ai_messages chunks)).

(** The iterable of [agent.stream]: its chunks, and the error it ends with
    when the model or a tool throws *)
Record Iterable : Type := { chunks : list Dyn; failure : option JsError }.

Section StreamResponse.
Context {Tool Graph : Type}.

(** [ensureAgent] of [@/lib/agent], the graph's [stream], and the cast of
    [opts.tools] to tools *)
Variable ensureAgent :
  option (@Agent.AgentConfigOptions Tool) -> option string ->
  option (list MessageResponse) -> Result Graph.
Variable stream : Graph -> Inputs -> string -> Result Iterable.
Variable as_tool : string -> Tool.

(** [streamResponse]: the deltas the returned generator yields, and the
    error it ends with *)
Definition streamResponse (clock : nat -> Z) (threadId userText : string)
    (history : list MessageResponse) (opts : option MessageOptions)
    : Result (list MessageResponse * option JsError) :=
  let turn := inputs userText opts in
  agent ← ensureAgent
            (Some {| Agent.cfg_provider := None;
                     Agent.cfg_model := opts ≫= model;
                     Agent.cfg_tools := List.map as_tool <$> (opts ≫= tools);
                     Agent.cfg_systemPrompt := None;
                     Agent.cfg_approveAllTools := opts ≫= AgentService.approveAllTools |})
            (Some threadId) (Some history);
  iterable ← stream agent turn threadId;
  Ok (generator clock (chunks iterable), failure iterable).
End StreamResponse.

End Stream.

(** ** Attachments: [src/lib/storage/upload.ts] (download),
    [src/lib/storage/file-processing.ts] and [src/components/HumanMessage.tsx] *)

Module Attachments.
Import Validation.

Record FileAttachment : Type := {
  url : string;
  key : string;
  name : string;
  type : string;
  size : N
}.

(** A content item of a human message:
    [{ type, image_url?: { url }, text?, file_metadata? }] *)
Record ContentItem : Type := {
  item_type : string;
  image_url : option string;
  text : option string;
  file_metadata : option FileAttachment
}.

(** The body of a [GetObject] response: the chunks of the stream, and the
    error the stream ends with if reading fails *)
Record Body : Type := { body_chunks : list (list Byte.byte); body_failure : option JsError }.

Section Download.
(** [s3Client.send(new GetObjectCommand({ Bucket, Key }))]: throws, or
    answers with or without a body *)
Variable send_get : string -> string -> Result (option Body).
Variable BUCKET_NAME : string.
(** [buffer.toString("base64")] and [buffer.toString("utf-8")] *)
Variable base64 utf8 : list Byte.byte -> string.
(** [String.prototype.toLowerCase], the host's *)
Variable toLowerCase : string -> string.

(** [new Error(message)] *)
Definition Error (message : string) : JsError := HostError message.

Definition getFile (key : string) : Result (list Byte.byte) :=
  response ← send_get BUCKET_NAME key;
  match response with
  | None => Throw (Error "File not found")
  | Some body =>
      match body_failure body with
      | Some e => Throw e
      | None => Ok (List.concat (body_chunks body))
      end
  end.

Definition downloadFileAsBase64 (key : string) : Result string :=
  buffer ← getFile key;
  Ok (base64 buffer).

Definition getFileDataUrl (attachment : FileAttachment) : Result string :=
  encoded ← downloadFileAsBase64 (key attachment);
  Ok ("data:" +:+ type attachment +:+ ";base64," +:+ encoded).

Definition extractTextContent (key : string) : Result string :=
  buffer ← getFile key;
  Ok (utf8 buffer).

Definition preparePdfForAI (attachment : FileAttachment) : Result string :=
  encoded ← downloadFileAsBase64 (key attachment);
  Ok ("data:application/pdf;base64," +:+ encoded).

Definition newline : string := String (ascii_of_nat 10) EmptyString.

(** The body of the [try] block for one attachment: the item pushed, if any *)
Definition process_attachment (attachment : FileAttachment) : Result (option ContentItem) :=
  let extension :=
    default "" (toLowerCase <$> Js.pop (Js.split "." (name attachment))) in
  if String.prefix "image/" (type attachment) then
    dataUrl ← getFileDataUrl attachment;
    Ok (Some {| item_type := "image_url";
                image_url := Some dataUrl;
                text := None;
                file_metadata := Some attachment |})
  else if type attachment =? "application/pdf" then
    dataUrl ← preparePdfForAI attachment;
    Ok (Some {| item_type := "image_url";
                image_url := Some dataUrl;
                text := None;
                file_metadata := Some attachment |})
  else if String.prefix "text/" (type attachment)
          || ((type attachment =? "application/octet-stream")
              && includes extension ["md"; "markdown"; "txt"]) then
    textContent ← extractTextContent (key attachment);
    Ok (Some {| item_type := "text";
                image_url := None;
                text := Some (newline +:+ newline +:+ "[Content of " +:+ name attachment
                              +:+ "]:" +:+ newline +:+ textContent);
                file_metadata := Some attachment |})
  else Ok None.

Fixpoint processAttachmentsForAI (attachments : list FileAttachment)
    : Result (list ContentItem) :=
  match attachments with
  | [] => Ok []
  | attachment :: rest =>
      match process_attachment attachment with
      | Throw _ => Throw (Error ("Failed to process attachment " +:+ name attachment))
      | Ok item =>
          contentItems ← processAttachmentsForAI rest;
          Ok (option_list item ++ contentItems)
      end
  end.
End Download.

(** The filter of [HumanMessage]: images and documents with [image_url],
    text files with [file_metadata] *)
Definition shows_attachment (item : ContentItem) : bool :=
  ((item_type item =? "image_url") && bool_decide (is_Some (image_url item)))
  || ((item_type item =? "text") && bool_decide (is_Some (file_metadata item))).

(** [contentAttachments] of [HumanMessage]: filter, map to the metadata,
    drop the [null]s *)
Definition contentAttachments (content : list ContentItem) : list FileAttachment :=
  omap file_metadata (List.filter shows_attachment content).

(** The attachments [HumanMessage] displays: those of the message data, then
    those of the content when it is an array *)
Definition displayed (attachments : option (list FileAttachment))
    (content : option (list ContentItem)) : list FileAttachment :=
  default [] attachments ++ match content with
                            | Some items => contentAttachments items
                            | None => []
                            end.

(** The attachments [processAttachmentsForAI] has a branch for: images,
    PDF documents, text files, and files of type [application/octet-stream]
    whose name ends, in lower case, in [md], [markdown] or [txt] *)
Definition supported (toLowerCase : string -> string) (attachment : FileAttachment)
    : bool :=
  String.prefix "image/" (type attachment)
  || (type attachment =? "application/pdf")
  || String.prefix "text/" (type attachment)
  || ((type attachment =? "application/octet-stream")
      && includes (default "" (toLowerCase <$> Js.pop (Js.split "." (name attachment))))
           OCTET_STREAM_ALLOWED_EXTENSIONS).

End Attachments.

(** ** What the extra properties are stated with *)

Module Expect.
Import LocalStorage Storage.

(** The storage behind a host *)
Definition storage_of (host : Host) : gmap string string :=
  match host with
  | NoWindow => ∅
  | Window localStorage => localStorage
  end.

(** No entry is [null] or [undefined]: reading [t.id] does not throw. *)
Definition readable (t : Js.Value) : bool :=
  match t with
  | Js.VNull | Js.VUndefined => false
  | _ => true
  end.

(** The entry's [id] is the string [i]. *)
Definition id_is (i : string) (t : Js.Value) : bool :=
  strict_eq (Js.get_opt t "id") (Js.VStr i).

(** The first entry with id [i] replaced by [u], or [u] put in front when
    there is none *)
Fixpoint replace_first (i : string) (u : Js.Value) (ts : list Js.Value)
    : option (list Js.Value) :=
  match ts with
  | [] => None
  | t :: rest =>
      if id_is i t then Some (u :: rest)
      else option_map (cons t) (replace_first i u rest)
  end.

Definition upsert (i : string) (u : Js.Value) (ts : list Js.Value) : list Js.Value :=
  default (u :: ts) (replace_first i u ts).

(** The entry that an enabled server of the configuration file yields, if
    it is a well-formed [stdio] or [http] server *)
Definition entry_of (server : Js.Value) : option Mcp.MCPServerConfig :=
  if Mcp.is_string (Js.get_opt server "type") "stdio"
     && Js.truthy (Js.get_opt server "command")
  then Some (Mcp.stdio {| Mcp.command := Js.get_opt server "command";
                          Mcp.args := Mcp.string_items (Js.get_opt server "args");
                          Mcp.env := Mcp.object_value (Js.get_opt server "env") |})
  else if Mcp.is_string (Js.get_opt server "type") "http"
          && Js.truthy (Js.get_opt server "url")
  then Some (Mcp.http {| Mcp.url := Js.get_opt server "url";
                         Mcp.headers := Mcp.object_value (Js.get_opt server "headers") |})
  else None.

(** The name under which a server is recorded *)
Definition key_of (server : Js.Value) : string := Js.toStr (Js.get_opt server "name").

(** A parser for the examples: it reads back the serialisation of each of
    the [known] documents and rejects every other text. *)
Definition parse_among (known : list Js.Value) (text : string) : Result Js.Value :=
  match List.find (fun v => Js.serialize v =? text) known with
  | Some v => Ok v
  | None => Throw (SyntaxError "Unexpected token")
  end.

Definition unlimited (_ : gmap string string) (_ _ : string) : bool := true.

(** A storage that takes no more writes *)
Definition exhausted (_ : gmap string string) (_ _ : string) : bool := false.

Definition sample_thread (i name : string) : Js.Value :=
  thread_value {| thread_id := i; title := name;
                  createdAt := "2026-10-01T08:00:00.000Z";
                  updatedAt := "2026-10-01T08:00:00.000Z" |}.

End Expect.

Module ExpectMemory.
Import Message Memory.

(** The outcome, the saver and the log of a run *)
Definition result_of {St A : Type} (run : Result A * St * list Event) : Result A := run.1.1.
Definition saver_of {St A : Type} (run : Result A * St * list Event) : St := run.1.2.

(** The class under which an item of each type is hydrated: the conversion
    falls through to [HumanMessage] for [error] items. *)
Definition hydrated_role (t : MessageType) : Role :=
  match t with
  | ai => AIRole
  | tool => ToolRole
  | human | error => HumanRole
  end.

(** The message is of the class of the item's type, and holds the item's
    content when that is a string. *)
Definition hydrated_as (item : MessageResponse) (message : BaseMessage) : Prop :=
  exists d, data item = Some d
            /\ role message = hydrated_role (type item)
            /\ forall s, content d = Text s -> text message = s.

(** A history with an [error] item and an item with structured content *)
Definition mixed_history : list MessageResponse :=
  [ {| type := human;
       data := Some {| id := "m1";
                       content := Items [Js.VObj [("type", Js.VStr "text");
                                                  ("text", Js.VStr "see the file")]];
                       tool_calls := None; additional_kwargs := None;
                       response_metadata := None |} |};
    {| type := error;
       data := Some {| id := "e1"; content := Text "Rate limit exceeded";
                       tool_calls := None; additional_kwargs := None;
                       response_metadata := None |} |} ].

End ExpectMemory.

Module ExpectStream.
Import Message AgentService Stream.

(** [["updates", { <node>: { messages } }]]: the update of one node *)
Definition node_update (node : string) (messages : Dyn) : Dyn :=
  Arr [Plain (Js.VStr "updates"); Obj [(node, Obj [("messages", messages)])]].

(** An assistant message that announces a tool call next to a text block *)
Definition calling_message : GraphMessage :=
  {| message_id := Some "run-1";
     message_content :=
       Js.VArr [ Js.VObj [("type", Js.VStr "text"); ("text", Js.VStr "Let me look that up.")];
                 Js.VObj [("functionCall",
                           Js.VObj [("name", Js.VStr "web_fetch"); ("args", Js.VObj [])])] ];
     message_calls := Some [ {| call_id := Some "call-1"; call_name := "web_fetch";
                                call_args := [] |} ];
     message_kwargs := None;
     message_metadata := None |}.

Definition answering_message : GraphMessage :=
  {| message_id := None;
     message_content := Js.VStr "Here is your roadmap.";
     message_calls := None;
     message_kwargs := None;
     message_metadata := None |}.

Definition tool_result : GraphMessage :=
  {| message_id := Some "tool-1";
     message_content := Js.VStr "fetched page";
     message_calls := None;
     message_kwargs := None;
     message_metadata := None |}.

(** The updates of one turn: the assistant calls a tool, the tool answers,
    the assistant answers. *)
Definition sample_turn : list Dyn :=
  [ node_update "agent" (Arr [Instance "AIMessageChunk" calling_message]);
    node_update "tools" (Arr [Instance "ToolMessage" tool_result]);
    node_update "agent" (Instance "AIMessage" answering_message) ].

(** The delta is an assistant delta whose content is a string. *)
Definition assistant_text_delta (delta : MessageResponse) : Prop :=
  type delta = ai /\ exists d s, data delta = Some d /\ content d = Text s.

End ExpectStream.

Module ExpectAttachments.
Import Attachments.

(** The attachment's file can be read from the bucket. *)
Definition downloadable (send_get : string -> string -> Result (option Body))
    (BUCKET_NAME : string) (attachment : FileAttachment) : Prop :=
  exists buffer, getFile send_get BUCKET_NAME (key attachment) = Ok buffer.

Definition diagram : FileAttachment :=
  {| url := "http://localhost:9000/uploads/a1.png"; key := "a1.png";
     name := "diagram.png"; type := "image/png"; size := 2048 |}.

Definition notes : FileAttachment :=
  {| url := "http://localhost:9000/uploads/a2.md"; key := "a2.md";
     name := "notes.MD"; type := "application/octet-stream"; size := 120 |}.

Definition archive : FileAttachment :=
  {| url := "http://localhost:9000/uploads/a3.zip"; key := "a3.zip";
     name := "archive.zip"; type := "application/zip"; size := 4096 |}.

(** A bucket that holds [a1.png] and [a2.md] and nothing else *)
Definition sample_bucket (bucket key : string) : Result (option Body) :=
  if (key =? "a1.png") || (key =? "a2.md")
  then Ok (Some {| body_chunks := [[Byte.x89; Byte.x50]; [Byte.x4e; Byte.x47]];
                   body_failure := None |})
  else Ok None.

Definition sample_encode (buffer : list Byte.byte) : string :=
  string_of_list_ascii (List.map ascii_of_byte buffer).

End ExpectAttachments.

(** * Properties *)

(** ** Upload validation *)

Section ValidationProperties.
Import Validation.

Lemma eqb_string_true (a b : string) : (a =? b) = true -> a = b.
Proof. apply String.eqb_eq. Qed.

Local Ltac listed_type E :=
  apply eqb_string_true in E; subst; cbn; intros [= <-]; right;
  split; [discriminate | split; reflexivity].

Lemma max_size_cases (file : File) (limit : N) :
  Spec.max_size file = Some limit ->
  (file_type file = "application/octet-stream"
   /\ includes (lower_extension (file_name file)) OCTET_STREAM_ALLOWED_EXTENSIONS = true
   /\ limit = MAX_OCTET_STREAM_SIZE)
  \/ (file_type file <> "application/octet-stream"
      /\ in_ALLOWED_MIME_TYPES (file_type file) = true
      /\ maxSize_of (file_type file) = Some limit).
Proof.
  destruct file as [name t size]; unfold Spec.max_size; cbn [file_type file_name].
  destruct (t =? "image/png") eqn:E1; [listed_type E1 |].
  destruct (t =? "image/jpeg") eqn:E2; [listed_type E2 |].
  destruct (t =? "image/jpg") eqn:E3; [listed_type E3 |].
  destruct (t =? "application/pdf") eqn:E4; [listed_type E4 |].
  destruct (t =? "text/markdown") eqn:E5; [listed_type E5 |].
  destruct (t =? "text/plain") eqn:E6; [listed_type E6 |].
  cbn [orb].
  destruct (t =? "application/octet-stream") eqn:E7; cbn [andb]; [| discriminate].
  apply eqb_string_true in E7; subst t.
  destruct (includes (lower_extension name) ["md"; "markdown"; "txt"]) eqn:Hext;
    [| discriminate].
  intros [= <-]. left. repeat split; assumption.
Qed.

Lemma validateFile_size_rule (file : File) (limit : N) :
  Spec.max_size file = Some limit ->
  validateFile file =
    if (limit <? file_size file)%N
    then Some {| field := "size";
                 message := if file_type file =? "application/octet-stream"
                            then "File size exceeds maximum allowed size of 2MB for text files"
                            else "File size exceeds maximum allowed size of "
                                 +:+ Js.dec (Z.of_N (limit / MB)) +:+ "MB" |}
    else None.
Proof.
  intros Hmax. apply max_size_cases in Hmax as [(Htype & Hext & ->) | (Htype & Hin & Hsize)];
    unfold validateFile.
  - rewrite Htype. cbn [String.eqb Ascii.eqb Bool.eqb]. cbv zeta. rewrite Hext. cbn [negb].
    destruct (MAX_OCTET_STREAM_SIZE <? file_size file)%N; reflexivity.
  - destruct (file_type file =? "application/octet-stream") eqn:E.
    + apply eqb_string_true in E. contradiction.
    + rewrite Hin, Hsize. cbn [negb].
      destruct (limit <? file_size file)%N; reflexivity.
Qed.

(** C7.  A file of an allowed type whose size equals the maximum for that
    type is accepted; one byte more is rejected with an error on the [size]
    field.  The maxima are 5MB for [image/png], [image/jpeg] and [image/jpg],
    10MB for [application/pdf], and 2MB for [text/markdown], [text/plain] and
    for [application/octet-stream] files named [.md], [.markdown] or [.txt].
    In particular an [application/octet-stream] file [notes.txt] of 1MB
    passes, and the same file at 3MB is rejected with a size error. *)
Theorem validateFile_size_boundary (file : File) (limit : N) :
  Spec.max_size file = Some limit ->
  (file_size file = limit -> validateFile file = None)
  /\ (file_size file = (limit + 1)%N ->
      exists e, validateFile file = Some e /\ field e = "size")
  /\ validateFile (Spec.notes_txt (1 * MB)) = None
  /\ (exists e, validateFile (Spec.notes_txt (3 * MB)) = Some e /\ field e = "size").
Proof.
  intros Hmax. pose proof (validateFile_size_rule file limit Hmax) as Hrule.
  repeat split.
  - intros Hsize. rewrite Hrule, Hsize, N.ltb_irrefl. reflexivity.
  - intros Hsize. rewrite Hrule, Hsize.
    assert ((limit <? limit + 1)%N = true) as -> by (apply N.ltb_lt; lia).
    eexists; split; reflexivity.
  - eexists; split; reflexivity.
Qed.

Lemma validateFile_size_boundary_witness :
  let at_limit := {| file_name := "scan.pdf"; file_type := "application/pdf";
                     file_size := 10 * MB |} in
  let over_limit := {| file_name := "scan.pdf"; file_type := "application/pdf";
                       file_size := 10 * MB + 1 |} in
  validateFile at_limit = None
  /\ exists e, validateFile over_limit = Some e /\ field e = "size".
Proof.
  split.
  - apply (validateFile_size_boundary
             {| file_name := "scan.pdf"; file_type := "application/pdf";
                file_size := 10 * MB |} (10 * MB)%N); reflexivity.
  - apply (validateFile_size_boundary
             {| file_name := "scan.pdf"; file_type := "application/pdf";
                file_size := 10 * MB + 1 |} (10 * MB)%N); reflexivity.
Defined.

End ValidationProperties.

(** ** The upload endpoint *)

Section UploadProperties.
Import Validation Upload.

Lemma validateFile_fields (file : File) (e : ValidationError) :
  validateFile file = Some e -> field e = "type" \/ field e = "size".
Proof.
  unfold validateFile.
  repeat match goal with
         | |- context [if ?b then _ else _] => destruct b
         | |- context [match ?o with Some _ => _ | None => _ end] => destruct o
         end;
    intros [= <-]; cbn; auto.
Qed.

Lemma upload_never_content (env : Env) (buffer : list Byte.byte)
    (key contentType name message : string) (large : bool) (k : string -> Json) :
  (forall u, k u <> ErrorJson message "content") ->
  forall response,
    ((url ← (if large then uploadLargeFile env buffer key contentType name
             else uploadFile env buffer key contentType name);
      Ok {| status := 200; json := k url |}) : Result NextResponse) = Ok response ->
    json response <> ErrorJson message "content".
Proof.
  intros Hk response.
  unfold uploadLargeFile, uploadFile.
  destruct large; cbn;
    [destruct (upload_done env _) | destruct (s3_send env _)]; cbn;
    intros [= <-]; cbn; apply Hk.
Qed.

(** C10.  [isValidTextContent] answers [true] on every buffer, so no request
    makes the upload handler answer "File appears to be binary, not text": in
    fact no response carries an error on the [content] field, and a
    [notes.txt] sent as [application/octet-stream] with bytes that are no
    text is stored and answered with status 200. *)
Theorem binary_rejection_unreachable :
  (forall buffer, isValidTextContent buffer = true)
  /\ (forall env request message, json (POST env request) <> ErrorJson message "content")
  /\ status (POST Spec.accepting_store Spec.binary_upload) = 200.
Proof.
  split; [reflexivity | split; [| reflexivity]].
  intros env request message. unfold POST.
  destruct (POST_try env request) as [response | e] eqn:Htry; [| cbn; congruence].
  revert Htry. unfold POST_try.
  destruct request as [[upload |] | e]; cbn; [| intros [= <-]; cbn; congruence | discriminate].
  destruct (validateFile (meta upload)) as [err |] eqn:Hvalid.
  - intros [= <-]; cbn. apply validateFile_fields in Hvalid as [Hf | Hf];
      rewrite Hf; congruence.
  - destruct (arrayBuffer upload) as [buffer | e]; cbn; [| discriminate].
    unfold isValidTextContent. cbn [negb]. rewrite andb_false_r.
    apply (upload_never_content env buffer _ _ _ message
             (5 * 1024 * 1024 <? file_size (meta upload))%N
             (fun url => SuccessJson url _ _ _ _)).
    discriminate.
Qed.

Lemma binary_rejection_unreachable_witness :
  isValidTextContent Spec.binary_bytes = true
  /\ json (POST Spec.accepting_store Spec.binary_upload)
     <> ErrorJson "File appears to be binary, not text" "content".
Proof.
  destruct binary_rejection_unreachable as (Htext & Hdead & _).
  split; [apply Htext | apply Hdead].
Defined.

End UploadProperties.

(** ** The client store *)

Section LocalStorageProperties.
Import LocalStorage.
Variable JSON_parse : string -> Result Js.Value.

Lemma parse_or_empty_degrades (stored : option string) :
  Spec.missing_or_corrupt JSON_parse stored ->
  try_return (parse_or_empty JSON_parse stored) (Js.VArr []) = Js.VArr [].
Proof.
  intros [-> | (text & e & -> & Hparse)]; unfold parse_or_empty; [reflexivity |].
  destruct (text =? ""); [| rewrite Hparse]; reflexivity.
Qed.

(** C9.  A missing or corrupt record of the client store reads as an empty
    value: [getThreads] returns the empty list when the thread list is absent
    or does not parse, [getMessages] returns the empty list for every thread
    id whose message list is absent or does not parse, and the active-thread
    pointer reads as [null] when absent.  None of the reads throws. *)
Theorem client_store_degrades_to_empty (localStorage : gmap string string)
    (threadId : string) :
  (Spec.missing_or_corrupt JSON_parse (localStorage !! THREADS_KEY) ->
   getThreads JSON_parse (Window localStorage) = Js.VArr [])
  /\ (Spec.missing_or_corrupt JSON_parse
        (localStorage !! (MESSAGES_KEY_PREFIX +:+ threadId)) ->
      getMessages JSON_parse (Window localStorage) threadId = Js.VArr [])
  /\ (localStorage !! ACTIVE_THREAD_KEY = None ->
      getActiveThreadId (Window localStorage) = None).
Proof.
  repeat split.
  - apply parse_or_empty_degrades.
  - apply parse_or_empty_degrades.
  - intros Hnone. exact Hnone.
Qed.

End LocalStorageProperties.

Lemma client_store_degrades_to_empty_witness :
  let corrupt : gmap string string :=
    {[ LocalStorage.THREADS_KEY := "{not json";
       LocalStorage.MESSAGES_KEY_PREFIX +:+ "T1" := "[{" ]} in
  LocalStorage.getThreads Spec.sample_parse (LocalStorage.Window corrupt) = Js.VArr []
  /\ LocalStorage.getMessages Spec.sample_parse (LocalStorage.Window corrupt) "T1" = Js.VArr []
  /\ LocalStorage.getMessages Spec.sample_parse (LocalStorage.Window corrupt) "T2" = Js.VArr []
  /\ LocalStorage.getActiveThreadId (LocalStorage.Window corrupt) = None.
Proof.
  intros corrupt.
  destruct (client_store_degrades_to_empty Spec.sample_parse corrupt "T1")
    as (Hthreads & Hmessages & Hactive).
  destruct (client_store_degrades_to_empty Spec.sample_parse corrupt "T2")
    as (_ & Hmessages2 & _).
  split; [| split; [| split]].
  - apply Hthreads. right. exists "{not json", (SyntaxError "Unexpected token").
    split; reflexivity.
  - apply Hmessages. right. exists "[{", (SyntaxError "Unexpected token").
    split; reflexivity.
  - apply Hmessages2. left. reflexivity.
  - apply Hactive. reflexivity.
Defined.

(** ** The tool registry loader *)

Section McpProperties.
Import Mcp.

Lemma get_opt_of_get (v x : Js.Value) (k : string) :
  Js.get v k = Ok x -> Js.get_opt v k = x.
Proof. destruct v; cbn; congruence. Qed.

(** One iteration either leaves the configuration alone or records an
    enabled server under its name. *)
Lemma load_server_step (configs configs' : gmap string MCPServerConfig)
    (server : Js.Value) :
  load_server configs server = Ok configs' ->
  configs' = configs
  \/ (Js.truthy (Js.get_opt server "enabled") = true
      /\ exists config, configs' = assign (Js.get_opt server "name") config configs).
Proof.
  unfold load_server.
  destruct (Js.get server "enabled") as [enabled |] eqn:Henabled; cbn; [| discriminate].
  apply get_opt_of_get in Henabled as Hopt. rewrite Hopt.
  destruct (Js.truthy enabled) eqn:Htruthy; cbn; [| intros [= <-]; auto].
  assert (Hget : forall k, Js.get server k = Ok (Js.get_opt server k)).
  { destruct server; cbn in *; try discriminate; reflexivity. }
  rewrite !Hget; cbn.
  repeat match goal with
         | |- context [if ?b then _ else _] => destruct b; cbn
         end;
    intros [= <-]; eauto.
Qed.

Lemma assign_lookup (name : Js.Value) (config : MCPServerConfig)
    (configs : gmap string MCPServerConfig) (key : string) :
  Js.toStr name <> key -> assign name config configs !! key = configs !! key.
Proof.
  intros Hne. unfold assign.
  destruct (Js.toStr name =? "__proto__"); [reflexivity |].
  by rewrite lookup_insert_ne.
Qed.

(** Every entry of the loaded configuration was there before the loop or
    comes from a server whose [enabled] flag is truthy. *)
Lemma load_servers_entries (servers : list Js.Value) :
  forall (configs result : gmap string MCPServerConfig) (key : string)
         (config : MCPServerConfig),
    load_servers configs servers = Ok result ->
    result !! key = Some config ->
    configs !! key = Some config
    \/ exists server, server ∈ servers
                      /\ Js.truthy (Js.get_opt server "enabled") = true
                      /\ Js.toStr (Js.get_opt server "name") = key.
Proof.
  induction servers as [| server rest IH]; intros configs result key config.
  - cbn. intros [= <-] Hkey. auto.
  - cbn [load_servers].
    destruct (load_server configs server) as [configs' |] eqn:Hstep; cbn; [| discriminate].
    intros Hrest Hkey.
    destruct (IH _ _ _ _ Hrest Hkey) as [Hold | (s & Hin & Hen & Hname)].
    + apply load_server_step in Hstep as [-> | (Hen & c & ->)]; [auto |].
      destruct (decide (Js.toStr (Js.get_opt server "name") = key)) as [Heq | Hne].
      * right. exists server. split; [apply list_elem_of_here | auto].
      * rewrite assign_lookup in Hold by exact Hne. auto.
    + right. exists s. split; [by apply list_elem_of_further | auto].
Qed.

(** The loop gives the same result with the disabled servers taken out of
    the list. *)
Lemma load_servers_skips_disabled (servers : list Js.Value) :
  forall configs : gmap string MCPServerConfig,
    load_servers configs servers
    = load_servers configs (List.filter Spec.not_disabled servers).
Proof.
  induction servers as [| server rest IH]; intros configs; [reflexivity |].
  cbn [List.filter]. destruct (Spec.not_disabled server) eqn:Hkept.
  - cbn [load_servers]. destruct (load_server configs server); cbn; [apply IH | reflexivity].
  - cbn [load_servers].
    assert (load_server configs server = Ok configs) as ->; [| cbn; apply IH].
    unfold load_server.
    destruct server; cbn in Hkept; try discriminate; cbn; try reflexivity.
    unfold Js.get_opt in Hkept. by rewrite Hkept.
Qed.

Section Loader.
Variable JSON_parse : string -> Result Js.Value.
Context {Client Tool : Type}.
Variable MultiServerMCPClient : gmap string MCPServerConfig -> Result Client.
Variable getTools : Client -> Result (list Tool).

Lemma readable_config (file : ConfigFile) (text : string) (document : Js.Value)
    (servers : list Js.Value) :
  existsSync file = true ->
  readFileSync file = Ok text -> JSON_parse text = Ok document ->
  Js.get document "servers" = Ok (Js.VArr servers) ->
  getMCPServerConfigs JSON_parse file = try_return (load_servers ∅ servers) ∅.
Proof.
  intros Hexists Hread Hparse Hservers.
  unfold getMCPServerConfigs, getMCPServerConfigs_try.
  rewrite Hexists, Hread; cbn. rewrite Hparse; cbn. rewrite Hservers; reflexivity.
Qed.

Lemma unusable_config_empty (file : ConfigFile) :
  Spec.unusable_config JSON_parse file -> getMCPServerConfigs JSON_parse file = ∅.
Proof.
  unfold getMCPServerConfigs, try_return, getMCPServerConfigs_try.
  intros [Habsent | e Hread | text e Hread Hparse | text config Hread Hparse Hservers].
  - rewrite Habsent. reflexivity.
  - rewrite Hread. destruct (existsSync file); reflexivity.
  - rewrite Hread. cbn. rewrite Hparse. destruct (existsSync file); reflexivity.
  - rewrite Hread. cbn. rewrite Hparse. cbn.
    destruct (existsSync file); cbn; [| reflexivity].
    destruct (Js.get config "servers") as [servers |] eqn:Hget; cbn; [| reflexivity].
    destruct servers; try reflexivity.
    exfalso. by eapply Hservers.
Qed.

Lemma configured_entries (file : ConfigFile) (key : string) (config : MCPServerConfig) :
  getMCPServerConfigs JSON_parse file !! key = Some config ->
  exists text document servers,
    readFileSync file = Ok text /\ JSON_parse text = Ok document
    /\ Js.get document "servers" = Ok (Js.VArr servers)
    /\ exists server, server ∈ servers
                      /\ Js.truthy (Js.get_opt server "enabled") = true
                      /\ Js.toStr (Js.get_opt server "name") = key.
Proof.
  unfold getMCPServerConfigs, try_return, getMCPServerConfigs_try.
  destruct (existsSync file); cbn; [| by rewrite lookup_empty].
  destruct (readFileSync file) as [text |] eqn:Hread; cbn; [| by rewrite lookup_empty].
  destruct (JSON_parse text) as [document |] eqn:Hparse; cbn; [| by rewrite lookup_empty].
  destruct (Js.get document "servers") as [servers |] eqn:Hservers; cbn;
    [| by rewrite lookup_empty].
  destruct servers as [| | | | | servers |]; try by rewrite lookup_empty.
  destruct (load_servers ∅ servers) as [result |] eqn:Hload; [| by rewrite lookup_empty].
  intros Hkey. exists text, document, servers. do 3 (split; [assumption || reflexivity |]).
  destruct (load_servers_entries _ _ _ _ _ Hload Hkey) as [Hold | Hserver];
    [by rewrite lookup_empty in Hold | exact Hserver].
Qed.

(** C8.  A configured server whose [enabled] flag is false (or otherwise
    falsy) is left out of the result of [getMCPServerConfigs]: the result is
    the one computed from the list without the disabled servers, and a name
    that only disabled servers carry is no key of it.  When the configuration
    file is absent, unreadable, not JSON or without a [servers] array,
    [getMCPServerConfigs] returns the empty configuration, and [getMCPTools]
    then returns no tools, whatever the tool-server SDK does.  Neither
    function throws. *)
Theorem disabled_servers_excluded_and_bad_config_empty (file : ConfigFile) :
  (forall text document servers,
      existsSync file = true ->
      readFileSync file = Ok text -> JSON_parse text = Ok document ->
      Js.get document "servers" = Ok (Js.VArr servers) ->
      getMCPServerConfigs JSON_parse file
      = try_return (load_servers ∅ (List.filter Spec.not_disabled servers)) ∅)
  /\ (forall text document servers key,
      readFileSync file = Ok text -> JSON_parse text = Ok document ->
      Js.get document "servers" = Ok (Js.VArr servers) ->
      (forall server, server ∈ servers ->
                      Js.toStr (Js.get_opt server "name") = key ->
                      Js.truthy (Js.get_opt server "enabled") = false) ->
      getMCPServerConfigs JSON_parse file !! key = None)
  /\ (Spec.unusable_config JSON_parse file ->
      getMCPServerConfigs JSON_parse file = ∅
      /\ getMCPTools JSON_parse MultiServerMCPClient getTools file = []).
Proof.
  split; [| split].
  - intros text document servers Hexists Hread Hparse Hservers.
    rewrite (readable_config file text document servers) by assumption.
    by rewrite load_servers_skips_disabled.
  - intros text document servers key Hread Hparse Hservers Hdisabled.
    destruct (getMCPServerConfigs JSON_parse file !! key) as [config |] eqn:Hkey;
      [| reflexivity].
    apply configured_entries in Hkey
        as (text' & document' & servers' & Hread' & Hparse' & Hservers' & server
            & Hin & Henabled & Hname).
    rewrite Hread in Hread'. injection Hread' as <-.
    rewrite Hparse in Hparse'. injection Hparse' as <-.
    rewrite Hservers in Hservers'. injection Hservers' as <-.
    rewrite (Hdisabled server Hin Hname) in Henabled. discriminate.
  - intros Hbad. apply unusable_config_empty in Hbad as Hempty. split; [exact Hempty |].
    unfold getMCPTools, createMCPClient. rewrite Hempty. reflexivity.
Qed.

End Loader.
End McpProperties.

Lemma disabled_servers_excluded_and_bad_config_empty_witness :
  Mcp.getMCPServerConfigs Spec.sample_parse Spec.sample_config_file
  = {[ "context7" := Mcp.http {| Mcp.url := Js.VStr "https://mcp.context7.ai";
                                 Mcp.headers := Some (Js.VObj []) |} ]}
  /\ Mcp.getMCPServerConfigs Spec.sample_parse Spec.sample_config_file !! "filesystem" = None
  /\ Mcp.getMCPServerConfigs Spec.sample_parse Spec.absent_config_file = ∅
  /\ Mcp.getMCPTools Spec.sample_parse Spec.sample_client Spec.sample_tools
       Spec.absent_config_file = [].
Proof.
  split; [| split].
  - destruct (disabled_servers_excluded_and_bad_config_empty Spec.sample_parse
                Spec.sample_client Spec.sample_tools Spec.sample_config_file)
      as [Hfiltered _].
    rewrite (Hfiltered (Js.serialize Spec.sample_config) Spec.sample_config
               Spec.sample_servers eq_refl eq_refl eq_refl eq_refl).
    reflexivity.
  - destruct (disabled_servers_excluded_and_bad_config_empty Spec.sample_parse
                Spec.sample_client Spec.sample_tools Spec.sample_config_file)
      as (_ & Hexcluded & _).
    apply (Hexcluded (Js.serialize Spec.sample_config) Spec.sample_config
             Spec.sample_servers);
      [reflexivity | reflexivity | reflexivity |].
    intros server Hin Hname.
    apply list_elem_of_In in Hin. cbn in Hin.
    destruct Hin as [<- | [<- | []]]; [discriminate Hname | reflexivity].
  - destruct (disabled_servers_excluded_and_bad_config_empty Spec.sample_parse
                Spec.sample_client Spec.sample_tools Spec.absent_config_file)
      as (_ & _ & Hbad).
    apply Hbad. apply Spec.config_absent. reflexivity.
Defined.

(** ** The memory hydrator *)

Section MemoryProperties.
Import Message Memory.

Lemma result_map_Forall2 {A B} (f : A -> Result B) (R : A -> B -> Prop) (xs : list A) :
  Forall (fun x => exists y, f x = Ok y /\ R x y) xs ->
  exists ys, result_map f xs = Ok ys /\ Forall2 R xs ys.
Proof.
  induction 1 as [| x rest (y & Hy & HR) _ (ys & Hys & HF)]; cbn.
  - exists []. split; [reflexivity | constructor].
  - exists (y :: ys). rewrite Hy; cbn. rewrite Hys; cbn.
    split; [reflexivity | by constructor].
Qed.

Lemma plain_text_item_converts (item : MessageResponse) :
  Spec.plain_text_item item ->
  exists message, messageResponseToBaseMessage item = Ok message
                  /\ Spec.round_trips item message.
Proof.
  destruct item as [t d]. intros [[r Hrole] (payload & s & Hdata & Hcontent)].
  cbn in *. subst d. unfold messageResponseToBaseMessage, Spec.round_trips.
  destruct t; cbn in *; try discriminate; rewrite Hcontent; cbn;
    eexists; (split; [reflexivity |]); cbn; (split; [reflexivity |]);
    exists payload; by rewrite Hcontent.
Qed.

(** What one hydration of a non-empty history does, by the outcome of the
    conversion and of the write *)
Lemma hydrate_run {St : Type} `{CheckpointSaver St} (clock : Clock) (threadId : string)
    (item : MessageResponse) (rest : list MessageResponse) (saver : St) :
  let run := hydrateMemoryFromHistory clock threadId (Some (item :: rest)) saver [] in
  match result_map messageResponseToBaseMessage (item :: rest) with
  | Throw e => run = (Ok (), saver, [ConsoleError "Failed to hydrate memory:" e])
  | Ok messages =>
      let checkpoint :=
        {| v := 1;
           checkpoint_id := "hydrated-" +:+ Js.dec (now clock);
           ts := now_iso clock;
           channel_values_messages := Some messages;
           channel_versions_messages := length messages;
           versions_seen := [] |} in
      let metadata := {| source := "update"; step := -1; parents := [] |} in
      exists line,
        run = (Ok (), (saver_put saver threadId checkpoint metadata).2,
               [SaverPut threadId checkpoint metadata; line])
        /\ match line with ConsoleLog _ | ConsoleError _ _ => True | _ => False end
  end.
Proof.
  cbv zeta. unfold hydrateMemoryFromHistory, try_catch, hydrate_try.
  unfold mbind at 1, eff_bind, lift.
  destruct (result_map messageResponseToBaseMessage (item :: rest)) as [messages | e];
    [| reflexivity].
  unfold mbind, eff_bind, put, emit.
  destruct (saver_put saver threadId _ _) as [[[] | e] saver'] eqn:Hput; cbn;
    eexists; (split; [reflexivity | exact I]).
Qed.

(** A memory saver without a checkpoint of the thread returns what is put. *)
Lemma fresh_thread_reads_back (saver : MemorySaver) (threadId checkpointId : string) :
  saver !! threadId = None -> Spec.reads_back saver threadId checkpointId.
Proof.
  intros Hfresh checkpoint metadata _. eexists. split; [reflexivity |].
  cbn. unfold MemorySaver in *. rewrite lookup_insert_eq, Hfresh. cbn.
  unfold latest. by rewrite insert_empty, map_to_list_singleton.
Qed.

(** Against C1 as stated: a saver may already hold, for the thread, a
    checkpoint whose id sorts after the one of the new hydration.  Reading
    the thread back then returns the messages of that checkpoint, three
    here, not the one message just supplied. *)
Lemma later_checkpoint_hides_hydration :
  ~ (forall (clock : Clock) (saver : MemorySaver) (threadId : string)
            (history : list MessageResponse),
        history <> [] ->
        Forall Spec.plain_text_item history ->
        exists saver' events messages events',
          hydrateMemoryFromHistory clock threadId (Some history) saver []
          = (Ok (), saver', events)
          /\ getHistory threadId saver' events = (Ok messages, saver', events')
          /\ length messages = length history
          /\ Forall2 Spec.round_trips history messages).
Proof.
  intros Hclaim.
  destruct (Hclaim Spec.earlier_clock Spec.hydrated_saver "T1" Spec.short_history)
    as (saver' & events & messages & events' & Hrun & Hget & Hlength & _).
  - discriminate.
  - repeat constructor; cbn; eauto.
  - vm_compute in Hrun. injection Hrun as <- <-.
    vm_compute in Hget. injection Hget as <- _.
    discriminate Hlength.
Qed.

(** C1, amended.  For a non-empty history of human, ai and tool messages
    with string content, and a saver that stores the checkpoint of the
    hydration and returns it on the next read of the thread, hydrating the
    saver for the thread and then reading the thread's history back returns
    as many messages as were supplied, in the same order, each of the class of
    its role (human to [HumanMessage], ai to [AIMessage], tool to
    [ToolMessage]) and with the same text.  The saver may be of any kind. *)
Theorem hydrate_then_getHistory_round_trip {St : Type} `{CheckpointSaver St}
    (clock : Clock) (saver : St) (threadId : string) (history : list MessageResponse) :
  history <> [] ->
  Forall Spec.plain_text_item history ->
  Spec.reads_back saver threadId ("hydrated-" +:+ Js.dec (now clock)) ->
  exists saver' events messages events',
    hydrateMemoryFromHistory clock threadId (Some history) saver [] = (Ok (), saver', events)
    /\ getHistory threadId saver' events = (Ok messages, saver', events')
    /\ length messages = length history
    /\ Forall2 Spec.round_trips history messages.
Proof.
  intros Hne Hplain Hreads.
  destruct (result_map_Forall2 messageResponseToBaseMessage Spec.round_trips history)
    as (messages & Hmap & Hall).
  { eapply Forall_impl; [exact Hplain |]. apply plain_text_item_converts. }
  destruct history as [| item rest]; [contradiction |].
  pose proof (hydrate_run clock threadId item rest saver) as Hrun.
  cbv zeta in Hrun. rewrite Hmap in Hrun. destruct Hrun as (line & Hrun & _).
  eexists _, _, messages, _. split; [exact Hrun |].
  split; [| split; [symmetry; eapply Forall2_length; exact Hall | exact Hall]].
  edestruct Hreads as (stored & Hput & Hget); [| rewrite Hput]; [reflexivity |].
  unfold getHistory, try_catch, mbind, eff_bind, get. cbn. rewrite Hget. reflexivity.
Qed.

Lemma hydrate_then_getHistory_round_trip_witness :
  exists saver' events messages events',
    hydrateMemoryFromHistory Spec.sample_clock "T1" (Some Spec.sample_history)
      createMemorySaver [] = (Ok (), saver', events)
    /\ getHistory "T1" saver' events = (Ok messages, saver', events')
    /\ length messages = length Spec.sample_history
    /\ Forall2 Spec.round_trips Spec.sample_history messages.
Proof.
  apply (hydrate_then_getHistory_round_trip Spec.sample_clock createMemorySaver "T1"
           Spec.sample_history).
  - discriminate.
  - repeat constructor; cbn; eauto.
  - apply fresh_thread_reads_back. reflexivity.
Defined.

(** C4.  A history item of type [ai] that carries tool calls is converted to
    an [AIMessage] holding the same tool-call list, hence the same call ids
    and arguments in the same order, and the item's [additional_kwargs] and
    [response_metadata] unchanged. *)
Theorem ai_tool_calls_preserved (msg : MessageResponse) (d : MessageData)
    (calls : list ToolCall) :
  type msg = ai -> data msg = Some d -> tool_calls d = Some calls ->
  exists message,
    messageResponseToBaseMessage msg = Ok message
    /\ message = AIMessage (normalizeContent (content d)) (Some (id d)) (Some calls)
                   (additional_kwargs d) (response_metadata d)
    /\ message_tool_calls message = Some calls.
Proof.
  intros Htype Hdata Hcalls. unfold messageResponseToBaseMessage, payload.
  rewrite Htype, Hdata; cbn. rewrite Hcalls. eexists. repeat split.
Qed.

Lemma ai_tool_calls_preserved_witness :
  exists message,
    messageResponseToBaseMessage Spec.sample_ai_item = Ok message
    /\ message = AIMessage "" (Some "m2") (Some [Spec.sample_call])
                   (Some [("finish", Js.VStr "tool_calls")]) (Some [])
    /\ message_tool_calls message = Some [Spec.sample_call].
Proof.
  exact (ai_tool_calls_preserved Spec.sample_ai_item Spec.sample_ai_data
           [Spec.sample_call] eq_refl eq_refl eq_refl).
Defined.

(** Against C5 as stated: a history whose only item lacks its payload is not
    empty, yet hydrating it makes no [saver.put] call, for the conversion
    throws before the write. *)
Lemma hydrate_malformed_history_no_put :
  ~ (forall (clock : Clock) (threadId : string) (history : list MessageResponse)
            (saver : MemorySaver),
        history <> [] ->
        length (put_calls
                  (hydrateMemoryFromHistory clock threadId (Some history) saver []).2) = 1).
Proof.
  intros Hclaim.
  specialize (Hclaim Spec.sample_clock "T1" [Spec.malformed_item] createMemorySaver
                ltac:(discriminate)).
  vm_compute in Hclaim. discriminate Hclaim.
Qed.

(** C5, amended.  [hydrateMemoryFromHistory] never throws, whatever the saver
    does.  For an empty or missing history it returns without touching the
    saver.  For a non-empty history whose items all convert it calls
    [saver.put] exactly once, with a checkpoint holding the converted
    messages, and a failure of that call is caught.  When the conversion of
    an item throws, the exception is caught, [saver.put] is not called and the
    saver is left as it was. *)
Theorem hydrate_never_throws_one_put {St : Type} `{CheckpointSaver St} (clock : Clock)
    (threadId : string) (history : option (list MessageResponse)) (saver : St) :
  exists saver' events,
    hydrateMemoryFromHistory clock threadId history saver [] = (Ok (), saver', events)
    /\ (history = None \/ history = Some [] -> saver' = saver /\ events = [])
    /\ (forall items messages,
          history = Some items -> items <> [] ->
          result_map messageResponseToBaseMessage items = Ok messages ->
          exists checkpoint metadata,
            put_calls events = [SaverPut threadId checkpoint metadata]
            /\ channel_values_messages checkpoint = Some messages
            /\ saver' = (saver_put saver threadId checkpoint metadata).2)
    /\ (forall items e,
          history = Some items ->
          result_map messageResponseToBaseMessage items = Throw e ->
          put_calls events = [] /\ saver' = saver).
Proof.
  destruct history as [[| item rest] |].
  - exists saver, []. split; [reflexivity |].
    split; [auto | split]; [intros ? ? [= <-] ?; contradiction | intros ? ? [= <-]; discriminate].
  - pose proof (hydrate_run clock threadId item rest saver) as Hrun. cbv zeta in Hrun.
    destruct (result_map messageResponseToBaseMessage (item :: rest)) as [messages | e]
      eqn:Hmap.
    + destruct Hrun as (line & Hrun & Hline).
      eexists _, _. split; [exact Hrun |].
      split; [intros [? | ?]; discriminate |].
      split; [| intros ? ? [= <-]; congruence].
      intros items messages' [= <-] _ Hmap'. rewrite Hmap in Hmap'. injection Hmap' as <-.
      eexists _, _. split.
      { destruct line; cbn; try reflexivity; contradiction. }
      split; reflexivity.
    + eexists _, _. split; [exact Hrun |].
      split; [intros [? | ?]; discriminate |].
      split; [intros ? ? [= <-]; congruence |].
      intros items e' [= <-] _. split; reflexivity.
  - exists saver, []. split; [reflexivity |].
    split; [auto | split]; [intros ? ? [=] | intros ? ? [=]].
Qed.

Lemma hydrate_never_throws_one_put_witness :
  (exists events,
      hydrateMemoryFromHistory Spec.sample_clock "T1" (Some Spec.sample_history)
        Spec.broken [] = (Ok (), Spec.broken, events)
      /\ length (put_calls events) = 1)
  /\ (exists events,
        hydrateMemoryFromHistory Spec.sample_clock "T1" (Some [Spec.malformed_item])
          createMemorySaver [] = (Ok (), createMemorySaver, events)
        /\ put_calls events = [])
  /\ hydrateMemoryFromHistory Spec.sample_clock "T1" (Some [])
       createMemorySaver [] = (Ok (), createMemorySaver, []).
Proof.
  split; [| split].
  - destruct (hydrate_never_throws_one_put Spec.sample_clock "T1"
                (Some Spec.sample_history) Spec.broken)
      as (saver' & events & Hrun & _ & Hput & _).
    destruct (Hput Spec.sample_history _ eq_refl ltac:(discriminate) eq_refl)
      as (checkpoint & metadata & Hcalls & _ & Hsaver).
    exists events. rewrite Hrun, Hcalls, Hsaver. split; reflexivity.
  - destruct (hydrate_never_throws_one_put Spec.sample_clock "T1"
                (Some [Spec.malformed_item]) createMemorySaver)
      as (saver' & events & Hrun & _ & _ & Hthrow).
    destruct (Hthrow [Spec.malformed_item] _ eq_refl eq_refl) as [Hcalls Hsaver].
    exists events. rewrite Hrun, Hcalls, Hsaver. split; reflexivity.
  - destruct (hydrate_never_throws_one_put Spec.sample_clock "T1"
                (Some []) createMemorySaver)
      as (saver' & events & Hrun & Hempty & _).
    destruct (Hempty (or_intror eq_refl)) as [Hsaver Hevents].
    rewrite Hrun, Hsaver, Hevents. reflexivity.
Defined.

End MemoryProperties.

(** ** The streaming service *)

Section AgentServiceProperties.
Import Message AgentService.

Lemma chars_of_chars (cs : list ascii) : Js.chars (Js.of_chars cs) = cs.
Proof. induction cs as [| c rest IH]; cbn; [reflexivity | by rewrite IH]. Qed.

Lemma of_chars_empty (cs : list ascii) : Js.of_chars cs = "" <-> cs = [].
Proof. destruct cs; cbn; split; congruence. Qed.

Lemma chars_empty (s : string) : Js.chars s = [] <-> s = "".
Proof. destruct s; cbn; split; congruence. Qed.

Lemma starts_with_spec (prefix cs rest : list ascii) :
  Js.starts_with prefix cs = Some rest <-> cs = prefix ++ rest.
Proof.
  revert cs. induction prefix as [| p prefix IH]; intros cs; cbn.
  - split; [intros [= ->] | intros ->]; reflexivity.
  - destruct cs as [| c cs]; [split; discriminate |].
    destruct (Ascii.eqb p c) eqn:Heq.
    + apply Ascii.eqb_eq in Heq as ->. rewrite IH.
      split; [intros -> | intros [= ->]]; reflexivity.
    + apply Ascii.eqb_neq in Heq. split; [discriminate | intros [= -> _]; contradiction].
Qed.

Lemma strip_Some (encodings : list (list ascii)) (cs rest : list ascii) :
  Js.strip encodings cs = Some rest -> exists w, In w encodings /\ cs = w ++ rest.
Proof.
  induction encodings as [| w others IH]; cbn; [discriminate |].
  destruct (Js.starts_with w cs) as [after |] eqn:Hw.
  - intros [= ->]. exists w. split; [by left | by apply starts_with_spec].
  - intros Hstrip. destruct (IH Hstrip) as (w' & Hin & Heq). exists w'. split; [by right | done].
Qed.

Lemma strip_None (encodings : list (list ascii)) (cs : list ascii) :
  Js.strip encodings cs = None ->
  forall w rest, In w encodings -> cs <> w ++ rest.
Proof.
  induction encodings as [| w others IH]; cbn; [intros _ ? ? [] |].
  destruct (Js.starts_with w cs) as [after |] eqn:Hw; [discriminate |].
  intros Hstrip w' rest [<- | Hin] Heq.
  - apply starts_with_spec in Heq. congruence.
  - by eapply IH.
Qed.

Lemma unambiguous_words (encodings : list (list ascii)) :
  Spec.unambiguous encodings = true ->
  (forall w, In w encodings -> w <> [])
  /\ (forall w w' rest rest',
        In w encodings -> In w' encodings -> w ++ rest = w' ++ rest' ->
        w = w' /\ rest = rest').
Proof.
  unfold Spec.unambiguous. rewrite forallb_forall. intros Hcheck.
  assert (forall w w' extra, In w encodings -> In w' encodings -> w' = w ++ extra ->
                             extra = []) as Hprefix.
  { intros w w' extra Hw Hw' Heq. specialize (Hcheck w Hw).
    destruct w as [| c w]; [discriminate |].
    rewrite forallb_forall in Hcheck. specialize (Hcheck w' Hw').
    apply starts_with_spec in Heq. rewrite Heq in Hcheck.
    by destruct extra. }
  split.
  - intros w Hw ->. by specialize (Hcheck [] Hw).
  - intros w w' rest rest' Hw Hw' Heq.
    apply app_eq_app in Heq as [extra [[-> ->] | [-> ->]]].
    + rewrite (Hprefix w' (w' ++ extra) extra Hw' Hw eq_refl). by rewrite app_nil_r.
    + rewrite (Hprefix w (w ++ extra) extra Hw Hw' eq_refl). by rewrite app_nil_r.
Qed.

Lemma strip_all_sequence (encodings : list (list ascii)) (fuel : nat) (cs : list ascii) :
  Js.strip_all encodings fuel cs = [] -> Spec.sequence_of encodings cs.
Proof.
  revert cs. induction fuel as [| fuel IH]; intros cs; cbn.
  - intros ->. by exists [].
  - destruct (Js.strip encodings cs) as [rest |] eqn:Hstrip.
    + intros Hrest. destruct (IH rest Hrest) as (words & Hall & ->).
      destruct (strip_Some _ _ _ Hstrip) as (w & Hin & ->).
      exists (w :: words). split; [by constructor | reflexivity].
    + intros ->. by exists [].
Qed.

Lemma sequence_strip_all (encodings : list (list ascii)) (fuel : nat) (cs : list ascii) :
  Spec.unambiguous encodings = true ->
  Spec.sequence_of encodings cs -> (length cs <= fuel)%nat ->
  Js.strip_all encodings fuel cs = [].
Proof.
  intros Hcheck. destruct (unambiguous_words encodings Hcheck) as [Hnonempty Hunique].
  revert cs. induction fuel as [| fuel IH]; intros cs (words & Hall & ->) Hlen; cbn.
  - destruct (List.concat words); [reflexivity | cbn in Hlen; lia].
  - destruct (Js.strip encodings (List.concat words)) as [rest |] eqn:Hstrip.
    + destruct (strip_Some _ _ _ Hstrip) as (w & Hin & Heq).
      destruct Hall as [| w' words Hw' Hall]; cbn in *.
      { symmetry in Heq. apply app_eq_nil in Heq as [-> _]. by destruct (Hnonempty [] Hin). }
      destruct (Hunique w' w _ _ Hw' Hin Heq) as [-> <-].
      apply IH; [by exists words |].
      rewrite length_app in Hlen. specialize (Hnonempty w Hin). destruct w; [done | cbn in Hlen; lia].
    + destruct Hall as [| w' words Hw' Hall]; [reflexivity |].
      cbn in Hstrip. by destruct (strip_None _ _ Hstrip w' (List.concat words) Hw').
Qed.

Lemma strip_all_stuck (encodings : list (list ascii)) (fuel : nat) (cs : list ascii) :
  (forall w, In w encodings -> w <> []) ->
  (length cs <= fuel)%nat ->
  Js.strip_all encodings fuel cs = []
  \/ Js.strip encodings (Js.strip_all encodings fuel cs) = None.
Proof.
  intros Hnonempty. revert cs. induction fuel as [| fuel IH]; intros cs Hlen; cbn.
  - left. destruct cs; [reflexivity | cbn in Hlen; lia].
  - destruct (Js.strip encodings cs) as [rest |] eqn:Hstrip; [| by right].
    apply IH. destruct (strip_Some _ _ _ Hstrip) as (w & Hin & ->).
    rewrite length_app in Hlen. specialize (Hnonempty w Hin). destruct w; [done | cbn in Hlen; lia].
Qed.

Lemma sequence_app (encodings : list (list ascii)) (cs cs' : list ascii) :
  Spec.sequence_of encodings cs -> Spec.sequence_of encodings cs' ->
  Spec.sequence_of encodings (cs ++ cs').
Proof.
  intros (words & Hall & ->) (words' & Hall' & ->). exists (words ++ words').
  split; [by apply Forall_app | by rewrite concat_app].
Qed.

Lemma sequence_rev (encodings : list (list ascii)) (cs : list ascii) :
  Spec.sequence_of (List.map (@rev ascii) encodings) (rev cs) ->
  Spec.sequence_of encodings cs.
Proof.
  intros (words & Hall & Heq).
  apply (f_equal (@rev ascii)) in Heq. rewrite rev_involutive in Heq. subst cs.
  induction Hall as [| w words Hw _ IH]; [by exists [] |].
  cbn. rewrite rev_app_distr. apply sequence_app; [exact IH |].
  apply in_map_iff in Hw as (w0 & <- & Hin).
  exists [w0]. split; [by repeat constructor | cbn; by rewrite rev_involutive, app_nil_r].
Qed.

(** [text.trim()] is empty exactly when [text] is empty or white space only. *)
Lemma trim_empty (s : string) : Js.trim s = "" <-> Spec.blank s.
Proof.
  assert (Spec.unambiguous (List.map Js.utf8 Js.WHITE_SPACE) = true) as Hcheck
    by reflexivity.
  unfold Spec.blank, Js.trim. split.
  - unfold Js.trimEnd. rewrite of_chars_empty.
    intros Hend. apply (f_equal (@rev ascii)) in Hend. rewrite rev_involutive in Hend.
    change (rev []) with (@nil ascii) in Hend. apply strip_all_sequence in Hend.
    rewrite <- (map_map Js.utf8 (@rev ascii)) in Hend. apply sequence_rev in Hend.
    unfold Js.trimStart in Hend. rewrite chars_of_chars in Hend.
    destruct (strip_all_stuck (List.map Js.utf8 Js.WHITE_SPACE) (length (Js.chars s))
                (Js.chars s) (proj1 (unambiguous_words _ Hcheck)) (le_n _))
      as [Hempty | Hstuck].
    + by apply strip_all_sequence in Hempty.
    + destruct Hend as (words & Hall & Heq). rewrite Heq in Hstuck.
      destruct Hall as [| w words Hw Hall].
      * cbn in Heq. by apply strip_all_sequence in Heq.
      * by destruct (strip_None _ _ Hstuck w (List.concat words) Hw).
  - intros Hblank. unfold Js.trimStart.
    by rewrite (sequence_strip_all _ _ _ Hcheck Hblank (le_n _)).
Qed.

Lemma trim_test (s : string) :
  (Spec.blank s -> (Js.trim s =? "") = true)
  /\ (~ Spec.blank s -> (Js.trim s =? "") = false).
Proof.
  split; intros Hblank.
  - by apply String.eqb_eq, trim_empty.
  - apply String.eqb_neq. by rewrite trim_empty.
Qed.

Lemma item_text_field (c : Js.Value) : Js.join_elem (item_text c) = Spec.text_field c.
Proof.
  destruct c as [| | | | s | | fields]; cbn; try reflexivity.
  destruct (Js.lookup_field "text" fields) as [t |]; cbn; [| reflexivity].
  destruct t as [| | [] | n | t | |]; cbn; try reflexivity.
  - by destruct (n =? 0)%Z.
  - by destruct (t =? "").
Qed.

Lemma items_joined_text (items : list Js.Value) :
  Js.join_values "" (List.map item_text items) = Spec.joined_text items.
Proof.
  unfold Js.join_values, Js.join, Spec.joined_text. f_equal.
  induction items as [| c rest IH]; cbn; [reflexivity |].
  by rewrite item_text_field, IH.
Qed.

(** Against C6 as stated: a message whose content is one space encodes no
    tool call and has non-empty text, and yet yields no delta. *)
Lemma whitespace_text_yields_no_delta :
  ~ (forall (now : Z) (message : GraphMessage) (text : string),
        hasToolCall message = false ->
        message_content message = Js.VStr text ->
        text <> "" ->
        exists delta, processAIMessage now message = Some delta).
Proof.
  intros Hclaim.
  destruct (Hclaim 0%Z
              {| message_id := Some "run-1"; message_content := Js.VStr " ";
                 message_calls := None; message_kwargs := None;
                 message_metadata := None |} " " eq_refl eq_refl)
    as [delta Hdelta]; discriminate.
Qed.

(** C6, amended.  For an AI message whose content encodes no pending tool
    call and is made of values that print as the host prints them ([Js.safe]),
    the extracted text is the content when that is a plain string, and the
    concatenation of the text fields of the items when it is an array,
    whatever the items are.
    When the text is empty or consists of white-space characters only, in
    the ASCII range or beyond it, [processAIMessage] emits no delta; in every
    other case it emits an [ai] delta with exactly that text. *)
Theorem processAIMessage_text_delta (now : Z) (message : GraphMessage) (text : string) :
  hasToolCall message = false ->
  Js.safe (message_content message) = true ->
  (message_content message = Js.VStr text
   \/ exists items, message_content message = Js.VArr items
                    /\ text = Spec.joined_text items) ->
  (Spec.blank text -> processAIMessage now message = None)
  /\ (~ Spec.blank text ->
      processAIMessage now message
      = Some {| type := ai;
                data := Some {| id := delta_id now message;
                                content := Text text;
                                tool_calls := None;
                                additional_kwargs := None;
                                response_metadata := None |} |}).
Proof.
  intros Hno _ Hcontent. unfold processAIMessage. rewrite Hno.
  assert (extract_text (message_content message) = text) as ->.
  { destruct Hcontent as [-> | (items & -> & ->)]; cbn; [reflexivity |].
    apply items_joined_text. }
  destruct (trim_test text) as [Hblank Hfull].
  split; intros Htext; [rewrite (Hblank Htext) | rewrite (Hfull Htext)]; reflexivity.
Qed.

Lemma processAIMessage_text_delta_witness :
  let blocks := {| message_id := Some "run-1";
                   message_content := Spec.reply_in_blocks;
                   message_calls := None; message_kwargs := None;
                   message_metadata := None |} in
  let spaces := {| message_id := None; message_content := Js.VStr Spec.white_text;
                   message_calls := None; message_kwargs := None;
                   message_metadata := None |} in
  processAIMessage 7 blocks
  = Some {| type := ai;
            data := Some {| id := "run-1"; content := Text "Hello, world";
                            tool_calls := None; additional_kwargs := None;
                            response_metadata := None |} |}
  /\ processAIMessage 7 spaces = None.
Proof.
  split.
  - apply (processAIMessage_text_delta 7
             {| message_id := Some "run-1";
                message_content := Spec.reply_in_blocks;
                message_calls := None; message_kwargs := None;
                message_metadata := None |} "Hello, world" eq_refl eq_refl).
    + right. eexists. split; reflexivity.
    + intros Hblank. apply trim_empty in Hblank. discriminate Hblank.
  - apply (processAIMessage_text_delta 7
             {| message_id := None; message_content := Js.VStr Spec.white_text;
                message_calls := None; message_kwargs := None;
                message_metadata := None |} Spec.white_text eq_refl eq_refl).
    + left. reflexivity.
    + apply trim_empty. reflexivity.
Defined.

(** C3.  When [opts.allowTool] is present, the input of the turn is a resume
    command carrying [{action, data}] with an empty [data] and with action
    [continue] if the decision is [allow] and [update] otherwise; when it is
    absent, the input is one fresh [HumanMessage] holding the user text. *)
Theorem streamResponse_inputs (userText : string) (opts : option MessageOptions) :
  (forall decision,
      opts ≫= allowTool = Some decision ->
      exists action,
        inputs userText opts = Command {| action := action; resume_data := [] |}
        /\ (decision = allow -> action = "continue")
        /\ (decision <> allow -> action = "update"))
  /\ (opts ≫= allowTool = None ->
      inputs userText opts = Messages [HumanMessage userText None]).
Proof.
  unfold inputs. split.
  - intros decision ->. destruct decision; eexists; (split; [reflexivity |]);
      split; congruence.
  - intros ->. reflexivity.
Qed.

Lemma streamResponse_inputs_witness :
  inputs "" (Some {| model := None; tools := None; allowTool := Some allow;
                     approveAllTools := None |})
  = Command {| action := "continue"; resume_data := [] |}
  /\ inputs "hello" None = Messages [HumanMessage "hello" None].
Proof.
  split.
  - destruct (streamResponse_inputs ""
                (Some {| model := None; tools := None; allowTool := Some allow;
                         approveAllTools := None |})) as [Hresume _].
    destruct (Hresume allow eq_refl) as (action & Hinputs & Hallow & _).
    rewrite Hinputs, (Hallow eq_refl). reflexivity.
  - destruct (streamResponse_inputs "hello" None) as [_ Hfresh].
    apply Hfresh. reflexivity.
Defined.

(** C2 (the code departs from it).  After an interrupt, the turn that
    [streamResponse] builds for [allowTool = deny] resumes the approval gate
    with the action [update], not [feedback]: the gate hands over to [tools]
    with the call's arguments replaced by the empty payload, so the pending
    tool runs and no denial tool-result is recorded. *)
Example deny_resumes_into_tools :
  let turn := inputs "" (Some {| model := None; tools := None; allowTool := Some deny;
                                 approveAllTools := Some false |}) in
  turn = Command {| action := "update"; resume_data := [] |}
  /\ Builder.resume_turn Spec.sample_call turn
     = Some {| Builder.goto := Builder.tools;
               Builder.update :=
                 Builder.ModifiedToolCall {| call_id := Some "call_1";
                                             call_name := "web_fetch";
                                             call_args := [] |} |}
  /\ Builder.executes_tool (Builder.resume_turn Spec.sample_call turn) = true
  /\ Builder.records_denial (Builder.resume_turn Spec.sample_call turn) = false.
Proof. repeat split. Qed.

End AgentServiceProperties.

(** * Further properties of the code *)

(** ** The client store: writes *)

Section StorageProperties.
Import LocalStorage Storage.

Lemma bind_ok {A B} (a : A) (k : A -> Result B) : (Ok a ≫= k) = k a.
Proof. reflexivity. Qed.

Lemma append_inj_r (p a b : string) : p +:+ a = p +:+ b -> a = b.
Proof. induction p as [| c p IH]; cbn; [auto | intros [= H]; auto]. Qed.

Lemma messages_key_not_threads (t : string) : MESSAGES_KEY_PREFIX +:+ t <> THREADS_KEY.
Proof. cbn. discriminate. Qed.

Lemma messages_key_not_active (t : string) : MESSAGES_KEY_PREFIX +:+ t <> ACTIVE_THREAD_KEY.
Proof. cbn. discriminate. Qed.

Lemma serialize_array_text (items : list Js.Value) :
  (Js.serialize (Js.VArr items) =? "") = false.
Proof. reflexivity. Qed.

(** X1.  In a browser, the active-thread pointer reads back what was last
    written: a non-empty id after [setActiveThreadId(id)] when the browser
    accepts the write, [null] after [setActiveThreadId(null)] or
    [setActiveThreadId("")].  When the browser refuses the write,
    [setActiveThreadId(id)] throws to its caller.  A call that returns has
    changed neither the thread list nor any thread's messages. *)
Theorem active_thread_round_trip (JSON_parse : string -> Result Js.Value)
    (quota : gmap string string -> string -> string -> bool)
    (localStorage : gmap string string) (threadId : string) (next : option string) :
  threadId <> "" ->
  (quota localStorage ACTIVE_THREAD_KEY threadId = true ->
   exists host,
     setActiveThreadId quota (Window localStorage) (Some threadId) = Ok host
     /\ getActiveThreadId host = Some threadId)
  /\ (quota localStorage ACTIVE_THREAD_KEY threadId = false ->
      exists e, setActiveThreadId quota (Window localStorage) (Some threadId) = Throw e)
  /\ (exists host,
        setActiveThreadId quota (Window localStorage) None = Ok host
        /\ getActiveThreadId host = None)
  /\ (exists host,
        setActiveThreadId quota (Window localStorage) (Some "") = Ok host
        /\ getActiveThreadId host = None)
  /\ (forall host,
        setActiveThreadId quota (Window localStorage) next = Ok host ->
        getThreads JSON_parse host = getThreads JSON_parse (Window localStorage)
        /\ forall t, getMessages JSON_parse host t
                     = getMessages JSON_parse (Window localStorage) t).
Proof.
  intros Hid.
  assert (Hneq : (threadId =? "") = false) by (by apply String.eqb_neq).
  unfold setActiveThreadId, setItem. rewrite Hneq. cbn [negb].
  split; [| split; [| split; [| split]]].
  - intros ->. eexists. split; [reflexivity |]. cbn. by rewrite lookup_insert_eq.
  - intros ->. by eexists.
  - eexists. split; [reflexivity |]. cbn. by rewrite lookup_delete_eq.
  - eexists. split; [reflexivity |]. cbn. by rewrite lookup_delete_eq.
  - intros host Hset.
    assert (exists stored, host = Window stored
                           /\ stored !! THREADS_KEY = localStorage !! THREADS_KEY
                           /\ forall t, stored !! (MESSAGES_KEY_PREFIX +:+ t)
                                        = localStorage !! (MESSAGES_KEY_PREFIX +:+ t))
      as (stored & -> & Hthreads & Hmessages).
    { destruct next as [t |]; [destruct (t =? ""); cbn [negb] in Hset |].
      - injection Hset as <-. eexists. split; [reflexivity |].
        split; [| intros t'; pose proof (messages_key_not_active t')];
          by rewrite lookup_delete_ne.
      - destruct (quota localStorage ACTIVE_THREAD_KEY t); [| discriminate].
        injection Hset as <-. eexists. split; [reflexivity |].
        split; [| intros t'; pose proof (messages_key_not_active t')];
          by rewrite lookup_insert_ne.
      - injection Hset as <-. eexists. split; [reflexivity |].
        split; [| intros t'; pose proof (messages_key_not_active t')];
          by rewrite lookup_delete_ne. }
    cbn. rewrite Hthreads. split; [reflexivity |]. intros t. by rewrite Hmessages.
Qed.

Lemma active_thread_round_trip_witness :
  (exists host,
      setActiveThreadId Expect.unlimited (Window {[ ACTIVE_THREAD_KEY := "T0" ]}) (Some "T1")
      = Ok host
      /\ getActiveThreadId host = Some "T1")
  /\ (exists e,
        setActiveThreadId Expect.exhausted (Window {[ ACTIVE_THREAD_KEY := "T0" ]})
          (Some "T1")
        = Throw e).
Proof.
  split.
  - apply (active_thread_round_trip Spec.sample_parse Expect.unlimited
             {[ ACTIVE_THREAD_KEY := "T0" ]} "T1" None); [discriminate | reflexivity].
  - apply (active_thread_round_trip Spec.sample_parse Expect.exhausted
             {[ ACTIVE_THREAD_KEY := "T0" ]} "T1" None); [discriminate | reflexivity].
Defined.

Section WithHost.
Variable JSON_parse : string -> Result Js.Value.
Variable quota : gmap string string -> string -> string -> bool.

Lemma getThreads_stored (localStorage : gmap string string) (ts : list Js.Value) :
  localStorage !! THREADS_KEY = Some (Js.serialize (Js.VArr ts)) ->
  JSON_parse (Js.serialize (Js.VArr ts)) = Ok (Js.VArr ts) ->
  getThreads JSON_parse (Window localStorage) = Js.VArr ts.
Proof.
  intros Hstored Hparse. unfold getThreads. cbv zeta. rewrite Hstored.
  unfold parse_or_empty. rewrite serialize_array_text, Hparse. reflexivity.
Qed.

(** [saveThread] writes the thread list and nothing else. *)
Lemma saveThread_frame (nowISO : string) (localStorage : gmap string string)
    (thread : Js.Value) (key : string) :
  key <> THREADS_KEY ->
  Expect.storage_of (saveThread JSON_parse quota nowISO (Window localStorage) thread) !! key
  = localStorage !! key.
Proof.
  intros Hkey. cbn. unfold try_return, saveThread_try.
  destruct (as_array _) as [threads |]; cbn; [| reflexivity].
  destruct (findIndex _ threads) as [index |]; cbn; [| reflexivity].
  unfold setItem. destruct (quota _ _ _); [| reflexivity].
  by rewrite lookup_insert_ne.
Qed.

Lemma saveThread_window (nowISO : string) (localStorage : gmap string string)
    (thread : Js.Value) :
  saveThread JSON_parse quota nowISO (Window localStorage) thread
  = Window (Expect.storage_of
              (saveThread JSON_parse quota nowISO (Window localStorage) thread)).
Proof. reflexivity. Qed.

(** What [saveMessages] leaves under a key other than the thread list *)
Lemma saveMessages_lookup (nowISO : string) (localStorage : gmap string string)
    (threadId : string) (messages : list Js.Value) (key : string) :
  key <> THREADS_KEY ->
  Expect.storage_of
    (saveMessages JSON_parse quota nowISO (Window localStorage) threadId messages) !! key
  = if quota localStorage (MESSAGES_KEY_PREFIX +:+ threadId)
         (Js.serialize (Js.VArr messages))
    then <[MESSAGES_KEY_PREFIX +:+ threadId := Js.serialize (Js.VArr messages)]>
           localStorage !! key
    else localStorage !! key.
Proof.
  intros Hkey. unfold saveMessages, setItem.
  destruct (quota localStorage _ _); [| reflexivity].
  destruct (getThread _ _ _) as [thread |]; [| reflexivity].
  destruct (Js.truthy thread); [| reflexivity].
  by rewrite saveThread_frame.
Qed.

Lemma saveMessages_window (nowISO : string) (localStorage : gmap string string)
    (threadId : string) (messages : list Js.Value) :
  saveMessages JSON_parse quota nowISO (Window localStorage) threadId messages
  = Window (Expect.storage_of
              (saveMessages JSON_parse quota nowISO (Window localStorage) threadId messages)).
Proof.
  unfold saveMessages. destruct (setItem _ _ _ _); [| reflexivity].
  destruct (getThread _ _ _) as [thread |]; [| reflexivity].
  destruct (Js.truthy thread); reflexivity.
Qed.

(** X2.  When the browser accepts the write and the host's parser reads the
    serialised list back, [getMessages] after [saveMessages] returns the
    saved messages, whatever happens to the thread's timestamp.  When the
    browser refuses the write, [saveMessages] leaves the storage as it was.
    Whether or not the write succeeds, the messages of every other thread
    are left as they were. *)
Theorem saveMessages_round_trip (nowISO : string) (localStorage : gmap string string)
    (threadId : string) (messages : list Js.Value) :
  (quota localStorage (MESSAGES_KEY_PREFIX +:+ threadId)
     (Js.serialize (Js.VArr messages)) = true ->
   JSON_parse (Js.serialize (Js.VArr messages)) = Ok (Js.VArr messages) ->
   getMessages JSON_parse
     (saveMessages JSON_parse quota nowISO (Window localStorage) threadId messages) threadId
   = Js.VArr messages)
  /\ (quota localStorage (MESSAGES_KEY_PREFIX +:+ threadId)
        (Js.serialize (Js.VArr messages)) = false ->
      saveMessages JSON_parse quota nowISO (Window localStorage) threadId messages
      = Window localStorage)
  /\ (forall other,
        other <> threadId ->
        getMessages JSON_parse
          (saveMessages JSON_parse quota nowISO (Window localStorage) threadId messages) other
        = getMessages JSON_parse (Window localStorage) other).
Proof.
  split; [| split].
  - intros Hquota Hparse. rewrite saveMessages_window. cbn [getMessages].
    rewrite saveMessages_lookup by apply messages_key_not_threads.
    rewrite Hquota, lookup_insert_eq. unfold parse_or_empty.
    rewrite serialize_array_text, Hparse. reflexivity.
  - intros Hquota. unfold saveMessages, setItem. by rewrite Hquota.
  - intros other Hother. rewrite saveMessages_window. cbn [getMessages].
    rewrite saveMessages_lookup by apply messages_key_not_threads.
    destruct (quota _ _ _); [| reflexivity].
    rewrite lookup_insert_ne; [reflexivity |].
    intros Heq. apply append_inj_r in Heq. congruence.
Qed.

Lemma get_readable (t : Js.Value) (k : string) :
  Expect.readable t = true -> Js.get t k = Ok (Js.get_opt t k).
Proof. destruct t; cbn; try discriminate; reflexivity. Qed.

Lemma has_id_readable (v t : Js.Value) :
  Expect.readable t = true -> has_id v t = Ok (strict_eq (Js.get_opt t "id") v).
Proof. intros Ht. unfold has_id. by rewrite (get_readable t). Qed.

Lemma strict_eq_string (x : Js.Value) (i : string) :
  strict_eq x (Js.VStr i) = true <-> x = Js.VStr i.
Proof.
  destruct x; cbn; split; try discriminate; try congruence.
  - intros H. apply String.eqb_eq in H. by subst.
  - intros [= ->]. apply String.eqb_refl.
Qed.

Lemma id_is_other (i j : string) (t : Js.Value) :
  i <> j -> Expect.id_is i t = true -> Expect.id_is j t = false.
Proof.
  unfold Expect.id_is. intros Hne Hi. apply strict_eq_string in Hi. rewrite Hi. cbn.
  by apply String.eqb_neq.
Qed.

Lemma find_by_id (i : string) (ts : list Js.Value) :
  forallb Expect.readable ts = true ->
  find (has_id (Js.VStr i)) ts = Ok (List.find (Expect.id_is i) ts).
Proof.
  induction ts as [| t rest IH]; cbn; [reflexivity |].
  intros Hall. apply andb_true_iff in Hall as [Ht Hrest].
  rewrite (has_id_readable (Js.VStr i) t Ht). cbn.
  fold (Expect.id_is i t). destruct (Expect.id_is i t); [reflexivity | by apply IH].
Qed.

Lemma findIndex_by_id (i : string) (fields : list (string * Js.Value))
    (u : Js.Value) (ts : list Js.Value) :
  forallb Expect.readable ts = true ->
  Js.lookup_field "id" fields = Some (Js.VStr i) ->
  exists index,
    findIndex (fun t => id ← Js.get t "id";
                        mine ← Js.get (Js.VObj fields) "id";
                        Ok (strict_eq id mine)) ts = Ok index
    /\ match index with
       | Some k => <[k := u]> ts
       | None => u :: ts
       end = Expect.upsert i u ts.
Proof.
  intros Hall Hid. unfold Expect.upsert.
  set (p := fun t : Js.Value => _).
  assert (Hfound : exists index,
             findIndex p ts = Ok index
             /\ Expect.replace_first i u ts = (fun k => <[k := u]> ts) <$> index).
  { induction ts as [| t rest IH]; [by exists None |].
    cbn in Hall. apply andb_true_iff in Hall as [Ht Hrest].
    assert (Hp : p t = Ok (Expect.id_is i t)).
    { unfold p. rewrite (get_readable t) by exact Ht. cbn. by rewrite Hid. }
    cbn [findIndex Expect.replace_first]. rewrite Hp.
    destruct (Expect.id_is i t); [by exists (Some 0%nat) |].
    destruct (IH Hrest) as (index & Hindex & Hlist).
    change (Ok false ≫= _) with (findIndex p rest ≫= fun i => Ok (option_map S i)).
    rewrite Hindex, Hlist.
    destruct index as [k |]; [by exists (Some (S k)) | by exists None]. }
  destruct Hfound as (index & Hindex & ->).
  exists index. split; [exact Hindex |]. by destruct index.
Qed.

Lemma lookup_set_field_other (k k' : string) (v : Js.Value)
    (fields : list (string * Js.Value)) :
  k <> k' -> Js.lookup_field k' (set_field k v fields) = Js.lookup_field k' fields.
Proof.
  intros Hne. induction fields as [| [k0 v0] rest IH]; cbn.
  - by apply String.eqb_neq in Hne as ->.
  - destruct (k0 =? k) eqn:Hk0; cbn.
    + apply String.eqb_eq in Hk0 as ->. by apply String.eqb_neq in Hne as ->.
    + destruct (k0 =? k'); [reflexivity | exact IH].
Qed.

Lemma find_upsert (i : string) (u : Js.Value) (ts : list Js.Value) :
  Expect.id_is i u = true ->
  List.find (Expect.id_is i) (Expect.upsert i u ts) = Some u.
Proof.
  intros Hu. unfold Expect.upsert.
  destruct (Expect.replace_first i u ts) as [ts' |] eqn:Hreplace; cbn; [| by rewrite Hu].
  revert ts' Hreplace. induction ts as [| t rest IH]; cbn; [discriminate |].
  intros ts'. destruct (Expect.id_is i t) eqn:Ht.
  - intros [= <-]. cbn. by rewrite Hu.
  - destruct (Expect.replace_first i u rest); cbn; [| discriminate].
    intros [= <-]. cbn. rewrite Ht. by apply IH.
Qed.

Lemma find_upsert_other (i j : string) (u : Js.Value) (ts : list Js.Value) :
  i <> j -> Expect.id_is i u = true ->
  List.find (Expect.id_is j) (Expect.upsert i u ts) = List.find (Expect.id_is j) ts.
Proof.
  intros Hne Hu. pose proof (id_is_other i j u Hne Hu) as Hju. unfold Expect.upsert.
  destruct (Expect.replace_first i u ts) as [ts' |] eqn:Hreplace; cbn; [| by rewrite Hju].
  revert ts' Hreplace. induction ts as [| t rest IH]; cbn; [discriminate |].
  intros ts'. destruct (Expect.id_is i t) eqn:Ht.
  - intros [= <-]. cbn. by rewrite Hju, (id_is_other i j t Hne Ht).
  - destruct (Expect.replace_first i u rest); cbn; [| discriminate].
    intros [= <-]. cbn. destruct (Expect.id_is j t); [reflexivity | by apply IH].
Qed.

Lemma upsert_readable (i : string) (u : Js.Value) (ts : list Js.Value) :
  Expect.readable u = true -> forallb Expect.readable ts = true ->
  forallb Expect.readable (Expect.upsert i u ts) = true.
Proof.
  intros Hu Hall. unfold Expect.upsert.
  destruct (Expect.replace_first i u ts) as [ts' |] eqn:Hreplace; cbn;
    [| by rewrite Hu, Hall].
  revert ts' Hreplace Hall. induction ts as [| t rest IH]; cbn; [discriminate |].
  intros ts' Hreplace Hall. apply andb_true_iff in Hall as [Ht Hrest].
  destruct (Expect.id_is i t).
  - injection Hreplace as <-. cbn. by rewrite Hu, Hrest.
  - destruct (Expect.replace_first i u rest); cbn in *; [| discriminate].
    injection Hreplace as <-. cbn. rewrite Ht. by apply IH.
Qed.

Lemma upsert_length (i : string) (u : Js.Value) (ts : list Js.Value) :
  length (Expect.upsert i u ts)
  = if existsb (Expect.id_is i) ts then length ts else S (length ts).
Proof.
  unfold Expect.upsert.
  induction ts as [| t rest IH]; cbn; [reflexivity |].
  destruct (Expect.id_is i t); cbn; [reflexivity |].
  destruct (Expect.replace_first i u rest), (existsb (Expect.id_is i) rest);
    cbn in *; congruence.
Qed.

(** X3.  Let the stored thread list parse to an array without [null]
    entries, let the browser accept the write and the parser read the new
    list back.  Then [saveThread] stores the thread with [updatedAt] set to
    the current time, in the place of the first thread of the same id or in
    front of the list when the id is new; [getThread] of that id then returns
    it, and [getThread] of every other id returns what it returned before. *)
Theorem saveThread_then_getThread (nowISO : string) (localStorage : gmap string string)
    (fields : list (string * Js.Value)) (i : string) (ts : list Js.Value) :
  getThreads JSON_parse (Window localStorage) = Js.VArr ts ->
  forallb Expect.readable ts = true ->
  Js.lookup_field "id" fields = Some (Js.VStr i) ->
  let updated := Js.VObj (set_field "updatedAt" (Js.VStr nowISO) fields) in
  let threads := Expect.upsert i updated ts in
  let saved := saveThread JSON_parse quota nowISO (Window localStorage) (Js.VObj fields) in
  quota localStorage THREADS_KEY (Js.serialize (Js.VArr threads)) = true ->
  JSON_parse (Js.serialize (Js.VArr threads)) = Ok (Js.VArr threads) ->
  saved = Window (<[THREADS_KEY := Js.serialize (Js.VArr threads)]> localStorage)
  /\ getThread JSON_parse saved i = Ok updated
  /\ (forall j, j <> i ->
                getThread JSON_parse saved j = getThread JSON_parse (Window localStorage) j)
  /\ length threads = if existsb (Expect.id_is i) ts then length ts else S (length ts).
Proof.
  intros Hstored Hreadable Hid updated threads saved Hquota Hparse.
  assert (Hupdated : Expect.id_is i updated = true).
  { unfold Expect.id_is, updated. cbn.
    rewrite lookup_set_field_other by discriminate. rewrite Hid. cbn.
    apply String.eqb_refl. }
  assert (Hsaved : saved
                   = Window (<[THREADS_KEY := Js.serialize (Js.VArr threads)]> localStorage)).
  { unfold saved, saveThread, saveThread_try. rewrite Hstored.
    change (as_array (Js.VArr ts)) with (Ok ts). rewrite bind_ok.
    destruct (findIndex_by_id i fields updated ts Hreadable Hid) as (index & -> & Hlist).
    rewrite bind_ok. change (spread (Js.VObj fields)) with fields. fold updated.
    rewrite Hlist. fold threads. unfold setItem. rewrite Hquota. reflexivity. }
  assert (Hafter : getThreads JSON_parse saved = Js.VArr threads).
  { rewrite Hsaved. apply getThreads_stored; [apply lookup_insert_eq | exact Hparse]. }
  split; [exact Hsaved | split; [| split]].
  - unfold getThread. rewrite Hafter. cbn.
    rewrite find_by_id by (apply upsert_readable; [reflexivity | exact Hreadable]).
    cbn. unfold threads. by rewrite find_upsert.
  - intros j Hj. unfold getThread. rewrite Hafter, Hstored. cbn.
    rewrite !find_by_id by (try apply upsert_readable; auto).
    unfold threads. by rewrite find_upsert_other.
  - apply upsert_length.
Qed.

Lemma filter_by_id (i : string) (ts : list Js.Value) :
  forallb Expect.readable ts = true ->
  filter (fun t => same ← has_id (Js.VStr i) t; Ok (negb same)) ts
  = Ok (List.filter (fun t => negb (Expect.id_is i t)) ts).
Proof.
  induction ts as [| t rest IH]; [reflexivity |].
  cbn [forallb]. intros Hall. apply andb_true_iff in Hall as [Ht Hrest].
  cbn [filter List.filter]. rewrite (has_id_readable (Js.VStr i) t Ht), !bind_ok.
  fold (Expect.id_is i t). rewrite (IH Hrest), bind_ok.
  by destruct (Expect.id_is i t).
Qed.

Lemma find_removed (i : string) (ts : list Js.Value) :
  List.find (Expect.id_is i) (List.filter (fun t => negb (Expect.id_is i t)) ts) = None.
Proof.
  induction ts as [| t rest IH]; cbn; [reflexivity |].
  destruct (Expect.id_is i t) eqn:Ht; cbn; [exact IH | by rewrite Ht].
Qed.

Lemma find_kept (i j : string) (ts : list Js.Value) :
  i <> j ->
  List.find (Expect.id_is j) (List.filter (fun t => negb (Expect.id_is i t)) ts)
  = List.find (Expect.id_is j) ts.
Proof.
  intros Hne. induction ts as [| t rest IH]; cbn; [reflexivity |].
  destruct (Expect.id_is i t) eqn:Ht; cbn.
  - by rewrite (id_is_other i j t Hne Ht).
  - by destruct (Expect.id_is j t).
Qed.

Lemma filter_readable (f : Js.Value -> bool) (ts : list Js.Value) :
  forallb Expect.readable ts = true ->
  forallb Expect.readable (List.filter f ts) = true.
Proof.
  induction ts as [| t rest IH]; cbn; [reflexivity |].
  intros Hall. apply andb_true_iff in Hall as [Ht Hrest].
  destruct (f t); cbn; [rewrite Ht |]; by apply IH.
Qed.

(** X4.  Let the stored thread list parse to an array without [null]
    entries and let the browser accept the write.  Then [deleteThread] stores
    the list without the threads of that id, in their order, and removes the
    thread's messages: [getMessages] of the thread returns the empty list,
    the messages of other threads are untouched, and, once the parser reads
    the new list back, [getThread] of the id returns [null] while every
    other thread is found as before. *)
Theorem deleteThread_removes (localStorage : gmap string string) (threadId : string)
    (ts : list Js.Value) :
  getThreads JSON_parse (Window localStorage) = Js.VArr ts ->
  forallb Expect.readable ts = true ->
  let remaining := List.filter (fun t => negb (Expect.id_is threadId t)) ts in
  let deleted := deleteThread JSON_parse quota (Window localStorage) threadId in
  quota localStorage THREADS_KEY (Js.serialize (Js.VArr remaining)) = true ->
  deleted = Window (delete (MESSAGES_KEY_PREFIX +:+ threadId)
                      (<[THREADS_KEY := Js.serialize (Js.VArr remaining)]> localStorage))
  /\ getMessages JSON_parse deleted threadId = Js.VArr []
  /\ (forall other, other <> threadId ->
                    getMessages JSON_parse deleted other
                    = getMessages JSON_parse (Window localStorage) other)
  /\ (JSON_parse (Js.serialize (Js.VArr remaining)) = Ok (Js.VArr remaining) ->
      getThread JSON_parse deleted threadId = Ok Js.VNull
      /\ forall j, j <> threadId ->
                   getThread JSON_parse deleted j
                   = getThread JSON_parse (Window localStorage) j).
Proof.
  intros Hstored Hreadable remaining deleted Hquota.
  assert (Hdeleted : deleted
            = Window (delete (MESSAGES_KEY_PREFIX +:+ threadId)
                        (<[THREADS_KEY := Js.serialize (Js.VArr remaining)]> localStorage))).
  { unfold deleted, deleteThread, deleteThread_try. rewrite Hstored.
    change (as_array (Js.VArr ts)) with (Ok ts). rewrite bind_ok.
    rewrite (filter_by_id threadId ts Hreadable), bind_ok. fold remaining.
    unfold setItem. rewrite Hquota. reflexivity. }
  split; [exact Hdeleted |]. rewrite Hdeleted. split; [| split].
  - unfold getMessages. cbv zeta. by rewrite lookup_delete_eq.
  - intros other Hother. unfold getMessages. cbv zeta.
    rewrite lookup_delete_ne by (intros Heq; apply append_inj_r in Heq; congruence).
    by rewrite lookup_insert_ne by (symmetry; apply messages_key_not_threads).
  - intros Hparse.
    assert (Hafter : getThreads JSON_parse
                       (Window (delete (MESSAGES_KEY_PREFIX +:+ threadId)
                                  (<[THREADS_KEY := Js.serialize (Js.VArr remaining)]>
                                     localStorage)))
                     = Js.VArr remaining).
    { apply getThreads_stored; [| exact Hparse].
      rewrite lookup_delete_ne by apply messages_key_not_threads.
      apply lookup_insert_eq. }
    split.
    + unfold getThread. rewrite Hafter.
      change (as_array (Js.VArr remaining)) with (Ok remaining). rewrite bind_ok.
      rewrite find_by_id by (by apply filter_readable).
      unfold remaining. by rewrite bind_ok, find_removed.
    + intros j Hj. unfold getThread. rewrite Hafter, Hstored.
      change (as_array (Js.VArr remaining)) with (Ok remaining).
      change (as_array (Js.VArr ts)) with (Ok ts). rewrite !bind_ok.
      rewrite !find_by_id by (try apply filter_readable; auto).
      unfold remaining. rewrite find_kept by congruence. reflexivity.
Qed.

(** X5.  [getThread] has no [try]: it throws when the stored thread list
    parses to something that is not an array, where [saveThread] and
    [deleteThread] swallow the same error and change nothing.  When the
    browser refuses every write, [saveThread], [deleteThread] and
    [saveMessages] change nothing either; a refused [deleteThread] in
    particular leaves the thread's messages stored. *)
Theorem writes_do_nothing_on_failure (nowISO : string)
    (localStorage : gmap string string) (threadId : string) (thread : Js.Value)
    (messages : list Js.Value) :
  ((forall items, getThreads JSON_parse (Window localStorage) <> Js.VArr items) ->
   (exists e, getThread JSON_parse (Window localStorage) threadId = Throw e)
   /\ saveThread JSON_parse quota nowISO (Window localStorage) thread = Window localStorage
   /\ deleteThread JSON_parse quota (Window localStorage) threadId = Window localStorage)
  /\ ((forall key value, quota localStorage key value = false) ->
      saveThread JSON_parse quota nowISO (Window localStorage) thread = Window localStorage
      /\ deleteThread JSON_parse quota (Window localStorage) threadId = Window localStorage
      /\ saveMessages JSON_parse quota nowISO (Window localStorage) threadId messages
         = Window localStorage).
Proof.
  split.
  - intros Hshape.
    assert (Hthrow : exists e,
               as_array (getThreads JSON_parse (Window localStorage)) = Throw e).
    { destruct (getThreads JSON_parse (Window localStorage)) eqn:Hv; cbn; eauto.
      by destruct (Hshape items). }
    destruct Hthrow as [e He].
    unfold getThread, saveThread, saveThread_try, deleteThread, deleteThread_try.
    rewrite He. eauto.
  - intros Hrefused.
    unfold saveThread, saveThread_try, deleteThread, deleteThread_try, saveMessages, setItem.
    repeat split.
    + destruct (as_array _) as [threads |]; [| reflexivity]. rewrite bind_ok.
      destruct (findIndex _ threads); [| reflexivity].
      by rewrite bind_ok, Hrefused.
    + destruct (as_array _) as [threads |]; [| reflexivity]. rewrite bind_ok.
      destruct (filter _ threads); [| reflexivity].
      by rewrite bind_ok, Hrefused.
    + by rewrite Hrefused.
Qed.

End WithHost.

Lemma deleteThread_removes_witness :
  let before := [Expect.sample_thread "T1" "First"; Expect.sample_thread "T2" "Second"] in
  let after := [Expect.sample_thread "T1" "First"] in
  let parse := Expect.parse_among [Js.VArr before; Js.VArr after] in
  let stored : gmap string string :=
    {[ THREADS_KEY := Js.serialize (Js.VArr before);
       MESSAGES_KEY_PREFIX +:+ "T2" := "[{}]" ]} in
  getMessages parse (deleteThread parse Expect.unlimited (Window stored) "T2") "T2"
  = Js.VArr []
  /\ getThread parse (deleteThread parse Expect.unlimited (Window stored) "T2") "T2"
     = Ok Js.VNull.
Proof.
  intros before after parse stored.
  destruct (deleteThread_removes parse Expect.unlimited stored "T2" before
              eq_refl eq_refl eq_refl) as (_ & Hmessages & _ & Hthreads).
  split; [exact Hmessages | apply Hthreads; reflexivity].
Defined.

Lemma writes_do_nothing_on_failure_witness :
  let parse := Expect.parse_among [Js.VObj []; Js.VArr [Expect.sample_thread "T1" "First"]] in
  let misshapen : gmap string string :=
    {[ THREADS_KEY := "{}"; MESSAGES_KEY_PREFIX +:+ "T1" := "[]" ]} in
  let stored : gmap string string :=
    {[ THREADS_KEY := Js.serialize (Js.VArr [Expect.sample_thread "T1" "First"]);
       MESSAGES_KEY_PREFIX +:+ "T1" := "[]" ]} in
  (exists e, getThread parse (Window misshapen) "T1" = Throw e)
  /\ deleteThread parse Expect.exhausted (Window stored) "T1" = Window stored.
Proof.
  intros parse misshapen stored.
  split.
  - destruct (writes_do_nothing_on_failure parse Expect.unlimited
                "2026-11-01T00:00:00.000Z" misshapen "T1" Js.VNull []) as [Hshape _].
    apply Hshape. intros items. discriminate.
  - destruct (writes_do_nothing_on_failure parse Expect.exhausted
                "2026-11-01T00:00:00.000Z" stored "T1" Js.VNull []) as [_ Hrefused].
    apply Hrefused. reflexivity.
Defined.

Lemma saveThread_then_getThread_witness :
  let before := [Expect.sample_thread "T1" "First"; Expect.sample_thread "T2" "Second"] in
  let renamed := Js.VObj [("id", Js.VStr "T2"); ("title", Js.VStr "Renamed");
                          ("createdAt", Js.VStr "2026-10-01T08:00:00.000Z");
                          ("updatedAt", Js.VStr "2026-11-01T00:00:00.000Z")] in
  let after := [Expect.sample_thread "T1" "First"; renamed] in
  let parse := Expect.parse_among [Js.VArr before; Js.VArr after] in
  let stored : gmap string string := {[ THREADS_KEY := Js.serialize (Js.VArr before) ]} in
  getThread parse
    (saveThread parse Expect.unlimited "2026-11-01T00:00:00.000Z" (Window stored)
       (Js.VObj [("id", Js.VStr "T2"); ("title", Js.VStr "Renamed");
                 ("createdAt", Js.VStr "2026-10-01T08:00:00.000Z");
                 ("updatedAt", Js.VStr "2026-10-01T08:00:00.000Z")])) "T2"
  = Ok renamed.
Proof.
  intros before renamed after parse stored.
  apply (saveThread_then_getThread parse Expect.unlimited "2026-11-01T00:00:00.000Z" stored
           [("id", Js.VStr "T2"); ("title", Js.VStr "Renamed");
            ("createdAt", Js.VStr "2026-10-01T08:00:00.000Z");
            ("updatedAt", Js.VStr "2026-10-01T08:00:00.000Z")] "T2" before);
    reflexivity.
Defined.

Lemma saveMessages_round_trip_witness :
  let messages := [Js.VObj [("type", Js.VStr "human");
                            ("data", Js.VObj [("id", Js.VStr "m1");
                                              ("content", Js.VStr "hello")])]] in
  getMessages (Expect.parse_among [Js.VArr messages])
    (saveMessages (Expect.parse_among [Js.VArr messages]) Expect.unlimited
       "2026-11-01T00:00:00.000Z" (Window ∅) "T1" messages) "T1"
  = Js.VArr messages.
Proof.
  intros messages.
  destruct (saveMessages_round_trip (Expect.parse_among [Js.VArr messages])
              Expect.unlimited "2026-11-01T00:00:00.000Z" ∅ "T1" messages)
    as (Hsaved & _ & _).
  apply Hsaved; reflexivity.
Defined.

(** X6.  [clearAllData] removes exactly the keys that start with
    [stackpath_]: afterwards the thread list and every thread's messages
    read as empty and the active-thread pointer as [null], while every
    other key of the storage keeps its value. *)
Theorem clearAllData_clears (JSON_parse : string -> Result Js.Value)
    (localStorage : gmap string string) :
  (forall key, Expect.storage_of (clearAllData (Window localStorage)) !! key
               = if String.prefix "stackpath_" key then None else localStorage !! key)
  /\ getThreads JSON_parse (clearAllData (Window localStorage)) = Js.VArr []
  /\ (forall t, getMessages JSON_parse (clearAllData (Window localStorage)) t = Js.VArr [])
  /\ getActiveThreadId (clearAllData (Window localStorage)) = None.
Proof.
  assert (Hlookup : forall key,
             base.filter (fun kv : string * string =>
                            String.prefix "stackpath_" kv.1 = false) localStorage !! key
             = if String.prefix "stackpath_" key then None else localStorage !! key).
  { intros key. destruct (String.prefix "stackpath_" key) eqn:Hprefix.
    - apply map_lookup_filter_None. right. intros value _. cbn. congruence.
    - destruct (localStorage !! key) as [value |] eqn:Hvalue.
      + by apply map_lookup_filter_Some.
      + apply map_lookup_filter_None. by left. }
  split; [exact Hlookup |]. cbn. rewrite !Hlookup. repeat split.
  intros t. by rewrite Hlookup.
Qed.

End StorageProperties.

(** ** Validation and upload: beyond the size boundary *)

Section UploadMoreProperties.
Import Validation Upload FileType.

Lemma in_ALLOWED_MIME_TYPES_spec (t : string) :
  in_ALLOWED_MIME_TYPES t = true
  <-> In t (List.map fst ALLOWED_MIME_TYPES ++ OBJECT_PROTOTYPE_KEYS).
Proof.
  unfold in_ALLOWED_MIME_TYPES. rewrite orb_true_iff, in_app_iff.
  assert (Hincl : forall xs, includes t xs = true <-> In t xs).
  { intros xs. unfold includes. rewrite existsb_exists. split.
    - intros (x & Hin & Heq). apply String.eqb_eq in Heq. by subst.
    - intros Hin. exists t. split; [exact Hin | apply String.eqb_refl]. }
  rewrite Hincl. apply or_iff_compat_r.
  assert (Hown : forall table, is_Some (own_entry t table) <-> In t (List.map fst table)).
  { induction table as [| [k e] rest IH]; cbn.
    - split; [intros [? [=]] | tauto].
    - destruct (k =? t) eqn:Hk.
      + apply String.eqb_eq in Hk. split; eauto.
      + apply String.eqb_neq in Hk. rewrite IH. tauto. }
  rewrite <- Hown. apply bool_decide_eq_true.
Qed.

(** X7.  Acceptance is downward closed in the size: a file that
    [validateFile] accepts is still accepted with any smaller size, its name
    and type unchanged. *)
Theorem validateFile_smaller_accepted (file : File) (size : N) :
  validateFile file = None ->
  (size <= file_size file)%N ->
  validateFile (resized file size) = None.
Proof.
  destruct file as [name t s]. unfold validateFile, resized. cbn [file_name file_type file_size].
  intros Haccepted Hsize. revert Haccepted.
  destruct (t =? "application/octet-stream").
  - destruct (negb _); [discriminate |].
    destruct (N.ltb_spec MAX_OCTET_STREAM_SIZE s); [discriminate |]. intros _.
    destruct (N.ltb_spec MAX_OCTET_STREAM_SIZE size); [lia | reflexivity].
  - destruct (negb _); [discriminate |].
    destruct (maxSize_of t) as [limit |]; [| reflexivity].
    destruct (N.ltb_spec limit s); [discriminate |]. intros _.
    destruct (N.ltb_spec limit size); [lia | reflexivity].
Qed.

Lemma validateFile_smaller_accepted_witness :
  validateFile {| file_name := "photo.JPG"; file_type := "image/jpeg"; file_size := 0 |}
  = None.
Proof.
  apply (validateFile_smaller_accepted
           {| file_name := "photo.JPG"; file_type := "image/jpeg";
              file_size := 5 * 1024 * 1024 |} 0%N); [reflexivity | discriminate].
Defined.

(** X8.  For a file whose name, when its type is
    [application/octet-stream], is made of ASCII characters: [validateFile]
    answers with an error on the [type] field exactly when the type is
    [application/octet-stream] and the lower-cased last segment of the name
    is none of [md], [markdown], [txt], or the type is another one that
    [ALLOWED_MIME_TYPES] neither lists nor inherits; the size plays no part
    in it. *)
Theorem validateFile_type_rejection (file : File) :
  (file_type file = "application/octet-stream" -> Js.is_ascii (file_name file) = true) ->
  (exists e, validateFile file = Some e /\ field e = "type")
  <-> (file_type file = "application/octet-stream"
       /\ ~ In (lower_extension (file_name file)) OCTET_STREAM_ALLOWED_EXTENSIONS)
      \/ (file_type file <> "application/octet-stream"
          /\ ~ In (file_type file)
                 (List.map fst ALLOWED_MIME_TYPES ++ OBJECT_PROTOTYPE_KEYS)).
Proof.
  intros _.
  assert (Hincl : forall x xs, includes x xs = true <-> In x xs).
  { intros x xs. unfold includes. rewrite existsb_exists. split.
    - intros (y & Hin & Heq). apply String.eqb_eq in Heq. by subst.
    - intros Hin. exists x. split; [exact Hin | apply String.eqb_refl]. }
  unfold validateFile.
  destruct (file_type file =? "application/octet-stream") eqn:Htype.
  - apply String.eqb_eq in Htype.
    destruct (includes _ OCTET_STREAM_ALLOWED_EXTENSIONS) eqn:Hext; cbn [negb].
    + apply Hincl in Hext. split.
      * destruct (_ <? _)%N; [intros (e & [= <-] & Hfield) | intros (e & [=] & _)].
        discriminate Hfield.
      * intros [[_ Hno] | [Hother _]]; contradiction.
    + split; [| eauto]. intros _. left. split; [exact Htype |].
      intros Hin. apply Hincl in Hin. congruence.
  - apply String.eqb_neq in Htype.
    destruct (in_ALLOWED_MIME_TYPES (file_type file)) eqn:Hallowed; cbn [negb].
    + apply in_ALLOWED_MIME_TYPES_spec in Hallowed. split.
      * destruct (maxSize_of _) as [limit |]; [| intros (e & [=] & _)].
        destruct (_ <? _)%N; [intros (e & [= <-] & Hfield) | intros (e & [=] & _)].
        discriminate Hfield.
      * intros [[Hoctet _] | [_ Hno]]; contradiction.
    + split; [| eauto]. intros _. right. split; [exact Htype |].
      intros Hin. apply in_ALLOWED_MIME_TYPES_spec in Hin. congruence.
Qed.

Lemma validateFile_type_rejection_witness :
  exists e,
    validateFile {| file_name := "holiday.TXT.exe";
                    file_type := "application/octet-stream";
                    file_size := 1024 |} = Some e
    /\ field e = "type".
Proof.
  apply (validateFile_type_rejection
           {| file_name := "holiday.TXT.exe"; file_type := "application/octet-stream";
              file_size := 1024 |}); [reflexivity |].
  left. split; [reflexivity |]. cbn. intros [H | [H | [H | []]]]; discriminate H.
Defined.

(** X9.  The allow-list is consulted with the [in] operator, which also
    answers true for the names every object inherits: a file whose MIME type
    is such a name ([constructor], [toString], [__proto__], ...) passes
    [validateFile] whatever its size, for the inherited value has no
    [maxSize] to compare with. *)
Theorem inherited_type_passes (file : File) :
  In (file_type file) OBJECT_PROTOTYPE_KEYS -> validateFile file = None.
Proof.
  destruct file as [name t size]. cbn [file_type]. intros Hin. cbn in Hin.
  repeat (destruct Hin as [<- | Hin]; [reflexivity |]). destruct Hin.
Qed.

Lemma inherited_type_passes_witness :
  validateFile {| file_name := "payload.exe"; file_type := "constructor";
                  file_size := 1024 * 1024 * 1024 |} = None.
Proof.
  apply (inherited_type_passes
           {| file_name := "payload.exe"; file_type := "constructor";
              file_size := 1024 * 1024 * 1024 |}).
  cbn. auto.
Defined.

Lemma own_entry_cases (t : string) (e : MimeEntry) :
  own_entry t ALLOWED_MIME_TYPES = Some e ->
  In (t, e) ALLOWED_MIME_TYPES.
Proof.
  unfold ALLOWED_MIME_TYPES. cbn [own_entry].
  repeat match goal with
         | |- context [if ?k =? t then _ else _] =>
             let E := fresh "E" in
             destruct (k =? t) eqn:E;
             [apply String.eqb_eq in E; subst t; intros [= <-]; cbn; tauto |]
         end.
  discriminate.
Qed.

(** X10.  [getFileExtension] returns the table's extension for a listed
    type, [undefined] for a name the table only inherits, and otherwise the
    text between the first and the second [/] of the type, or [bin] when that
    text is missing or empty; it never returns the empty string. *)
Theorem getFileExtension_never_empty (mimeType : string) :
  (forall e, own_entry mimeType ALLOWED_MIME_TYPES = Some e ->
             getFileExtension mimeType = Some (ext e))
  /\ (In mimeType OBJECT_PROTOTYPE_KEYS -> getFileExtension mimeType = None)
  /\ (~ In mimeType (List.map fst ALLOWED_MIME_TYPES ++ OBJECT_PROTOTYPE_KEYS) ->
      getFileExtension mimeType
      = Some (match Js.split "/" mimeType with
              | _ :: segment :: _ => if segment =? "" then "bin" else segment
              | _ => "bin"
              end))
  /\ (forall s, getFileExtension mimeType = Some s -> s <> "").
Proof.
  unfold getFileExtension. split; [| split; [| split]].
  - intros e He.
    assert (in_ALLOWED_MIME_TYPES mimeType = true) as ->.
    { apply in_ALLOWED_MIME_TYPES_spec, in_app_iff. left.
      apply own_entry_cases in He. apply (in_map fst) in He. exact He. }
    by rewrite He.
  - intros Hin. cbn in Hin.
    repeat (destruct Hin as [<- | Hin]; [reflexivity |]). destruct Hin.
  - intros Hno.
    destruct (in_ALLOWED_MIME_TYPES mimeType) eqn:Hallowed.
    + apply in_ALLOWED_MIME_TYPES_spec in Hallowed. contradiction.
    + unfold second. by destruct (Js.split "/" mimeType) as [| ? [| ? ?]].
  - intros s. destruct (in_ALLOWED_MIME_TYPES mimeType).
    + destruct (own_entry mimeType ALLOWED_MIME_TYPES) as [e |] eqn:He; [| discriminate].
      apply own_entry_cases in He. cbn. intros [= <-]. cbn in He.
      repeat (destruct He as [[= <- <-] | He]; [discriminate |]). destruct He.
    + intros [= <-]. destruct (second _) as [segment |]; [| discriminate].
      destruct (segment =? "") eqn:Hsegment; [discriminate |].
      by apply String.eqb_neq.
Qed.

(** X11.  The upload handler answers 400 exactly when the request carries no
    file or [validateFile] rejects it, 200 exactly when it answers with the
    stored object's description, and 500 exactly when it reports an error on
    the [server] field; it answers with no other status. *)
Theorem POST_status (env : Env) (request : NextRequest) :
  let response := POST env request in
  (status response = 400 <->
   request = Ok None
   \/ exists upload e, request = Ok (Some upload) /\ validateFile (meta upload) = Some e)
  /\ (status response = 200 <->
      exists url key name type size, json response = SuccessJson url key name type size)
  /\ (status response = 500 <-> exists text, json response = ErrorJson text "server")
  /\ (status response = 200 \/ status response = 400 \/ status response = 500).
Proof.
  cbv zeta. unfold POST, POST_try.
  destruct request as [[upload |] | e]; cbn.
  - destruct (validateFile (meta upload)) as [err |] eqn:Hvalid.
    + cbn. apply validateFile_fields in Hvalid as Hfield.
      repeat split; try (intros; discriminate); eauto.
      * intros (? & ? & ? & ? & ? & [=]).
      * intros (text & [= _ Hserver]). destruct Hfield; congruence.
    + destruct (arrayBuffer upload) as [buffer | e]; cbn.
      * unfold isValidTextContent. cbn [negb]. rewrite andb_false_r.
        unfold uploadLargeFile, uploadFile.
        destruct (5 * 1024 * 1024 <? file_size (meta upload))%N;
          [destruct (upload_done env _) | destruct (s3_send env _)]; cbn;
          repeat split; try (intros; discriminate); eauto 8;
          try (intros [[=] | (u & e' & [= <-] & Hv)]; congruence);
          try (intros (text & [=]));
          try (intros (? & ? & ? & ? & ? & [=])).
      * repeat split; try (intros; discriminate); eauto.
        -- intros [[=] | (u & e' & [= <-] & Hv)]. congruence.
        -- intros (? & ? & ? & ? & ? & [=]).
  - repeat split; try (intros; discriminate); eauto.
    + intros (? & ? & ? & ? & ? & [=]).
    + intros (text & [=]).
  - repeat split; try (intros; discriminate); eauto.
    + intros [[=] | (u & e' & [=] & _)].
    + intros (? & ? & ? & ? & ? & [=]).
Qed.

(** X12.  Which store call an accepted upload makes depends on its size
    alone: up to 5MB the single-request upload, above it the multipart one,
    so that the answer does not depend on the other call.  An accepted file
    of a listed image or text type, or an accepted [application/octet-stream]
    file, never exceeds 5MB and is therefore never sent as multipart. *)
Theorem multipart_only_above_5MB (env env' : Env) (upload : FormFile) :
  S3_ENDPOINT env = S3_ENDPOINT env' ->
  BUCKET_NAME env = BUCKET_NAME env' ->
  randomUUID env = randomUUID env' ->
  validateFile (meta upload) = None ->
  ((file_size (meta upload) <= 5 * 1024 * 1024)%N ->
   (forall object, s3_send env object = s3_send env' object) ->
   POST env (Ok (Some upload)) = POST env' (Ok (Some upload)))
  /\ ((5 * 1024 * 1024 < file_size (meta upload))%N ->
      (forall object, upload_done env object = upload_done env' object) ->
      POST env (Ok (Some upload)) = POST env' (Ok (Some upload)))
  /\ (In (file_type (meta upload))
         ["image/png"; "image/jpeg"; "image/jpg"; "text/markdown"; "text/plain";
          "application/octet-stream"] ->
      (file_size (meta upload) <= 5 * 1024 * 1024)%N).
Proof.
  intros Hendpoint Hbucket Huuid Hvalid.
  assert (Hparams : forall buffer key contentType name,
             put_params env buffer key contentType name
             = put_params env' buffer key contentType name).
  { intros. unfold put_params. by rewrite Hbucket. }
  assert (Hurl : forall key, public_url env key = public_url env' key).
  { intros. unfold public_url. by rewrite Hendpoint, Hbucket. }
  split; [| split].
  - intros Hsmall Hsend. unfold POST, POST_try. cbn. rewrite Hvalid.
    destruct (arrayBuffer upload) as [buffer |]; cbn; [| reflexivity].
    unfold isValidTextContent. cbn [negb]. rewrite andb_false_r.
    destruct (N.ltb_spec (5 * 1024 * 1024) (file_size (meta upload))); [lia |].
    unfold uploadFile. by rewrite Huuid, Hparams, Hsend, Hurl.
  - intros Hlarge Hdone. unfold POST, POST_try. cbn. rewrite Hvalid.
    destruct (arrayBuffer upload) as [buffer |]; cbn; [| reflexivity].
    unfold isValidTextContent. cbn [negb]. rewrite andb_false_r.
    destruct (N.ltb_spec (5 * 1024 * 1024) (file_size (meta upload))); [| lia].
    unfold uploadLargeFile. by rewrite Huuid, Hparams, Hdone, Hurl.
  - revert Hvalid. destruct (meta upload) as [name t size]. cbn [file_type file_size].
    intros Hvalid Hin. cbn in Hin.
    repeat (destruct Hin as [<- | Hin];
            [revert Hvalid; unfold validateFile; cbn;
             repeat match goal with
                    | |- context [if ?b then _ else _] => destruct b eqn:?
                    end;
             try discriminate; intros _;
             repeat match goal with
                    | H : (_ <? _)%N = false |- _ => apply N.ltb_ge in H
                    end;
             unfold MAX_OCTET_STREAM_SIZE in *; lia |]).
    destruct Hin.
Qed.

Lemma multipart_only_above_5MB_witness :
  let failing_multipart :=
    {| S3_ENDPOINT := S3_ENDPOINT Spec.accepting_store;
       BUCKET_NAME := BUCKET_NAME Spec.accepting_store;
       randomUUID := randomUUID Spec.accepting_store;
       s3_send := s3_send Spec.accepting_store;
       upload_done := fun _ => Throw (HostError "multipart upload failed") |} in
  POST failing_multipart Spec.binary_upload = POST Spec.accepting_store Spec.binary_upload.
Proof.
  intros failing_multipart.
  destruct (multipart_only_above_5MB failing_multipart Spec.accepting_store
              {| meta := Spec.notes_txt 3; arrayBuffer := Ok Spec.binary_bytes |}
              eq_refl eq_refl eq_refl eq_refl) as (Hsmall & _ & _).
  apply Hsmall; [vm_compute; discriminate | reflexivity].
Defined.

End UploadMoreProperties.

(** ** The tool registry loader: malformed and repeated entries *)

Section McpMoreProperties.
Import Mcp.
Variable JSON_parse : string -> Result Js.Value.

Lemma load_servers_null (servers : list Js.Value) :
  Js.VNull ∈ servers ->
  forall configs : gmap string MCPServerConfig,
    exists e, load_servers configs servers = Throw e.
Proof.
  induction servers as [| server rest IH]; intros Hin configs.
  - by apply not_elem_of_nil in Hin.
  - cbn [load_servers]. apply elem_of_cons in Hin as [<- | Hin]; [cbn; eauto |].
    destruct (load_server configs server) as [configs' | e]; cbn; [by apply IH | eauto].
Qed.

Lemma load_server_readable (configs : gmap string MCPServerConfig) (server : Js.Value) :
  Expect.readable server = true ->
  load_server configs server
  = Ok (if Js.truthy (Js.get_opt server "enabled")
        then match Expect.entry_of server with
             | Some config => assign (Js.get_opt server "name") config configs
             | None => configs
             end
        else configs).
Proof.
  intros Hreadable.
  assert (Hget : forall k, Js.get server k = Ok (Js.get_opt server k)).
  { destruct server; cbn in *; try discriminate; reflexivity. }
  unfold load_server, Expect.entry_of. rewrite !Hget; cbn.
  destruct (Js.truthy (Js.get_opt server "enabled")); cbn; [| reflexivity].
  destruct (is_string (Js.get_opt server "type") "stdio"
            && Js.truthy (Js.get_opt server "command")); cbn; [reflexivity |].
  destruct (is_string (Js.get_opt server "type") "http"
            && Js.truthy (Js.get_opt server "url")); reflexivity.
Qed.

Lemma load_servers_app (xs ys : list Js.Value) :
  forall configs : gmap string MCPServerConfig,
    load_servers configs (xs ++ ys)
    = (configs' ← load_servers configs xs; load_servers configs' ys).
Proof.
  induction xs as [| x rest IH]; intros configs; [reflexivity |].
  cbn [app load_servers].
  destruct (load_server configs x) as [configs' |]; cbn; [apply IH | reflexivity].
Qed.

Lemma load_servers_readable (servers : list Js.Value) :
  forallb Expect.readable servers = true ->
  forall configs : gmap string MCPServerConfig,
    exists result, load_servers configs servers = Ok result.
Proof.
  induction servers as [| server rest IH]; intros Hall configs; [by eexists |].
  cbn in Hall. apply andb_true_iff in Hall as [Hserver Hrest].
  cbn [load_servers]. rewrite load_server_readable by exact Hserver. cbn.
  by apply IH.
Qed.

(** Servers that do not record under [key] leave its entry alone. *)
Lemma load_servers_keeps (key : string) (servers : list Js.Value) :
  forallb Expect.readable servers = true ->
  (forall server, server ∈ servers ->
                  Expect.key_of server = key ->
                  Js.truthy (Js.get_opt server "enabled") = false
                  \/ Expect.entry_of server = None) ->
  forall configs result : gmap string MCPServerConfig,
    load_servers configs servers = Ok result ->
    result !! key = configs !! key.
Proof.
  induction servers as [| server rest IH]; intros Hall Hsilent configs result.
  - by intros [= <-].
  - cbn in Hall. apply andb_true_iff in Hall as [Hserver Hrest].
    cbn [load_servers]. rewrite load_server_readable by exact Hserver. cbn.
    intros Hload. erewrite IH; [| exact Hrest | | exact Hload].
    + destruct (Js.truthy (Js.get_opt server "enabled")) eqn:Henabled; [| reflexivity].
      destruct (Expect.entry_of server) as [config |] eqn:Hentry; [| reflexivity].
      apply assign_lookup. intros Hkey.
      destruct (Hsilent server (list_elem_of_here _ _) Hkey); congruence.
    + intros s Hin. apply Hsilent. by apply list_elem_of_further.
Qed.

(** X13.  One [null] entry in the [servers] array costs the whole
    configuration: the loop throws on it, the [catch] answers with the empty
    configuration, and the servers read before it are lost, so that
    [getMCPTools] returns no tools. *)
Theorem null_entry_empties_config {Client Tool : Type}
    (MultiServerMCPClient : gmap string MCPServerConfig -> Result Client)
    (getTools : Client -> Result (list Tool))
    (file : ConfigFile) (text : string) (document : Js.Value)
    (servers : list Js.Value) :
  existsSync file = true ->
  readFileSync file = Ok text ->
  JSON_parse text = Ok document ->
  Js.get document "servers" = Ok (Js.VArr servers) ->
  Js.VNull ∈ servers ->
  getMCPServerConfigs JSON_parse file = ∅
  /\ getMCPTools JSON_parse MultiServerMCPClient getTools file = [].
Proof.
  intros Hexists Hread Hparse Hservers Hnull.
  assert (Hempty : getMCPServerConfigs JSON_parse file = ∅).
  { rewrite (readable_config JSON_parse file text document servers) by assumption.
    destruct (load_servers_null servers Hnull ∅) as [e ->]. reflexivity. }
  split; [exact Hempty |].
  unfold getMCPTools, createMCPClient. by rewrite Hempty.
Qed.


End McpMoreProperties.

Lemma null_entry_empties_config_witness :
  let servers := Spec.sample_servers ++ [Js.VNull] in
  let document := Js.VObj [("servers", Js.VArr servers)] in
  let file := {| Mcp.existsSync := true; Mcp.readFileSync := Ok (Js.serialize document) |} in
  Mcp.getMCPServerConfigs (Expect.parse_among [document]) file = ∅.
Proof.
  intros servers document file.
  apply (null_entry_empties_config (Expect.parse_among [document])
           Spec.sample_client Spec.sample_tools file (Js.serialize document)
           document servers eq_refl eq_refl eq_refl eq_refl).
  apply list_elem_of_In. cbn. auto.
Defined.


(** ** The memory hydrator: reads, isolation, every kind of item *)

Section MemoryMoreProperties.
Import Message Memory ExpectMemory.

Lemma getHistory_result {St : Type} `{CheckpointSaver St} (threadId : string)
    (saver : St) (events : list Event) :
  exists events',
    getHistory threadId saver events
    = (Ok match saver_get saver threadId with
          | Ok (Some checkpoint) => default [] (channel_values_messages checkpoint)
          | Ok None | Throw _ => []
          end, saver, events').
Proof.
  unfold getHistory, try_catch, mbind, eff_bind, get, emit, mret, eff_ret.
  destruct (saver_get saver threadId) as [[checkpoint |] | e]; cbn; eauto.
Qed.

(** X15.  [getHistory] never throws and leaves the saver as it is: it
    returns the message list of the thread's checkpoint, and the empty list
    when the saver fails, when the thread has no checkpoint, or when the
    checkpoint holds no message list. *)
Theorem getHistory_degrades {St : Type} `{CheckpointSaver St} (threadId : string)
    (saver : St) (events : list Event) :
  exists messages events',
    getHistory threadId saver events = (Ok messages, saver, events')
    /\ messages = match saver_get saver threadId with
                  | Ok (Some checkpoint) => default [] (channel_values_messages checkpoint)
                  | Ok None | Throw _ => []
                  end.
Proof.
  destruct (getHistory_result threadId saver events) as [events' ->]. eauto.
Qed.

Lemma hydrate_saver (clock : Clock) (threadId : string)
    (history : option (list MessageResponse)) (saver : MemorySaver) :
  saver_of (hydrateMemoryFromHistory clock threadId history saver []) = saver
  \/ exists checkpoints,
       saver_of (hydrateMemoryFromHistory clock threadId history saver [])
       = <[threadId := checkpoints]> saver.
Proof.
  destruct history as [[| item rest] |]; [by left | | by left].
  pose proof (hydrate_run clock threadId item rest saver) as Hrun. cbv zeta in Hrun.
  destruct (result_map messageResponseToBaseMessage (item :: rest)).
  - destruct Hrun as (line & -> & _). right. eexists. reflexivity.
  - rewrite Hrun. by left.
Qed.

(** X16.  Hydration touches one thread only: after hydrating a memory saver
    for a thread, [getHistory] of every other thread returns what it returned
    before. *)
Theorem hydration_isolated (clock : Clock) (threadId other : string)
    (history : option (list MessageResponse)) (saver : MemorySaver)
    (events events' : list Event) :
  other <> threadId ->
  result_of (getHistory other
               (saver_of (hydrateMemoryFromHistory clock threadId history saver []))
               events)
  = result_of (getHistory other saver events').
Proof.
  intros Hother.
  destruct (getHistory_result other
              (saver_of (hydrateMemoryFromHistory clock threadId history saver []))
              events) as (? & ->).
  destruct (getHistory_result other saver events') as (? & ->).
  unfold result_of. cbn. f_equal.
  destruct (hydrate_saver clock threadId history saver) as [-> | [checkpoint ->]];
    [reflexivity |].
  unfold MemorySaver in *. by rewrite lookup_insert_ne.
Qed.

Lemma hydration_isolated_witness :
  result_of (getHistory "T2"
               (saver_of (hydrateMemoryFromHistory Spec.sample_clock "T1"
                            (Some Spec.sample_history) createMemorySaver []))
               [])
  = Ok [].
Proof.
  rewrite (hydration_isolated Spec.sample_clock "T1" "T2" (Some Spec.sample_history)
             createMemorySaver [] []); [reflexivity | discriminate].
Defined.

Lemma payload_item_converts (item : MessageResponse) :
  is_Some (data item) ->
  exists message, messageResponseToBaseMessage item = Ok message
                  /\ hydrated_as item message.
Proof.
  destruct item as [t [d |]]; intros [d' Hd]; [| discriminate].
  unfold messageResponseToBaseMessage, payload, hydrated_as. cbn.
  destruct t; cbn; eexists; (split; [reflexivity |]); exists d; cbn;
    repeat split; by intros s ->.
Qed.

(** X17.  On a saver that stores the checkpoint of the hydration and returns
    it on the next read of the thread, every non-empty history whose items
    all carry their payload is hydrated in full and in order, whatever the
    items' types and contents: an [error] item is stored as a [HumanMessage]
    like a [human] one, an item whose content is a list of content items is
    stored as well, and a content that is a string is kept as it is. *)
Theorem hydrate_every_item {St : Type} `{CheckpointSaver St} (clock : Clock) (saver : St)
    (threadId : string) (history : list MessageResponse) :
  history <> [] ->
  Forall (fun item => is_Some (data item)) history ->
  Spec.reads_back saver threadId ("hydrated-" +:+ Js.dec (now clock)) ->
  exists messages,
    result_of (getHistory threadId
                 (saver_of (hydrateMemoryFromHistory clock threadId (Some history) saver []))
                 [])
    = Ok messages
    /\ Forall2 hydrated_as history messages.
Proof.
  intros Hne Hpayload Hreads.
  destruct (result_map_Forall2 messageResponseToBaseMessage hydrated_as history)
    as (messages & Hmap & Hall).
  { eapply Forall_impl; [exact Hpayload |]. apply payload_item_converts. }
  destruct history as [| item rest]; [contradiction |].
  pose proof (hydrate_run clock threadId item rest saver) as Hrun.
  cbv zeta in Hrun. rewrite Hmap in Hrun. destruct Hrun as (line & -> & _).
  exists messages. split; [| exact Hall].
  edestruct Hreads as (stored & Hput & Hget); [| rewrite Hput]; [reflexivity |].
  unfold saver_of. cbn [fst snd].
  destruct (getHistory_result threadId stored []) as (? & ->).
  unfold result_of. cbn [fst snd]. by rewrite Hget.
Qed.

Lemma hydrate_every_item_witness :
  exists messages,
    result_of (getHistory "T1"
                 (saver_of (hydrateMemoryFromHistory Spec.sample_clock "T1"
                              (Some mixed_history) createMemorySaver []))
                 [])
    = Ok messages
    /\ Forall2 hydrated_as mixed_history messages.
Proof.
  apply (hydrate_every_item Spec.sample_clock createMemorySaver "T1" mixed_history).
  - discriminate.
  - repeat constructor; by eexists.
  - apply fresh_thread_reads_back. reflexivity.
Defined.

End MemoryMoreProperties.

(** ** The stream of a turn *)

Section StreamProperties.
Import Message AgentService Stream ExpectStream.

Lemma processAIMessage_delta (now : Z) (message : GraphMessage) (delta : MessageResponse) :
  processAIMessage now message = Some delta -> assistant_text_delta delta.
Proof.
  unfold processAIMessage, assistant_text_delta.
  destruct (hasToolCall message).
  - intros [= <-]. split; [reflexivity |]. cbn. eauto.
  - cbv zeta. destruct (negb _); [| discriminate].
    intros [= <-]. split; [reflexivity |]. cbn. eauto.
Qed.

Lemma imap_deltas (P : MessageResponse -> Prop) (messages : list GraphMessage) :
  forall f : nat -> GraphMessage -> option MessageResponse,
    (forall n message delta, f n message = Some delta -> P delta) ->
    Forall P (omap (fun delta => delta) (imap f messages)).
Proof.
  induction messages as [| message rest IH]; intros f Hf; [constructor |].
  cbn. destruct (f 0%nat message) as [delta |] eqn:Hdelta.
  - constructor; [by eapply Hf |]. apply IH. intros n. apply Hf.
  - apply IH. intros n. apply Hf.
Qed.

Lemma ai_messages_app (before after : list Dyn) :
  ai_messages (before ++ after) = ai_messages before ++ ai_messages after.
Proof. unfold ai_messages. apply flat_map_app. Qed.

(** X18.  An assistant message with a function-call item always yields a
    delta, and that delta carries the empty string as content: text items
    that stand beside the function call are not streamed.  The tool calls
    and both metadata records are passed on as they are. *)
Theorem tool_call_delta_drops_text (now : Z) (message : GraphMessage) :
  hasToolCall message = true ->
  processAIMessage now message
  = Some {| type := ai;
            data := Some {| id := delta_id now message;
                            content := Text "";
                            tool_calls := message_calls message;
                            additional_kwargs := message_kwargs message;
                            response_metadata := message_metadata message |} |}.
Proof.
  intros Hcall. unfold processAIMessage. rewrite Hcall.
  unfold hasToolCall in Hcall.
  destruct (message_content message); try discriminate. reflexivity.
Qed.

Lemma tool_call_delta_drops_text_witness :
  processAIMessage 1700000000000 calling_message
  = Some {| type := ai;
            data := Some {| id := "run-1";
                            content := Text "";
                            tool_calls := message_calls calling_message;
                            additional_kwargs := None;
                            response_metadata := None |} |}.
Proof.
  apply (tool_call_delta_drops_text 1700000000000 calling_message). reflexivity.
Defined.

(** X19.  Whatever the agent and its stream are, every delta that
    [streamResponse] yields is an assistant delta whose content is a string:
    no human, tool or error item and no structured content reaches the
    client through the stream. *)
Theorem streamed_deltas_are_assistant {Tool Graph : Type}
    (ensureAgent : option (@Agent.AgentConfigOptions Tool) -> option string ->
                   option (list MessageResponse) -> Result Graph)
    (stream : Graph -> Inputs -> string -> Result Iterable) (as_tool : string -> Tool)
    (clock : nat -> Z) (threadId userText : string) (history : list MessageResponse)
    (opts : option MessageOptions) (deltas : list MessageResponse)
    (failure : option JsError) :
  streamResponse ensureAgent stream as_tool clock threadId userText history opts
  = Ok (deltas, failure) ->
  Forall assistant_text_delta deltas.
Proof.
  unfold streamResponse. cbv zeta.
  destruct (ensureAgent _ _ _) as [agent |]; [| discriminate].
  rewrite bind_ok.
  destruct (stream agent _ threadId) as [iterable |]; [| discriminate].
  rewrite bind_ok. intros [= <- _].
  apply imap_deltas. intros n message delta. apply processAIMessage_delta.
Qed.

Lemma streamed_deltas_are_assistant_witness :
  Forall assistant_text_delta
    (generator (fun n => (1700000000000 + Z.of_nat n)%Z) sample_turn).
Proof.
  apply (streamed_deltas_are_assistant (Tool := string) (Graph := unit)
           (fun _ _ _ => Ok ())
           (fun _ _ _ => Ok {| chunks := sample_turn; failure := None |})
           (fun name => name)
           (fun n => (1700000000000 + Z.of_nat n)%Z) "T1" "hello" [] None
           (generator (fun n => (1700000000000 + Z.of_nat n)%Z) sample_turn) None).
  reflexivity.
Defined.

(** X20.  Only the [agent] node is streamed: an update whose record has no
    [agent] entry - the update of the [tools] node with its tool results, or
    of the approval node - adds nothing to what the generator yields, and
    does not shift the deltas around it. *)
Theorem other_nodes_never_streamed (clock : nat -> Z) (before after : list Dyn)
    (nodes : list (string * Dyn)) :
  field "agent" nodes = None ->
  generator clock (before ++ Arr [Plain (Js.VStr "updates"); Obj nodes] :: after)
  = generator clock (before ++ after).
Proof.
  intros Hnone. unfold generator.
  rewrite !ai_messages_app.
  change (ai_messages (Arr [Plain (Js.VStr "updates"); Obj nodes] :: after))
    with (omap isAIMessage (chunk_messages (Arr [Plain (Js.VStr "updates"); Obj nodes]))
          ++ ai_messages after).
  unfold chunk_messages. cbn. rewrite Hnone. reflexivity.
Qed.

Lemma other_nodes_never_streamed_witness :
  generator (fun n => Z.of_nat n)
    ([node_update "agent" (Arr [Instance "AIMessageChunk" calling_message])]
     ++ Arr [Plain (Js.VStr "updates");
             Obj [("tools", Obj [("messages", Arr [Instance "ToolMessage" tool_result])])]]
        :: [node_update "agent" (Instance "AIMessage" answering_message)])
  = generator (fun n => Z.of_nat n)
      ([node_update "agent" (Arr [Instance "AIMessageChunk" calling_message])]
       ++ [node_update "agent" (Instance "AIMessage" answering_message)]).
Proof.
  apply (other_nodes_never_streamed (fun n => Z.of_nat n)
           [node_update "agent" (Arr [Instance "AIMessageChunk" calling_message])]
           [node_update "agent" (Instance "AIMessage" answering_message)]
           [("tools", Obj [("messages", Arr [Instance "ToolMessage" tool_result])])]).
  reflexivity.
Defined.

End StreamProperties.

(** ** Building the agent *)

Section AgentProperties.
Import Message Memory Agent ExpectMemory.
Context {LLM Tool Graph Client : Type}.
Variable DEFAULT_MODEL_PROVIDER DEFAULT_MODEL_NAME SYSTEM_PROMPT : string.
Variable createChatModel : string -> string -> Z -> Result LLM.
Variable JSON_parse : string -> Result Js.Value.
Variable MultiServerMCPClient : gmap string Mcp.MCPServerConfig -> Result Client.
Variable getTools : Client -> Result (list Tool).

Lemma hydrate_result (clock : Clock) (threadId : string)
    (history : option (list MessageResponse)) (saver : MemorySaver) :
  result_of (hydrateMemoryFromHistory clock threadId history saver []) = Ok ().
Proof.
  destruct history as [[| item rest] |]; [reflexivity | | reflexivity].
  pose proof (hydrate_run clock threadId item rest saver) as Hrun. cbv zeta in Hrun.
  destruct (result_map messageResponseToBaseMessage (item :: rest)).
  - by destruct Hrun as (line & -> & _).
  - by rewrite Hrun.
Qed.

Lemma shall_hydrate_true (threadId : option string)
    (history : option (list MessageResponse)) :
  shall_hydrate threadId history = true ->
  exists t item rest, threadId = Some t /\ t <> "" /\ history = Some (item :: rest).
Proof.
  destruct threadId as [t |], history as [[| item rest] |]; try discriminate.
  cbn. intros Ht. exists t, item, rest. repeat split.
  intros ->. discriminate.
Qed.

(** X21.  Only the model can make [createAgent] fail before the graph is
    built: when [createChatModel] throws, so does [createAgent]; otherwise
    the builder's options are there whatever the history and the tool
    registry are, and the tools are the configured ones followed by the
    registry's. *)
Theorem agent_fails_only_on_model (clock : Clock) (file : Mcp.ConfigFile)
    (cfg : option AgentConfigOptions) (threadId : option string)
    (history : option (list MessageResponse)) :
  match createChatModel (or_default (cfg ≫= cfg_provider) DEFAULT_MODEL_PROVIDER)
          (or_default (cfg ≫= cfg_model) DEFAULT_MODEL_NAME) 1 with
  | Throw e =>
      agent_options DEFAULT_MODEL_PROVIDER DEFAULT_MODEL_NAME SYSTEM_PROMPT createChatModel
        JSON_parse MultiServerMCPClient getTools clock file cfg threadId history
      = Throw e
  | Ok model =>
      exists options,
        agent_options DEFAULT_MODEL_PROVIDER DEFAULT_MODEL_NAME SYSTEM_PROMPT
          createChatModel JSON_parse MultiServerMCPClient getTools clock file cfg threadId
          history
        = Ok options
        /\ llm options = model
        /\ tools options
           = default [] (cfg ≫= cfg_tools)
             ++ Mcp.getMCPTools JSON_parse MultiServerMCPClient getTools file
  end.
Proof.
  unfold agent_options. cbv zeta.
  destruct (createChatModel _ _ 1) as [model | e]; [| reflexivity].
  rewrite bind_ok.
  destruct (shall_hydrate threadId history).
  - pose proof (hydrate_result clock (default "" threadId) history createMemorySaver)
      as Hok.
    unfold result_of in Hok. rewrite Hok, bind_ok. eauto.
  - cbn. eauto.
Qed.

(** X22.  The agent's memory is fresh for every request: the checkpointer
    handed to the builder holds a checkpoint for no thread but the request's
    own, and for that one only when the thread id is not empty and the
    client sent at least one history item. *)
Theorem agent_memory_is_fresh (clock : Clock) (file : Mcp.ConfigFile)
    (cfg : option AgentConfigOptions) (threadId : option string)
    (history : option (list MessageResponse)) (options : AgentBuilderOptions)
    (thread : string) :
  agent_options DEFAULT_MODEL_PROVIDER DEFAULT_MODEL_NAME SYSTEM_PROMPT createChatModel
    JSON_parse MultiServerMCPClient getTools clock file cfg threadId history
  = Ok options ->
  is_Some (checkpointer options !! thread) ->
  threadId = Some thread /\ thread <> ""
  /\ exists item rest, history = Some (item :: rest).
Proof.
  unfold agent_options. cbv zeta.
  destruct (createChatModel _ _ 1) as [model | e]; [| discriminate].
  rewrite bind_ok.
  destruct (shall_hydrate threadId history) eqn:Hguard.
  - destruct (shall_hydrate_true _ _ Hguard) as (t & item & rest & -> & Hne & ->).
    change (default "" (Some t)) with t.
    pose proof (hydrate_result clock t (Some (item :: rest)) createMemorySaver) as Hok.
    pose proof (hydrate_saver clock t (Some (item :: rest)) createMemorySaver) as Hsaver.
    unfold result_of, saver_of in Hok, Hsaver.
    destruct (hydrateMemoryFromHistory clock t (Some (item :: rest)) createMemorySaver [])
      as [[outcome saver] events].
    cbn [fst snd] in Hok, Hsaver |- *. subst outcome. rewrite bind_ok.
    intros [= <-]. cbn [checkpointer].
    unfold createMemorySaver, MemorySaver in *.
    destruct Hsaver as [-> | [checkpoint ->]].
    + rewrite lookup_empty. by intros [? [=]].
    + destruct (decide (t = thread)) as [-> | Hother].
      * intros _. eauto.
      * rewrite lookup_insert_ne by done. rewrite lookup_empty. by intros [? [=]].
  - cbn. intros [= <-]. cbn. unfold createMemorySaver, MemorySaver.
    rewrite lookup_empty. by intros [? [=]].
Qed.

End AgentProperties.

Lemma agent_memory_is_fresh_witness :
  Some "T1" = Some "T1" /\ "T1" <> ""
  /\ exists item rest, Some ExpectMemory.mixed_history = Some (item :: rest).
Proof.
  eapply (agent_memory_is_fresh (LLM := unit) (Tool := string) (Client := list string)
            "google" "gemini-3-flash-preview" "You are a helpful assistant."
            (fun _ _ _ => Ok ()) Spec.sample_parse Spec.sample_client Ok
            Spec.sample_clock Spec.sample_config_file None (Some "T1")
            (Some ExpectMemory.mixed_history) _ "T1");
    [reflexivity | by eexists].
Defined.

(** ** Attachments *)

Section AttachmentProperties.
Import Validation Attachments ExpectAttachments.
Variable send_get : string -> string -> Result (option Body).
Variable BUCKET_NAME : string.
Variable base64 utf8 : list Byte.byte -> string.
Variable toLowerCase : string -> string.

Lemma process_attachment_cases (attachment : FileAttachment) :
  match process_attachment send_get BUCKET_NAME base64 utf8 toLowerCase attachment with
  | Ok None => supported toLowerCase attachment = false
  | Ok (Some item) =>
      supported toLowerCase attachment = true /\ downloadable send_get BUCKET_NAME attachment
      /\ shows_attachment item = true /\ file_metadata item = Some attachment
  | Throw _ =>
      supported toLowerCase attachment = true /\ ~ downloadable send_get BUCKET_NAME attachment
  end.
Proof.
  unfold process_attachment, supported, downloadable, getFileDataUrl, preparePdfForAI,
    extractTextContent, downloadFileAsBase64, OCTET_STREAM_ALLOWED_EXTENSIONS.
  cbv zeta.
  destruct (String.prefix "image/" (type attachment)); cbn [orb].
  { destruct (getFile send_get BUCKET_NAME (key attachment)) as [buffer | e];
      rewrite ?bind_ok; cbn; [eauto 6 |].
    split; [reflexivity |]. by intros [? [=]]. }
  destruct (type attachment =? "application/pdf"); cbn [orb].
  { destruct (getFile send_get BUCKET_NAME (key attachment)) as [buffer | e];
      rewrite ?bind_ok; cbn; [eauto 6 |].
    split; [reflexivity |]. by intros [? [=]]. }
  destruct (String.prefix "text/" (type attachment)
            || (type attachment =? "application/octet-stream")
               && includes (default "" (toLowerCase <$> Js.pop (Js.split "." (name attachment))))
                    ["md"; "markdown"; "txt"]);
    [| reflexivity].
  destruct (getFile send_get BUCKET_NAME (key attachment)) as [buffer | e];
    rewrite ?bind_ok; cbn; [eauto 6 |].
  split; [reflexivity |]. by intros [? [=]].
Qed.

(** X23.  What the server attaches is what the client shows: when
    [processAttachmentsForAI] succeeds, the attachments [HumanMessage] reads
    back from the content items are exactly the attachments of a supported
    type, in their order, one content item each; attachments of any other
    type are left out without an error.  This holds whatever the host's
    lower-casing of the file extension is. *)
Theorem processed_attachments_displayed (attachments : list FileAttachment)
    (contentItems : list ContentItem) :
  processAttachmentsForAI send_get BUCKET_NAME base64 utf8 toLowerCase attachments = Ok contentItems ->
  displayed None (Some contentItems) = List.filter (supported toLowerCase) attachments
  /\ length contentItems = length (List.filter (supported toLowerCase) attachments).
Proof.
  revert contentItems.
  induction attachments as [| attachment rest IH]; intros contentItems.
  - intros [= <-]. split; reflexivity.
  - cbn [processAttachmentsForAI List.filter].
    pose proof (process_attachment_cases attachment) as Hcase.
    destruct (process_attachment send_get BUCKET_NAME base64 utf8 toLowerCase attachment)
      as [[item |] | e]; [| | discriminate].
    + destruct Hcase as (-> & _ & Hshown & Hmeta).
      destruct (processAttachmentsForAI send_get BUCKET_NAME base64 utf8 toLowerCase rest)
        as [items |]; [| discriminate].
      rewrite bind_ok. intros [= <-].
      destruct (IH items eq_refl) as [Hrest Hlength].
      unfold displayed, contentAttachments in *. cbn in *. rewrite Hshown. cbn.
      rewrite Hmeta. split; congruence.
    + rewrite Hcase.
      destruct (processAttachmentsForAI send_get BUCKET_NAME base64 utf8 toLowerCase rest)
        as [items |]; [| discriminate].
      rewrite bind_ok. intros [= <-]. by apply IH.
Qed.

(** X24.  When [processAttachmentsForAI] fails, it is at the first
    attachment of a supported type whose file cannot be read from the
    bucket, and the error names that attachment and nothing of the cause;
    every attachment before it was readable or of no supported type.  This
    holds whatever the host's lower-casing of the file extension is. *)
Theorem processing_fails_on_first_unreadable (attachments : list FileAttachment)
    (e : JsError) :
  processAttachmentsForAI send_get BUCKET_NAME base64 utf8 toLowerCase attachments = Throw e ->
  exists before attachment after,
    attachments = before ++ attachment :: after
    /\ Forall (fun earlier =>
                 supported toLowerCase earlier = true -> downloadable send_get BUCKET_NAME earlier)
         before
    /\ supported toLowerCase attachment = true
    /\ ~ downloadable send_get BUCKET_NAME attachment
    /\ e = Error ("Failed to process attachment " +:+ name attachment).
Proof.
  induction attachments as [| attachment rest IH]; [discriminate |].
  cbn [processAttachmentsForAI].
  pose proof (process_attachment_cases attachment) as Hcase.
  destruct (process_attachment send_get BUCKET_NAME base64 utf8 toLowerCase attachment)
    as [item | e0].
  - destruct (processAttachmentsForAI send_get BUCKET_NAME base64 utf8 toLowerCase rest)
      as [items | e1]; [discriminate |].
    intros [= <-].
    destruct (IH eq_refl) as (before & failing & after & -> & Hbefore & Hrest).
    exists (attachment :: before), failing, after.
    split; [reflexivity |]. split; [| exact Hrest].
    constructor; [| exact Hbefore].
    destruct item; [by destruct Hcase as (_ & ? & _) | congruence].
  - intros [= <-]. destruct Hcase as [Hsupported Hunreadable].
    exists [], attachment, rest. repeat split; auto.
Qed.

End AttachmentProperties.

Lemma processed_attachments_displayed_witness :
  exists contentItems,
    Attachments.processAttachmentsForAI ExpectAttachments.sample_bucket "uploads"
      ExpectAttachments.sample_encode ExpectAttachments.sample_encode Js.toLowerCase
      [ExpectAttachments.diagram; ExpectAttachments.archive; ExpectAttachments.notes]
    = Ok contentItems
    /\ Attachments.displayed None (Some contentItems)
       = [ExpectAttachments.diagram; ExpectAttachments.notes]
    /\ length contentItems = 2%nat.
Proof.
  eexists. split; [reflexivity |].
  apply (processed_attachments_displayed ExpectAttachments.sample_bucket "uploads"
           ExpectAttachments.sample_encode ExpectAttachments.sample_encode Js.toLowerCase
           [ExpectAttachments.diagram; ExpectAttachments.archive; ExpectAttachments.notes]).
  reflexivity.
Defined.

Lemma processing_fails_on_first_unreadable_witness :
  exists before attachment after,
    [ExpectAttachments.diagram;
     {| Attachments.url := "http://localhost:9000/uploads/gone.txt";
        Attachments.key := "gone.txt"; Attachments.name := "gone.txt";
        Attachments.type := "text/plain"; Attachments.size := 10 |};
     ExpectAttachments.notes]
    = before ++ attachment :: after
    /\ Forall (fun earlier =>
                 Attachments.supported Js.toLowerCase earlier = true ->
                 ExpectAttachments.downloadable ExpectAttachments.sample_bucket "uploads"
                   earlier) before
    /\ Attachments.supported Js.toLowerCase attachment = true
    /\ ~ ExpectAttachments.downloadable ExpectAttachments.sample_bucket "uploads"
           attachment
    /\ Attachments.Error "Failed to process attachment gone.txt"
       = Attachments.Error ("Failed to process attachment " +:+ Attachments.name attachment).
Proof.
  apply (processing_fails_on_first_unreadable ExpectAttachments.sample_bucket "uploads"
           ExpectAttachments.sample_encode ExpectAttachments.sample_encode Js.toLowerCase).
  reflexivity.
Defined.
